(** * acm-client: a shallow embedding of the configuration client

    The development follows the three classes of the library:
    - [Snapshot]           (src/lib/snapshot.js)
    - [ServerListManager]  (src/lib/server_list_mgr.js)
    - [DiamondEnv]         (src/lib/diamond_env.js)

    Generators driven by [co] are written in a state-and-exception monad
    over one [World] record holding the three objects' fields, the disk,
    the two deferred-callback queues of the event loop and the observable
    event logs.

    Conventions:
    - what the program does not decide is an input: the HTTP transport,
      the faults of the file system, the random source and the clock
      ([Env]); the hash, HMAC, JSON and URI functions and the constants
      of the files that are not among the sources ([Platform]);
    - every call of the transport is recorded on [wire], every [emit] and
      every direct listener call on [delivered], so that the properties
      can speak about what leaves the program;
    - listeners are inert: calling one is recorded and has no other
      effect;
    - the tasks handed to [gather] run one after the other;
    - strings are byte strings; [path.join] is taken on segments that
      need no normalising. *)

From Stdlib Require Import ZArith Ascii String.
From stdpp Require Import gmap strings list fin_maps pretty.

Local Open Scope Z_scope.

(** ** JavaScript values used as request fields *)

Inductive jsval :=
| JUndefined
| JNull
| JStr (s : string)
| JNum (n : Z).

Global Instance jsval_eq_dec : EqDecision jsval.
Proof. solve_decision. Defined.

(** [if (v)] *)
Definition truthy (v : jsval) : bool :=
  match v with
  | JUndefined | JNull => false
  | JStr s => negb (String.eqb s "")
  | JNum n => negb (n =? 0)
  end.

(** The coercion of [v + '...'] and of template strings. *)
Definition ToString (v : jsval) : string :=
  match v with
  | JUndefined => "undefined"
  | JNull => "null"
  | JStr s => s
  | JNum n => pretty n
  end.

(** [a + b] where one side is a string. *)
Definition js_concat (a b : jsval) : jsval := JStr (ToString a +:+ ToString b).

(** A value that is [null] or a string: response bodies, configuration
    contents, the results of [Snapshot.get]. *)
Definition of_nullable (o : option string) : jsval :=
  match o with
  | None => JNull
  | Some s => JStr s
  end.

(** Plain objects: keys in insertion order. *)
Definition object (V : Type) := list (string * V).

Fixpoint obj_get {V} (k : string) (o : object V) : option V :=
  match o with
  | [] => None
  | (k', v) :: o' => if String.eqb k k' then Some v else obj_get k o'
  end.

Fixpoint obj_set {V} (k : string) (v : V) (o : object V) : object V :=
  match o with
  | [] => [(k, v)]
  | (k', v') :: o' =>
      if String.eqb k k' then (k, v) :: o' else (k', v') :: obj_set k v o'
  end.

(** [Object.assign(target, source)] *)
Definition Object_assign {V} (target source : object V) : object V :=
  fold_left (fun acc kv => obj_set (fst kv) (snd kv) acc) source target.

(** [data.field]: a missing property reads as [undefined]. *)
Definition field (k : string) (data : object jsval) : jsval :=
  match obj_get k data with
  | Some v => v
  | None => JUndefined
  end.

(** ** Errors

    An [Error] object is kept as its [name] and the properties the code
    attaches to it ([params] of the discovery request apart); the message
    text is not modelled. *)

Inductive payload :=
| PObject (o : object jsval)
| PText (s : string).

Record error := {
  err_name : string;
  err_unit : option string;
  err_url : option string;
  err_data : option payload;
  err_headers : option (object string);
  err_body : option (option string);
  err_dataId : option string;
  err_group : option string;
  err_key : option string;
  err_value : option string
}.

Definition new_Error (name : string) : error :=
  {| err_name := name; err_unit := None; err_url := None; err_data := None;
     err_headers := None; err_body := None; err_dataId := None;
     err_group := None; err_key := None; err_value := None |}.

Definition set_name (n : string) (e : error) : error :=
  {| err_name := n; err_unit := err_unit e; err_url := err_url e;
     err_data := err_data e; err_headers := err_headers e;
     err_body := err_body e; err_dataId := err_dataId e;
     err_group := err_group e; err_key := err_key e;
     err_value := err_value e |}.

Definition set_unit (u : string) (e : error) : error :=
  {| err_name := err_name e; err_unit := Some u; err_url := err_url e;
     err_data := err_data e; err_headers := err_headers e;
     err_body := err_body e; err_dataId := err_dataId e;
     err_group := err_group e; err_key := err_key e;
     err_value := err_value e |}.

Definition set_url (u : string) (e : error) : error :=
  {| err_name := err_name e; err_unit := err_unit e; err_url := Some u;
     err_data := err_data e; err_headers := err_headers e;
     err_body := err_body e; err_dataId := err_dataId e;
     err_group := err_group e; err_key := err_key e;
     err_value := err_value e |}.

Definition set_data (d : payload) (e : error) : error :=
  {| err_name := err_name e; err_unit := err_unit e; err_url := err_url e;
     err_data := Some d; err_headers := err_headers e;
     err_body := err_body e; err_dataId := err_dataId e;
     err_group := err_group e; err_key := err_key e;
     err_value := err_value e |}.

Definition set_headers (h : object string) (e : error) : error :=
  {| err_name := err_name e; err_unit := err_unit e; err_url := err_url e;
     err_data := err_data e; err_headers := Some h;
     err_body := err_body e; err_dataId := err_dataId e;
     err_group := err_group e; err_key := err_key e;
     err_value := err_value e |}.

Definition set_body (b : option string) (e : error) : error :=
  {| err_name := err_name e; err_unit := err_unit e; err_url := err_url e;
     err_data := err_data e; err_headers := err_headers e;
     err_body := Some b; err_dataId := err_dataId e;
     err_group := err_group e; err_key := err_key e;
     err_value := err_value e |}.

Definition set_dataId_group (d g : string) (e : error) : error :=
  {| err_name := err_name e; err_unit := err_unit e; err_url := err_url e;
     err_data := err_data e; err_headers := err_headers e;
     err_body := err_body e; err_dataId := Some d;
     err_group := Some g; err_key := err_key e;
     err_value := err_value e |}.

Definition set_key (k : string) (e : error) : error :=
  {| err_name := err_name e; err_unit := err_unit e; err_url := err_url e;
     err_data := err_data e; err_headers := err_headers e;
     err_body := err_body e; err_dataId := err_dataId e;
     err_group := err_group e; err_key := Some k;
     err_value := err_value e |}.

Definition set_value (v : string) (e : error) : error :=
  {| err_name := err_name e; err_unit := err_unit e; err_url := err_url e;
     err_data := err_data e; err_headers := err_headers e;
     err_body := err_body e; err_dataId := err_dataId e;
     err_group := err_group e; err_key := err_key e;
     err_value := Some v |}.

(** ** The HTTP transport contract *)

Record http_request := {
  req_url : string;
  req_method : string;
  req_data : option (object jsval);
  req_headers : object string;
  req_timeout : Z
}.

(** [httpclient.request] resolves to [{status, data}] or rejects. *)
Inductive http_result :=
| HttpRes (status : Z) (data : option string)
| HttpThrow (e : error).

(** Which object called the transport. *)
Inductive caller := ByServerListManager | ByDiamondEnv.

Global Instance caller_eq_dec : EqDecision caller.
Proof. solve_decision. Defined.

(** ** The file system under the snapshot directory *)

Inductive fs_op :=
| FsReadFile (p : string)
| FsMkdirp (p : string)
| FsWriteFile (p : string)
| FsRimraf (p : string).

(** ** State of the three objects *)

(** [{ hosts, index }] in [_serverListCache]. *)
Record ServerData := {
  hosts : list string;
  index : nat
}.

(** The rows of [_subscriptions]. *)
Record Subscription := {
  dataId : string;
  group : string;
  md5 : option string;
  content : option string
}.

(** [{ dataId, group }] as passed to [subscribe], [unSubscribe] and
    listed by a probe response. *)
Record info := {
  info_dataId : string;
  info_group : string
}.

(** Callbacks waiting in the event loop. Listeners are identified by a
    number and are inert: calling one is recorded, nothing else. *)
Inductive task :=
| TEmit (key : string) (c : option string)
| TEmitError (e : error)
| TListener (key : string) (l : nat) (c : option string).

(** A listener called with a content: by [emit], or directly by the
    callback [subscribe] defers. *)
Inductive delivery :=
| ByEmit (key : string) (l : nat) (c : option string)
| ByCall (key : string) (l : nat) (c : option string).

Record World := {
  (* the disk *)
  disk : gmap string string;
  (* Snapshot: errors emitted on the snapshot object *)
  snapshot_errors : list error;
  (* ServerListManager *)
  _serverListCache : gmap string (option ServerData);
  mgr_errors : list error;
  (* DiamondEnv *)
  _currentServer : option string;
  _subscriptions : list (string * Subscription);
  listeners : gmap string (list nat);
  (* the event loop: process.nextTick and setImmediate queues *)
  ticks : list task;
  immediates : list task;
  (* what listeners received *)
  delivered : list delivery;
  env_errors : list error;
  (* every call of httpclient.request, oldest first *)
  wire : list (caller * http_request)
}.

Definition with_disk (d : gmap string string) (w : World) : World :=
  {| disk := d; snapshot_errors := snapshot_errors w;
     _serverListCache := _serverListCache w; mgr_errors := mgr_errors w;
     _currentServer := _currentServer w; _subscriptions := _subscriptions w;
     listeners := listeners w; ticks := ticks w; immediates := immediates w;
     delivered := delivered w; env_errors := env_errors w; wire := wire w |}.

Definition with_snapshot_errors (l : list error) (w : World) : World :=
  {| disk := disk w; snapshot_errors := l;
     _serverListCache := _serverListCache w; mgr_errors := mgr_errors w;
     _currentServer := _currentServer w; _subscriptions := _subscriptions w;
     listeners := listeners w; ticks := ticks w; immediates := immediates w;
     delivered := delivered w; env_errors := env_errors w; wire := wire w |}.

Definition with_cache (c : gmap string (option ServerData)) (w : World) : World :=
  {| disk := disk w; snapshot_errors := snapshot_errors w;
     _serverListCache := c; mgr_errors := mgr_errors w;
     _currentServer := _currentServer w; _subscriptions := _subscriptions w;
     listeners := listeners w; ticks := ticks w; immediates := immediates w;
     delivered := delivered w; env_errors := env_errors w; wire := wire w |}.

Definition with_mgr_errors (l : list error) (w : World) : World :=
  {| disk := disk w; snapshot_errors := snapshot_errors w;
     _serverListCache := _serverListCache w; mgr_errors := l;
     _currentServer := _currentServer w; _subscriptions := _subscriptions w;
     listeners := listeners w; ticks := ticks w; immediates := immediates w;
     delivered := delivered w; env_errors := env_errors w; wire := wire w |}.

Definition with_currentServer (s : option string) (w : World) : World :=
  {| disk := disk w; snapshot_errors := snapshot_errors w;
     _serverListCache := _serverListCache w; mgr_errors := mgr_errors w;
     _currentServer := s; _subscriptions := _subscriptions w;
     listeners := listeners w; ticks := ticks w; immediates := immediates w;
     delivered := delivered w; env_errors := env_errors w; wire := wire w |}.

Definition with_subscriptions (s : list (string * Subscription)) (w : World) : World :=
  {| disk := disk w; snapshot_errors := snapshot_errors w;
     _serverListCache := _serverListCache w; mgr_errors := mgr_errors w;
     _currentServer := _currentServer w; _subscriptions := s;
     listeners := listeners w; ticks := ticks w; immediates := immediates w;
     delivered := delivered w; env_errors := env_errors w; wire := wire w |}.

Definition with_listeners (l : gmap string (list nat)) (w : World) : World :=
  {| disk := disk w; snapshot_errors := snapshot_errors w;
     _serverListCache := _serverListCache w; mgr_errors := mgr_errors w;
     _currentServer := _currentServer w; _subscriptions := _subscriptions w;
     listeners := l; ticks := ticks w; immediates := immediates w;
     delivered := delivered w; env_errors := env_errors w; wire := wire w |}.

Definition with_ticks (l : list task) (w : World) : World :=
  {| disk := disk w; snapshot_errors := snapshot_errors w;
     _serverListCache := _serverListCache w; mgr_errors := mgr_errors w;
     _currentServer := _currentServer w; _subscriptions := _subscriptions w;
     listeners := listeners w; ticks := l; immediates := immediates w;
     delivered := delivered w; env_errors := env_errors w; wire := wire w |}.

Definition with_immediates (l : list task) (w : World) : World :=
  {| disk := disk w; snapshot_errors := snapshot_errors w;
     _serverListCache := _serverListCache w; mgr_errors := mgr_errors w;
     _currentServer := _currentServer w; _subscriptions := _subscriptions w;
     listeners := listeners w; ticks := ticks w; immediates := l;
     delivered := delivered w; env_errors := env_errors w; wire := wire w |}.

Definition with_delivered (l : list delivery) (w : World) : World :=
  {| disk := disk w; snapshot_errors := snapshot_errors w;
     _serverListCache := _serverListCache w; mgr_errors := mgr_errors w;
     _currentServer := _currentServer w; _subscriptions := _subscriptions w;
     listeners := listeners w; ticks := ticks w; immediates := immediates w;
     delivered := l; env_errors := env_errors w; wire := wire w |}.

Definition with_env_errors (l : list error) (w : World) : World :=
  {| disk := disk w; snapshot_errors := snapshot_errors w;
     _serverListCache := _serverListCache w; mgr_errors := mgr_errors w;
     _currentServer := _currentServer w; _subscriptions := _subscriptions w;
     listeners := listeners w; ticks := ticks w; immediates := immediates w;
     delivered := delivered w; env_errors := l; wire := wire w |}.

Definition with_wire (l : list (caller * http_request)) (w : World) : World :=
  {| disk := disk w; snapshot_errors := snapshot_errors w;
     _serverListCache := _serverListCache w; mgr_errors := mgr_errors w;
     _currentServer := _currentServer w; _subscriptions := _subscriptions w;
     listeners := listeners w; ticks := ticks w; immediates := immediates w;
     delivered := delivered w; env_errors := env_errors w; wire := l |}.

(** A client just constructed, over a given disk. *)
Definition fresh (d : gmap string string) : World :=
  {| disk := d; snapshot_errors := []; _serverListCache := ∅;
     mgr_errors := []; _currentServer := None; _subscriptions := [];
     listeners := ∅; ticks := []; immediates := []; delivered := [];
     env_errors := []; wire := [] |}.

(** ** What surrounds the program *)

(** The stubs of one run: the transport, the disk's faults, the random
    source and the clock. *)
Record Env := {
  httpclient : http_request -> http_result;
  fs_fault : fs_op -> option error;
  random : nat -> nat;
  Date_now : Z
}.

(** Functions and constants the program takes from elsewhere:
    [getMD5String] and [encodingParams] of lib/utils.js, [VERSION] and
    [CURRENT_UNIT] of lib/const.js, and the [crypto], [JSON] and URI
    functions of the runtime. [JSON_parse] is [None] where [JSON.parse]
    throws; the snapshot it reads is written by [JSON.stringify] of an
    array of host names. *)
Record Platform := {
  VERSION : string;
  CURRENT_UNIT : string;
  getMD5String : option string -> option string;
  encodingParams : object jsval -> object jsval;
  hmac_sha1_base64 : string -> string -> string;
  JSON_stringify : list string -> string;
  JSON_parse : string -> option (list string);
  decodeURIComponent : string -> option string
}.

(** [this.options] *)
Record Options := {
  unit : string;
  namespace : option string;
  ssl : bool;
  accessKey : string;
  secretKey : string;
  requestTimeout : Z;
  cacheDir : string;
  nameServerAddr : string
}.

(** ** Generators as a state-and-exception monad *)

Inductive outcome (A : Type) :=
| Return (a : A)
| Throw (e : error).
Arguments Return {A} a.
Arguments Throw {A} e.

Definition M (A : Type) : Type := World -> outcome A * World.

Definition ret {A} (a : A) : M A := fun w => (Return a, w).
Definition throw {A} (e : error) : M A := fun w => (Throw e, w).

Definition bind {A B} (m : M A) (k : A -> M B) : M B :=
  fun w =>
    match m w with
    | (Return a, w') => k a w'
    | (Throw e, w') => (Throw e, w')
    end.

(** [try { m } catch (err) { h err }] *)
Definition try_catch {A} (m : M A) (h : error -> M A) : M A :=
  fun w =>
    match m w with
    | (Return a, w') => (Return a, w')
    | (Throw e, w') => h e w'
    end.

Definition modify (f : World -> World) : M () := fun w => (Return (), f w).
Definition gets {A} (f : World -> A) : M A := fun w => (Return (f w), w).

Declare Scope gen_scope.
Delimit Scope gen_scope with gen.
Notation "'let!' x ':=' m 'in' k" := (bind m (fun x => k))
  (at level 10, x name, m at level 99, k at level 200) : gen_scope.
Notation "m ';;' k" := (bind m (fun _ => k))
  (at level 100, k at level 200, right associativity) : gen_scope.
Local Open Scope gen_scope.

(** ** Strings: [split], [trim], [path] *)

(** [s.split(sep)] for a one-character separator. *)
Fixpoint split_go (sep : ascii) (s : string) (cur : string) : list string :=
  match s with
  | EmptyString => [String.rev cur]
  | String c s' =>
      if Ascii.eqb c sep then String.rev cur :: split_go sep s' EmptyString
      else split_go sep s' (String c cur)
  end.

Definition split (sep : ascii) (s : string) : list string :=
  split_go sep s EmptyString.

(** White space removed by [String.prototype.trim], for one-byte
    characters: tab, line feed, vertical tab, form feed, carriage return
    and space. *)
Definition is_space (c : ascii) : bool :=
  let n := nat_of_ascii c in
  ((9 <=? n)%nat && (n <=? 13)%nat) || (n =? 32)%nat.

Fixpoint trim_start (s : string) : string :=
  match s with
  | EmptyString => EmptyString
  | String c s' => if is_space c then trim_start s' else s
  end.

Definition trim (s : string) : string :=
  String.rev (trim_start (String.rev (trim_start s))).

(** [arr.join('')]: [null] and [undefined] elements give the empty
    string. *)
Definition join_elem (v : jsval) : string :=
  match v with
  | JUndefined | JNull => ""
  | _ => ToString v
  end.

Definition join (arr : list jsval) : string :=
  foldr (fun v rest => join_elem v +:+ rest) "" arr.

(** [path.join] on segments that need no normalising: zero-length
    segments are skipped, the others are joined by the separator. *)
Definition path_join (segs : list string) : string :=
  match filter (fun s => s ≠ "") segs with
  | [] => "."
  | l => String.concat "/" l
  end.

(** [path.dirname] *)
Fixpoint drop_last_segment (r : string) : string :=
  match r with
  | EmptyString => EmptyString
  | String c r' => if Ascii.eqb c "/" then r' else drop_last_segment r'
  end.

Definition path_dirname (p : string) : string :=
  match String.rev (drop_last_segment (String.rev p)) with
  | EmptyString => if String.prefix "/" p then "/" else "."
  | d => d
  end.

(** ** Primitive effects *)

Section Effects.
Context (E : Env).

(** [fs.exists] of mz/fs resolves to a boolean and never rejects. *)
Definition fs_exists (p : string) : M bool :=
  gets (fun w => bool_decide (is_Some (disk w !! p))).

Definition fs_readFile (p : string) : M string :=
  fun w =>
    match fs_fault E (FsReadFile p) with
    | Some e => (Throw e, w)
    | None =>
        match disk w !! p with
        | Some s => (Return s, w)
        | None => (Throw (new_Error "Error"), w)
        end
    end.

(** Directories are not kept on the modelled disk. *)
Definition mkdirp (d : string) : M () :=
  fun w =>
    match fs_fault E (FsMkdirp d) with
    | Some e => (Throw e, w)
    | None => (Return (), w)
    end.

Definition fs_writeFile (p : string) (v : string) : M () :=
  fun w =>
    match fs_fault E (FsWriteFile p) with
    | Some e => (Throw e, w)
    | None => (Return (), with_disk (<[p := v]> (disk w)) w)
    end.

(** The disk holds regular files only: removing a path removes its
    entry. *)
Definition rimraf (p : string) : M () :=
  fun w =>
    match fs_fault E (FsRimraf p) with
    | Some e => (Throw e, w)
    | None => (Return (), with_disk (delete p (disk w)) w)
    end.

(** [httpclient.request(url, options)], recorded on [wire]. *)
Definition http (who : caller) (r : http_request) : M (Z * option string) :=
  fun w =>
    let w' := with_wire (wire w ++ [(who, r)]) w in
    match httpclient E r with
    | HttpRes status data => (Return (status, data), w')
    | HttpThrow e => (Throw e, w')
    end.

Definition setImmediate (t : task) : M () :=
  modify (fun w => with_immediates (immediates w ++ [t]) w).

Definition nextTick (t : task) : M () :=
  modify (fun w => with_ticks (ticks w ++ [t]) w).
End Effects.

(** [gather(tasks)] of co-gather for the server list manager: every task
    runs to its end and a throw becomes an [isError] result; the tasks
    run one after the other, in the order of the list. *)
Fixpoint co_gather {A} (tasks : list (M A)) : M (list (outcome A)) :=
  match tasks with
  | [] => ret []
  | t :: tasks' =>
      fun w =>
        let '(r, w1) := t w in
        let '(rs, w2) := co_gather tasks' w1 in
        match rs with
        | Return rs => (Return (r :: rs), w2)
        | Throw e => (Throw e, w2)
        end
  end.

(** ** JSON responses

    [JSON.parse] of a response body, together with the reads the caller
    makes on the result, as far as the callers go: a page of
    [getAllConfigInfoByTenant] is read for its [totalCount] and its
    [pageItems], a batch for the [status], [dataId], [group] and [content]
    of its entries. [Throw e] stands for the [SyntaxError] or [TypeError]
    the runtime raises. *)

Record page (item : Type) := {
  totalCount : Z;
  pageItems : list item
}.
Arguments totalCount {item} p.
Arguments pageItems {item} p.

Record batch_item := {
  bi_status : Z;
  bi_dataId : string;
  bi_group : string;
  bi_content : option string
}.

Record Json := {
  item : Type;
  answer : Type;
  parse_page : option string -> outcome (page item);
  parse_batch : option string -> outcome (list batch_item);
  parse_answer : option string -> outcome answer
}.

(** [_isClose] and [_isLongPulling] of a [DiamondEnv], passed to the
    functions that read or write them and handed back by them. *)
Record Flags := {
  _isClose : bool;
  _isLongPulling : bool
}.

(** ** src/lib/snapshot.js *)

Module Snapshot.
Section WithEnv.
Context (E : Env) (O : Options).

Definition emit_error (e : error) : M () :=
  modify (fun w => with_snapshot_errors (snapshot_errors w ++ [e]) w).

Definition _getSnapshotFile (key : string) : string :=
  path_join [cacheDir O; "snapshot"; key].

Definition get (key : string) : M (option string) :=
  let filepath := _getSnapshotFile key in
  try_catch
    (let! exists_ := fs_exists filepath in
     if (exists_ : bool)
     then let! s := fs_readFile E filepath in ret (Some s)
     else ret None)
    (fun err =>
       emit_error (set_name "SnapshotReadError" err);;
       ret None).

(** [value = value || ''] *)
Definition or_empty (value : option string) : string :=
  match value with
  | Some s => s
  | None => ""
  end.

Definition save (key : string) (value : option string) : M () :=
  let filepath := _getSnapshotFile key in
  let dir := path_dirname filepath in
  let value := or_empty value in
  try_catch
    (mkdirp E dir;;
     fs_writeFile E filepath value)
    (fun err =>
       emit_error (set_value value (set_key key (set_name "SnapshotWriteError" err)))).

Definition delete (key : string) : M () :=
  let filepath := _getSnapshotFile key in
  try_catch
    (rimraf E filepath)
    (fun err =>
       emit_error (set_key key (set_name "SnapshotDeleteError" err))).

(** [yield arr.map(({ key, value }) => this.save(key, value))]: the
    saves run here one after the other, in the order of the array. *)
Fixpoint batchSave (arr : list (string * option string)) : M () :=
  match arr with
  | [] => ret ()
  | (key, value) :: arr' => save key value;; batchSave arr'
  end.
End WithEnv.
End Snapshot.

(** Modelled from the spec: the wire constants of lib/const.js, which is
    not among the sources: [WORD_SEPARATOR] is U+0002, [LINE_SEPARATOR] is
    U+0001, and the HTTP statuses are 200 (value), 404 (absent) and 409
    (conflict). *)
Module Constants.
Definition WORD_SEPARATOR_CHAR : ascii := "002".
Definition LINE_SEPARATOR_CHAR : ascii := "001".
Definition WORD_SEPARATOR : string := String WORD_SEPARATOR_CHAR EmptyString.
Definition LINE_SEPARATOR : string := String LINE_SEPARATOR_CHAR EmptyString.
Definition HTTP_OK : Z := 200.
Definition HTTP_NOT_FOUND : Z := 404.
Definition HTTP_CONFLICT : Z := 409.
End Constants.

(** ** src/lib/server_list_mgr.js *)

Module ServerListManager.
Section WithEnv.
Context (P : Platform) (E : Env) (O : Options).

Definition emit_error (e : error) : M () :=
  modify (fun w => with_mgr_errors (mgr_errors w ++ [e]) w).

Definition discovery_request (url : string) : http_request :=
  {| req_url := url; req_method := "GET"; req_data := None;
     req_headers := []; req_timeout := requestTimeout O |}.

Definition _request (url : string) : M (option string) :=
  let! res := http E ByServerListManager (discovery_request url) in
  let '(status, data) := res in
  if negb (status =? 200)
  then throw (set_body data (set_url url (new_Error "DiamondServerResponseError")))
  else ret data.

Definition _formatKey (unit : string) : string :=
  path_join ["server_list"; unit].

Definition _getRequestUrl (unit : string) : string :=
  if String.eqb unit (CURRENT_UNIT P)
  then "http://" +:+ nameServerAddr O +:+ "/diamond-server/diamond"
  else "http://" +:+ nameServerAddr O +:+ "/diamond-server/diamond-unit-"
         +:+ unit +:+ "?nofix=1".

(** [data.split('\n').map(host => host.trim()).filter(host => !!host)] *)
Definition parse_hosts (data : string) : list string :=
  filter (fun host => host ≠ "") (map trim (split "010" data)).

(** The [try] block of [_fetchServerList]: the value of [hosts] when it
    completes. A throw after [hosts] was assigned leaves the empty
    list in it, which the code after the block treats like
    [undefined]. *)
Definition fetch_remote (unit : string) : M (list string) :=
  let key := _formatKey unit in
  let url := _getRequestUrl unit in
  let! data := _request url in
  let data := Snapshot.or_empty data in
  let hosts := parse_hosts data in
  if (length hosts =? 0)%nat
  then throw (set_unit unit (new_Error "DiamondServerHostEmptyError"))
  else
    Snapshot.save E O key (Some (JSON_stringify P hosts));;
    ret hosts.

(** The [catch] block: the value of [hosts] after it, [None] for
    [undefined] or a list left empty by the [try] block.

    The code keeps what [JSON.parse] returns without looking at its
    shape. [JSON_parse] covers a file that is not JSON ([None]) and a
    file that holds an array of strings, which is what [fetch_remote]
    writes; a file that holds other JSON (a string, an object with a
    [length], an array of other values) would be cached as it is, and is
    outside this model. The properties below that speak of the hosts of
    a pool take the pool from the cache or from an answer of the name
    server, or state the result of the parse as a hypothesis. *)
Definition fetch_snapshot (unit : string) (err : error) : M (option (list string)) :=
  let key := _formatKey unit in
  emit_error err;;
  let! data := Snapshot.get E O key in
  if truthy (of_nullable data)
  then
    let data := Snapshot.or_empty data in
    match JSON_parse P data with
    | Some hosts => ret (Some hosts)
    | None =>
        Snapshot.delete E O key;;
        emit_error (set_data (PText data) (set_unit unit
                      (new_Error "ServerListSnapShotJSONParseError")));;
        ret None
    end
  else ret None.

Definition cache_set (unit : string) (v : option ServerData) : M () :=
  modify (fun w => with_cache (<[unit := v]> (_serverListCache w)) w).

(** [_fetchServerList] after the [try]/[catch]: what goes into the
    cache. *)
Definition populate (unit : string) (hosts : option (list string)) : M (option ServerData) :=
  match hosts with
  | None | Some [] =>
      cache_set unit None;;
      ret None
  | Some hosts =>
      let serverData := {| hosts := hosts; index := random E (length hosts) |} in
      cache_set unit (Some serverData);;
      ret (Some serverData)
  end.

Definition _fetchServerList (unit : string) : M (option ServerData) :=
  let! hosts :=
    try_catch
      (let! hosts := fetch_remote unit in ret (Some hosts))
      (fetch_snapshot unit) in
  populate unit hosts.

Definition getOne (unit : string) : M (option string) :=
  let! cached := gets (fun w => _serverListCache w !! unit) in
  let! serverData :=
    match cached with
    | Some (Some serverData) => ret (Some serverData)
    | _ => _fetchServerList unit
    end in
  match serverData with
  | None => ret None
  | Some serverData =>
      if (length (hosts serverData) =? 0)%nat then ret None
      else
        let choosed := hosts serverData !! index serverData in
        let index' := (index serverData + 1)%nat in
        let index' := if (length (hosts serverData) <=? index')%nat then 0%nat else index' in
        cache_set unit (Some {| hosts := hosts serverData; index := index' |});;
        ret choosed
  end.


(** One turn of the loop of [_syncServers], after the sleep, for the
    keys [units] of the cache. *)
Definition refresh (units : list string) : M () :=
  let! results := co_gather (map _fetchServerList units) in
  fold_right
    (fun r rest =>
       match r with
       | Return _ => rest
       | Throw e => emit_error (new_Error "DiamondUpdateServersError");; rest
       end)
    (ret ()) results.

(** [Array.from(this._serverListCache.keys())]; the cache is kept
    without the insertion order of the JavaScript [Map], the keys come in
    the order of the finite map. *)
Definition _syncServers_turn : M () :=
  let! units := gets (fun w => (map_to_list (_serverListCache w)).*1) in
  refresh units.

Definition fetchUnitLists : M (list string) :=
  let url := "http://" +:+ nameServerAddr O +:+ "/diamond-server/unit-list?nofix=1" in
  let! data := _request url in
  let data := Snapshot.or_empty data in
  ret (parse_hosts data).
End WithEnv.
End ServerListManager.

(** The constructor of [ServerListManager] on [options.endpoint]:
    [temp = endpoint.split(':')], then
    [temp[0] + ':' + (temp[1] || '8080')], for an endpoint that is set. *)
Definition endpoint_with_port (endpoint : string) : string :=
  if truthy (JStr endpoint)
  then
    let temp := split ":" endpoint in
    let port :=
      match temp !! 1%nat with
      | Some temp1 => if truthy (JStr temp1) then temp1 else "8080"
      | None => "8080"
      end in
    let host :=
      match temp !! 0%nat with
      | Some temp0 => temp0
      | None => ToString JUndefined
      end in
    host +:+ ":" +:+ port
  else endpoint.

(** ** JavaScript [Map] with insertion order, and the event emitter *)

Fixpoint Map_get {V} (k : string) (m : list (string * V)) : option V :=
  match m with
  | [] => None
  | (k', v) :: m' => if String.eqb k k' then Some v else Map_get k m'
  end.

(** [m.set(k, v)], also used for a write to a field of the object stored
    under [k]: an existing key keeps its place. *)
Fixpoint Map_set {V} (k : string) (v : V) (m : list (string * V)) : list (string * V) :=
  match m with
  | [] => [(k, v)]
  | (k', v') :: m' =>
      if String.eqb k k' then (k, v) :: m' else (k', v') :: Map_set k v m'
  end.

Definition Map_delete {V} (k : string) (m : list (string * V)) : list (string * V) :=
  filter (fun kv => negb (String.eqb k (fst kv))) m.

Definition Map_values {V} (m : list (string * V)) : list V := map snd m.

(** [emitter.listeners(key)] *)
Definition listeners_of (key : string) (w : World) : list nat :=
  match listeners w !! key with
  | Some l => l
  | None => []
  end.

(** [emitter.on(key, listener)] *)
Definition on (key : string) (l : nat) : M () :=
  modify (fun w => with_listeners (<[key := listeners_of key w ++ [l]]> (listeners w)) w).

(** Removes the most recently added instance of [l]. *)
Fixpoint remove_last (l : nat) (ls : list nat) : option (list nat) :=
  match ls with
  | [] => None
  | x :: ls' =>
      match remove_last l ls' with
      | Some r => Some (x :: r)
      | None => if (x =? l)%nat then Some ls' else None
      end
  end.

(** [emitter.removeListener(key, listener)] *)
Definition removeListener (key : string) (l : nat) : M () :=
  modify (fun w =>
    match remove_last l (listeners_of key w) with
    | Some [] => with_listeners (delete key (listeners w)) w
    | Some r => with_listeners (<[key := r]> (listeners w)) w
    | None => w
    end).

(** [emitter.removeAllListeners(key)] *)
Definition removeAllListeners (key : string) : M () :=
  modify (fun w => with_listeners (delete key (listeners w)) w).

(** [emitter.emit(key, content)]: every listener of the key, at the time
    of the call, receives the content. Subscription keys contain two [@]
    (see [_formatKey]) and so never equal ['error'], which has its own
    log. *)
Definition emit (key : string) (c : option string) (w : World) : World :=
  with_delivered (delivered w ++ map (fun l => ByEmit key l c) (listeners_of key w)) w.

Definition emit_error_event (e : error) (w : World) : World :=
  with_env_errors (env_errors w ++ [e]) w.

Definition run_task (t : task) (w : World) : World :=
  match t with
  | TEmit key c => emit key c w
  | TEmitError e => emit_error_event e w
  | TListener key l c => with_delivered (delivered w ++ [ByCall key l c]) w
  end.

(** One turn of the event loop: the [process.nextTick] queue, then the
    [setImmediate] queue. *)
Definition run_event_loop (w : World) : World :=
  let w1 := fold_left (fun w t => run_task t w) (ticks w) (with_ticks [] w) in
  fold_left (fun w t => run_task t w) (immediates w1) (with_immediates [] w1).

(** ** src/lib/diamond_env.js *)

Module DiamondEnv.

(** The [options] argument of [_request], defaults filled in at the call. *)
Record request_options := {
  encode : bool;
  method : string;
  data : object jsval;
  timeout : option Z;
  headers : object string
}.

Section WithEnv.
Context (P : Platform) (E : Env) (O : Options).

Definition _error (err : error) : M () :=
  setImmediate (TEmitError err).

Definition _formatKey (i : info) : string :=
  info_dataId i +:+ "@" +:+ info_group i +:+ "@" +:+ unit O.

(** [tenant || this.options.namespace || 'default_tenant'], with
    [tenant] undefined as in every call of the file. *)
Definition _getSnapshotKey (dataId group : string) : string :=
  let tenant :=
    if truthy (of_nullable (namespace O))
    then Snapshot.or_empty (namespace O) else "default_tenant" in
  path_join ["config"; unit O; tenant; group; dataId].

Definition _updateCurrentServer : M () :=
  let! server := ServerListManager.getOne P E O (unit O) in
  modify (with_currentServer server);;
  if negb (truthy (of_nullable server))
  then throw (set_unit (unit O) (new_Error "DiamondServerUnavailableError"))
  else ret ().

(** [signStr] *)
Definition signStr (data : object jsval) : jsval :=
  if truthy (field "group" data) && truthy (field "tenant" data)
  then js_concat (js_concat (field "tenant" data) (JStr "+")) (field "group" data)
  else if truthy (field "group" data) then field "group" data
  else field "tenant" data.

Definition signature (data : object jsval) (ts : string) : string :=
  hmac_sha1_base64 P (secretKey O)
    (ToString (js_concat (js_concat (signStr data) (JStr "+")) (JStr ts))).

Definition common_headers (data : object jsval) (ts : string) : object string :=
  [ ("Client-Version", VERSION P);
    ("Content-Type", "application/x-www-form-urlencoded; charset=UTF-8");
    ("Spas-AccessKey", accessKey O);
    ("timeStamp", ts);
    ("exConfigInfo", "true");
    ("Spas-Signature", signature data ts) ].

Definition request_url (server path : string) : string :=
  if ssl O
  then "https://" +:+ server +:+ ":443/diamond-server" +:+ path
  else "http://" +:+ server +:+ ":8080/diamond-server" +:+ path.

(** What [_request] hands to the transport: everything computed
    before the [try] block. *)
Definition outbound (server : option string) (path : string)
    (options : request_options) : http_request :=
  let ts := pretty (Date_now E) in
  let timeout :=
    match timeout options with
    | Some t => t
    | None => requestTimeout O
    end in
  let url := request_url (ToString (of_nullable server)) path in
  let headers := Object_assign (headers options) (common_headers (data options) ts) in
  let requestData :=
    if encode options then encodingParams P (data options) else data options in
  {| req_url := url; req_method := method options;
     req_data := Some requestData; req_headers := headers;
     req_timeout := timeout |}.

(** The properties the [catch] block of [_request] sets on the error. *)
Definition tag (r : http_request) (options : request_options) (err : error) : error :=
  let err := set_url (method options +:+ " " +:+ req_url r) err in
  let err := set_data (PObject (data options)) err in
  set_headers (req_headers r) err.

(** The [catch] block of [_request]. *)
Definition on_failure (r : http_request) (options : request_options)
    (err : error) : M (option string) :=
  let err := tag r options err in
  _updateCurrentServer;;
  throw err.

(** [if (!this._currentServer) { yield this._updateCurrentServer(); }] *)
Definition select_server : M () :=
  let! server := gets _currentServer in
  if negb (truthy (of_nullable server)) then _updateCurrentServer else ret ().

Definition _request (path : string) (options : request_options) : M (option string) :=
  select_server;;
  let! server := gets _currentServer in
  let r := outbound server path options in
  try_catch
    (let! res := http E ByDiamondEnv r in
     let '(status, resData) := res in
     if status =? Constants.HTTP_OK then ret resData
     else if status =? Constants.HTTP_NOT_FOUND then ret None
     else if status =? Constants.HTTP_CONFLICT
     then throw (new_Error "DiamondServerConflictError")
     else throw (set_body resData (new_Error "DiamondServerResponseError")))
    (on_failure r options).

Definition namespace_value : jsval :=
  match namespace O with
  | Some s => JStr s
  | None => JUndefined
  end.

(** The options [getConfig] passes to [_request]. *)
Definition config_options (dataId group : string) : request_options :=
  {| encode := false; method := "GET";
     data := [("dataId", JStr dataId); ("group", JStr group);
              ("tenant", namespace_value)];
     timeout := None; headers := [] |}.

Definition getConfig (dataId group : string) : M (option string) :=
  let key := _getSnapshotKey dataId group in
  let! content :=
    try_catch
      (let! content := _request "/config.co" (config_options dataId group) in
       ret (inl content))
      (fun err =>
         let! cache := Snapshot.get E O key in
         if truthy (of_nullable cache)
         then _error err;; ret (inr cache)
         else throw err) in
  match content with
  | inr cache => ret cache
  | inl content =>
      Snapshot.save E O key content;;
      ret content
  end.

(** [gather(tasks, 5)]: every task runs to its end, a throw becomes an
    [isError] result. The tasks are run here one after the other, in
    the order of the list. *)
Fixpoint gather {A} (tasks : list (M A)) : M (list (outcome A)) :=
  match tasks with
  | [] => ret []
  | t :: tasks' =>
      fun w =>
        let '(r, w1) := t w in
        let '(rs, w2) := gather tasks' w1 in
        match rs with
        | Return rs => (Return (r :: rs), w2)
        | Throw e => (Throw e, w2)
        end
  end.

(** The body of the [for] loop of [_syncConfigs]. *)
Definition sync_result (i : info) (result : outcome (option string)) : M () :=
  let key := _formatKey i in
  let! item := gets (fun w => Map_get key (_subscriptions w)) in
  match item with
  | None => ret ()
  | Some item =>
      match result with
      | Throw _ =>
          _error (set_dataId_group (dataId item) (group item)
                    (new_Error "DiamondSyncConfigError"))
      | Return content =>
          let md5' := getMD5String P content in
          if bool_decide (md5 item ≠ md5')
          then
            modify (fun w =>
              with_subscriptions
                (Map_set key {| dataId := dataId item; group := group item;
                                md5 := md5'; content := content |}
                   (_subscriptions w)) w);;
            setImmediate (TEmit key content)
          else ret ()
      end
  end.

Fixpoint sync_results (infos : list info) (results : list (outcome (option string))) : M () :=
  match infos, results with
  | i :: infos', r :: results' => sync_result i r;; sync_results infos' results'
  | _, _ => ret ()
  end.

Definition _syncConfigs (infos : list info) : M () :=
  let tasks := map (fun i => getConfig (info_dataId i) (info_group i)) infos in
  let! results := gather tasks in
  sync_results infos results.

(** [subscribe]: the synchronous part. The result tells whether the
    row was created, in which case the caller task [initial_sync] is
    started. *)
Definition subscribe (i : info) (listener : nat) : M bool :=
  let key := _formatKey i in
  on key listener;;
  let! item := gets (fun w => Map_get key (_subscriptions w)) in
  match item with
  | None =>
      let item := {| dataId := info_dataId i; group := info_group i;
                     md5 := None; content := None |} in
      modify (fun w => with_subscriptions (Map_set key item (_subscriptions w)) w);;
      ret true
  | Some item =>
      match md5 item with
      | Some _ => nextTick (TListener key listener (content item));; ret false
      | None => ret false
      end
  end.

(** The task [subscribe] starts for a new row, up to the start of the
    long-polling loop. *)
Definition initial_sync (i : info) : M () :=
  try_catch (_syncConfigs [i]) (fun err => _error err).

Definition unSubscribe (i : info) (listener : option nat) : M () :=
  let key := _formatKey i in
  match listener with
  | Some l => removeListener key l
  | None => removeAllListeners key
  end;;
  let! remaining := gets (listeners_of key) in
  if (length remaining =? 0)%nat
  then modify (fun w => with_subscriptions (Map_delete key (_subscriptions w)) w)
  else ret ().

(** What one subscription adds to [probeUpdate]. *)
Definition probe_push (probeUpdate : list jsval) (s : Subscription) : list jsval :=
  let probeUpdate := probeUpdate ++ [JStr (dataId s); JStr Constants.WORD_SEPARATOR] in
  let probeUpdate := probeUpdate ++ [JStr (group s); JStr Constants.WORD_SEPARATOR] in
  if truthy namespace_value
  then
    let probeUpdate := probeUpdate ++ [of_nullable (md5 s); JStr Constants.WORD_SEPARATOR] in
    probeUpdate ++ [namespace_value; JStr Constants.LINE_SEPARATOR]
  else probeUpdate ++ [of_nullable (md5 s); JStr Constants.LINE_SEPARATOR].

(** The [for ... of this._subscriptions.values()] loop. *)
Definition probeUpdate (subs : list (string * Subscription)) : list jsval :=
  fold_left probe_push (Map_values subs) [].

Definition probe_options (subs : list (string * Subscription)) : request_options :=
  {| encode := false; method := "POST";
     data := [("Probe-Modify-Request", JStr (join (probeUpdate subs)))];
     timeout := Some 40000;
     headers := [("longPullingTimeout", "30000")] |}.

(** One line of a probe response. *)
Definition parse_line (dataIdAndGroup : string) : list info :=
  if truthy (JStr dataIdAndGroup)
  then
    match split Constants.WORD_SEPARATOR_CHAR dataIdAndGroup with
    | dataId :: group :: _ => [{| info_dataId := dataId; info_group := group |}]
    | _ => []
    end
  else [].

(** [None] where [decodeURIComponent] throws. *)
Definition _parseUpdateDataIdResponse (content : option string) : option (list info) :=
  match decodeURIComponent P (ToString (of_nullable content)) with
  | Some decoded =>
      Some (flat_map parse_line (split Constants.LINE_SEPARATOR_CHAR decoded))
  | None => None
  end.

(** [_checkServerConfigInfo] from the answer of the probe on. *)
Definition sync_updates (content : option string) : M () :=
  match _parseUpdateDataIdResponse content with
  | None => throw (new_Error "URIError")
  | Some updateList =>
      if negb (length updateList =? 0)%nat
      then _syncConfigs updateList
      else ret ()
  end.

Definition _checkServerConfigInfo : M () :=
  let! subs := gets _subscriptions in
  if (length subs =? 0)%nat then ret ()
  else
    let! content := _request "/config.co" (probe_options subs) in
    sync_updates content.

(** *** The other verbs of the file *)


Definition publishSingle (dataId group content : string) : M bool :=
  _request "/basestone.do?method=syncUpdateAll"
    {| encode := true; method := "POST";
       data := [("dataId", JStr dataId); ("group", JStr group);
                ("content", JStr content); ("tenant", namespace_value)];
       timeout := None; headers := [] |};;
  ret true.

Definition remove (dataId group : string) : M bool :=
  _request "/datum.do?method=deleteAllDatums"
    {| encode := false; method := "POST";
       data := [("dataId", JStr dataId); ("group", JStr group);
                ("tenant", namespace_value)];
       timeout := None; headers := [] |};;
  ret true.

(** [appName] is [this.options.appName]. *)
Definition publishAggr (appName : jsval) (dataId group datumId content : string) : M bool :=
  _request "/datum.do?method=addDatum"
    {| encode := false; method := "POST";
       data := [("dataId", JStr dataId); ("group", JStr group);
                ("datumId", JStr datumId); ("content", JStr content);
                ("appName", appName); ("tenant", namespace_value)];
       timeout := None; headers := [] |};;
  ret true.

Definition removeAggr (dataId group datumId : string) : M bool :=
  _request "/datum.do?method=deleteDatum"
    {| encode := false; method := "POST";
       data := [("dataId", JStr dataId); ("group", JStr group);
                ("datumId", JStr datumId); ("tenant", namespace_value)];
       timeout := None; headers := [] |};;
  ret true.

(** One turn of the loop of [_startLongPulling]; the sleep after a
    failure takes no part in the state. *)
Definition long_pulling_turn : M () :=
  try_catch _checkServerConfigInfo
    (fun err => _error (set_name "DiamondLongPullingError" err)).

(** The loop of [_startLongPulling], for at most [fuel] turns: the result
    tells whether the loop has ended. *)
Fixpoint long_pulling (fuel : nat) (isClose : bool) : M bool :=
  match fuel with
  | 0%nat => ret false
  | S fuel' =>
      let! size := gets (fun w => length (_subscriptions w)) in
      if negb isClose && (0 <? size)%nat
      then long_pulling_turn;; long_pulling fuel' isClose
      else ret true
  end.

(** [_startLongPulling]: the guard against a second loop, the loop, and
    the reset of the guard when the loop has ended. *)
Definition _startLongPulling (fuel : nat) (flags : Flags) : M Flags :=
  if _isLongPulling flags then ret flags
  else
    let! ended := long_pulling fuel (_isClose flags) in
    ret {| _isClose := _isClose flags; _isLongPulling := negb ended |}.

Section WithJson.
Context (J : Json).

Definition getAllConfigInfoByTenantInner (pageNo pageSize : Z) : M (page (item J)) :=
  let! ret_ :=
    _request "/basestone.do"
      {| encode := false; method := "GET";
         data := [("pageNo", JNum pageNo); ("pageSize", JNum pageSize);
                  ("method", JStr "getAllConfigInfoByTenant");
                  ("tenant", namespace_value)];
         timeout := None; headers := [] |} in
  match parse_page J ret_ with
  | Return p => ret p
  | Throw e => throw e
  end.

(** The [for] loop of [getAllConfigInfo], from page index [i] on, for at
    most [fuel] pages. *)
Fixpoint pages_from (fuel : nat) (i total : Z) (configs : list (item J)) : M (list (item J)) :=
  match fuel with
  | 0%nat => ret configs
  | S fuel' =>
      if i * 200 <? total
      then
        let! configInfo := getAllConfigInfoByTenantInner (i + 1) 200 in
        pages_from fuel' (i + 1) total (configs ++ pageItems configInfo)
      else ret configs
  end.

(** The loop takes less than [total] turns, so [total] is fuel enough. *)
Definition getAllConfigInfo : M (list (item J)) :=
  let! configInfoPage := getAllConfigInfoByTenantInner 1 1 in
  let total := totalCount configInfoPage in
  pages_from (Z.to_nat total) 0 total [].

(** [dataIds.join(Constants.WORD_SEPARATOR)] *)
Definition join_dataIds (dataIds : list string) : string :=
  String.concat Constants.WORD_SEPARATOR dataIds.

(** The entries [batchGetConfig] saves: [status === 1], under the
    snapshot key of their own [dataId] and [group]. *)
Definition savedData (data : list batch_item) : list (string * option string) :=
  map (fun d => (path_join [_getSnapshotKey (bi_dataId d) (bi_group d)], bi_content d))
      (filter (fun d => bi_status d = 1) data).

(** [err.data = content] is recorded when the content is a string. *)
Definition deserialize_error (content : option string) (err : error) : error :=
  let err := set_name "DiamondBatchDeserializeError" err in
  match content with
  | Some s => set_data (PText s) err
  | None => err
  end.

Definition batchGetConfig (dataIds : list string) (group : string) : M (list batch_item) :=
  let dataIdStr := join_dataIds dataIds in
  let! content :=
    _request "/config.co?method=batchGetConfig"
      {| encode := false; method := "POST";
         data := [("dataIds", JStr dataIdStr); ("group", JStr group);
                  ("tenant", namespace_value)];
         timeout := None; headers := [] |} in
  try_catch
    (match parse_batch J content with
     | Return data =>
         Snapshot.batchSave E O (savedData data);;
         ret data
     | Throw e => throw e
     end)
    (fun err => throw (deserialize_error content err)).

Definition batchQuery (dataIds : list string) (group : string) : M (answer J) :=
  let dataIdStr := join_dataIds dataIds in
  let! content :=
    _request "/admin.do?method=batchQuery"
      {| encode := false; method := "POST";
         data := [("dataIds", JStr dataIdStr); ("group", JStr group);
                  ("tenant", namespace_value)];
         timeout := None; headers := [] |} in
  match parse_answer J content with
  | Return a => ret a
  | Throw e => throw (deserialize_error content e)
  end.
End WithJson.
End WithEnv.
End DiamondEnv.

(** * Vocabulary of the properties *)

(** [frame f m]: running [m] leaves the observation [f] of the world as
    it was. *)
Definition frame {X A} (f : World -> X) (m : M A) : Prop :=
  forall w, f (m w).2 = f w.

(** The listener calls a queued callback makes when it runs, given the
    registered listeners. *)
Definition task_deliveries (L : gmap string (list nat)) (t : task) : list delivery :=
  match t with
  | TEmit key c => map (fun l => ByEmit key l c) (default [] (L !! key))
  | TEmitError _ => []
  | TListener key l c => [ByCall key l c]
  end.

(** The listener calls the next turn of the event loop will make. *)
Definition pending_deliveries (w : World) : list delivery :=
  flat_map (task_deliveries (listeners w)) (ticks w ++ immediates w).

(** A delivery made by [emit(key, ...)]. *)
Definition emitted_for (key : string) (d : delivery) : Prop :=
  match d with
  | ByEmit k _ _ => k = key
  | ByCall _ _ _ => False
  end.

(** [extends Q m]: running [m] only adds calls satisfying [Q] to the
    wire. *)
Definition extends {A} (Q : caller * http_request -> Prop) (m : M A) : Prop :=
  forall w, exists l, wire (m w).2 = wire w ++ l /\ Forall Q l.

(** The sign body in the words of the specification: tenant, a plus
    sign and group when both are present; group when only group is
    present; tenant otherwise. *)
Definition signBody (data : object jsval) : jsval :=
  let tenant := field "tenant" data in
  let group := field "group" data in
  if truthy tenant && truthy group
  then JStr (ToString tenant +:+ "+" +:+ ToString group)
  else if truthy group then group
  else tenant.

(** The request carries the time stamp [ts] and the signature of
    [data] under it. *)
Definition signed (P : Platform) (O : Options) (data : object jsval)
    (ts : string) (r : http_request) : Prop :=
  obj_get "timeStamp" (req_headers r) = Some ts /\
  obj_get "Spas-Signature" (req_headers r) =
    Some (hmac_sha1_base64 P (secretKey O) (ToString (signBody data) +:+ "+" +:+ ts)).

(** The tenant, when one is configured. *)
Definition configured_tenant (O : Options) : option string :=
  match namespace O with
  | Some t => if String.eqb t "" then None else Some t
  | None => None
  end.

(** The probe body in the words of the specification. For one
    subscription: dataId, WORD_SEP, group, WORD_SEP, then md5, WORD_SEP,
    tenant, LINE_SEP with a tenant and md5, LINE_SEP without. An [md5]
    still [null] stands for no characters. *)
Definition probe_row (tenant : option string) (s : Subscription) : string :=
  dataId s +:+ Constants.WORD_SEPARATOR +:+ group s +:+ Constants.WORD_SEPARATOR +:+
  match tenant with
  | Some t =>
      Snapshot.or_empty (md5 s) +:+ Constants.WORD_SEPARATOR +:+ t
        +:+ Constants.LINE_SEPARATOR
  | None => Snapshot.or_empty (md5 s) +:+ Constants.LINE_SEPARATOR
  end.

(** The rows of all subscriptions, in iteration order, one after the
    other. *)
Definition probe_body (tenant : option string) (subs : list Subscription) : string :=
  foldr (fun s rest => probe_row tenant s +:+ rest) "" subs.

(** [total m]: [m] never throws. *)
Definition total {A} (m : M A) : Prop :=
  forall w, exists a, (m w).1 = Return a.

(** The discovery fetch for a unit fails: a transport error, a status
    other than 200, or a body without any host. *)
Definition discovery_fails (P : Platform) (E : Env) (O : Options) (u : string) : Prop :=
  match httpclient E (ServerListManager.discovery_request O
                        (ServerListManager._getRequestUrl P O u)) with
  | HttpThrow _ => True
  | HttpRes status body =>
      status <> 200 \/ ServerListManager.parse_hosts (Snapshot.or_empty body) = []
  end.

(** The file of the server-list snapshot of the client's unit. *)
Definition server_list_file (O : Options) : string :=
  Snapshot._getSnapshotFile O (ServerListManager._formatKey (unit O)).

(** No condition on a call of the transport. *)
Definition any_call : caller * http_request -> Prop := fun _ => True.

(** The world once [_request] has put [r] on the wire. *)
Definition sent (r : http_request) (w : World) : World :=
  with_wire (wire w ++ [(ByDiamondEnv, r)]) w.

(** The key a delivery is about. *)
Definition delivery_key (d : delivery) : string :=
  match d with
  | ByEmit k _ _ | ByCall k _ _ => k
  end.

(** The direct listener calls waiting in the queues: the initial-value
    callbacks [subscribe] has deferred. *)
Definition pending_calls (w : World) : list delivery :=
  flat_map (fun t => match t with
                     | TListener k l c => [ByCall k l c]
                     | _ => []
                     end) (ticks w ++ immediates w).

(** A direct call of a listener for [key] that [subscribe] had deferred
    in [w]: the listener is the one of a call waiting in the queues, for
    the same key. Which content the call carries is left open. *)
Definition deferred_call (key : string) (w : World) (d : delivery) : Prop :=
  match d with
  | ByCall k l _ => k = key /\ exists c, ByCall key l c ∈ pending_calls w
  | ByEmit _ _ _ => False
  end.

(** [m] called [n] times, the results in order. *)
Fixpoint call_n {A} (n : nat) (m : M A) : M (list A) :=
  match n with
  | O => ret []
  | S n' => let! a := m in let! rest := call_n n' m in ret (a :: rest)
  end.

(** [c] occurs in [s]. *)
Fixpoint contains (c : ascii) (s : string) : bool :=
  match s with
  | EmptyString => false
  | String x s' => Ascii.eqb x c || contains c s'
  end.

(** The string begins, or ends, with a white space character. *)
Definition starts_with_space (s : string) : bool :=
  match s with
  | EmptyString => false
  | String c _ => is_space c
  end.

Definition ends_with_space (s : string) : bool :=
  starts_with_space (String.rev s).

(** A line as [parse_hosts] keeps it: not empty, no white space at either
    end, no line feed inside. *)
Definition clean_line (s : string) : Prop :=
  s <> "" /\ starts_with_space s = false /\ ends_with_space s = false /\
  contains "010" s = false.




(** The call the manager makes to discover the servers of a unit. *)
Definition discovery_call (P : Platform) (O : Options) (u : string) : caller * http_request :=
  (ByServerListManager,
   ServerListManager.discovery_request O (ServerListManager._getRequestUrl P O u)).


(** The snapshot file of a configuration. *)
Definition config_file (O : Options) (dataId group : string) : string :=
  Snapshot._getSnapshotFile O (DiamondEnv._getSnapshotKey O dataId group).


(** The four verbs that write to the server. *)
Definition write_verbs (P : Platform) (E : Env) (O : Options) (appName : jsval)
    (dataId group datumId content : string) : list (M bool) :=
  [ DiamondEnv.publishSingle P E O dataId group content;
    DiamondEnv.remove P E O dataId group;
    DiamondEnv.publishAggr P E O appName dataId group datumId content;
    DiamondEnv.removeAggr P E O dataId group datumId ].

(** A field without a separator of the probe protocol in it. *)
Definition plain (s : string) : Prop :=
  contains Constants.WORD_SEPARATOR_CHAR s = false /\
  contains Constants.LINE_SEPARATOR_CHAR s = false.

(** A line of a probe answer: [dataId], [group] and any further fields,
    separated by WORD_SEPARATOR and closed by LINE_SEPARATOR. *)
Definition update_row (r : info * list string) : string :=
  String.concat Constants.WORD_SEPARATOR (info_dataId r.1 :: info_group r.1 :: r.2)
    +:+ Constants.LINE_SEPARATOR.

Definition update_body (rows : list (info * list string)) : string :=
  foldr (fun r rest => update_row r +:+ rest) "" rows.

(** A path segment that [path.join] leaves as it is: a name that is not
    empty, holds no separator and is neither [.] nor [..]. *)
Definition plain_segment (s : string) : Prop :=
  s <> "" /\ contains "/" s = false /\ s <> "." /\ s <> "..".

(** A row of [_subscriptions] in order: it is stored under the key of
    its own [dataId] and [group], and its [md5] is the MD5 of its
    [content], or both are still [null]. *)
Definition row_ok (P : Platform) (O : Options) (kv : string * Subscription) : Prop :=
  kv.1 = DiamondEnv._formatKey O {| info_dataId := dataId kv.2; info_group := group kv.2 |} /\
  (md5 kv.2 = getMD5String P (content kv.2) \/ (md5 kv.2 = None /\ content kv.2 = None)).

(** The table of subscriptions in order: one row per key, every row in
    order. *)
Definition engine_ok (P : Platform) (O : Options) (w : World) : Prop :=
  NoDup (map fst (_subscriptions w)) /\ Forall (row_ok P O) (_subscriptions w).

(** [preserves Inv m]: running [m] in a world where [Inv] holds gives a
    world where it holds, whether [m] returns or throws. *)
Definition preserves {A} (Inv : World -> Prop) (m : M A) : Prop :=
  forall w, Inv w -> Inv (m w).2.

(** The request of [getAllConfigInfoByTenantInner] for a page, to the
    server [h]. *)
Definition page_request (P : Platform) (E : Env) (O : Options) (h : string)
    (pageNo pageSize : Z) : http_request :=
  DiamondEnv.outbound P E O (Some h) "/basestone.do"
    {| DiamondEnv.encode := false; DiamondEnv.method := "GET";
       DiamondEnv.data :=
         [("pageNo", JNum pageNo); ("pageSize", JNum pageSize);
          ("method", JStr "getAllConfigInfoByTenant");
          ("tenant", DiamondEnv.namespace_value O)];
       DiamondEnv.timeout := None; DiamondEnv.headers := [] |}.

(** The number of pages of 200 that hold [total] entries. *)
Definition page_count (total : Z) : nat := Z.to_nat ((total + 199) / 200).

(** The options of the request of [batchGetConfig]. *)
Definition batch_options (O : Options) (dataIds : list string) (group : string)
    : DiamondEnv.request_options :=
  {| DiamondEnv.encode := false; DiamondEnv.method := "POST";
     DiamondEnv.data :=
       [("dataIds", JStr (DiamondEnv.join_dataIds dataIds)); ("group", JStr group);
        ("tenant", DiamondEnv.namespace_value O)];
     DiamondEnv.timeout := None; DiamondEnv.headers := [] |}.


(** The probe and the fetch of a configuration, as sent to the server
    [h]. *)
Definition probe_request (P : Platform) (E : Env) (O : Options) (h : string)
    (subs : list (string * Subscription)) : http_request :=
  DiamondEnv.outbound P E O (Some h) "/config.co" (DiamondEnv.probe_options O subs).

Definition config_request (P : Platform) (E : Env) (O : Options) (h : string)
    (i : info) : http_request :=
  DiamondEnv.outbound P E O (Some h) "/config.co"
    (DiamondEnv.config_options O (info_dataId i) (info_group i)).

(** ** Stubs for the scenarios

    A platform, options and transports to run the program on. *)

Definition stubP : Platform :=
  {| VERSION := "1.0";
     CURRENT_UNIT := "CURRENT_UNIT";
     getMD5String := fun c => Some ("md5:" +:+ Snapshot.or_empty c);
     encodingParams := fun d => d;
     hmac_sha1_base64 := fun k m => k +:+ "#" +:+ m;
     JSON_stringify := fun l => "[" +:+ String.concat "," l +:+ "]";
     JSON_parse := fun s =>
       match s with
       | String "[" r => Some (split "," r)
       | _ => None
       end;
     decodeURIComponent := fun s => Some s |}.

Definition stubO : Options :=
  {| unit := "u1"; namespace := Some "ns"; ssl := true; accessKey := "ak";
     secretKey := "sk"; requestTimeout := 5000; cacheDir := "/c";
     nameServerAddr := "acm:8080" |}.

(** The discovery endpoint answers with [discovery]; every server
    answers with [config]. *)
Definition stubE (discovery config : http_result) : Env :=
  {| httpclient := fun r =>
       if String.prefix "http://acm:8080/" (req_url r) then discovery else config;
     fs_fault := fun _ => None;
     random := fun _ => 0%nat;
     Date_now := 1700000000000 |}.

Definition two_hosts : http_result :=
  HttpRes 200 (Some ("h1" +:+ String "010" "h2")).

Definition demo : info := {| info_dataId := "d"; info_group := "g" |}.

Definition demo_file : string := "/c/snapshot/config/u1/ns/g/d".
Definition list_file_u1 : string := "/c/snapshot/server_list/u1".

(** A manager whose pool for ["u1"] holds three hosts, the index at 1. *)
Definition pooled : World :=
  with_cache {[ "u1" := Some {| hosts := ["h1"; "h2"; "h3"]; index := 1%nat |} ]} (fresh ∅).

(** Two subscriptions, the first synchronised, the second not yet. *)
Definition two_subscriptions : World :=
  with_currentServer (Some "h1")
    (with_subscriptions
       [("a@g@u1", {| dataId := "a"; group := "g"; md5 := Some "m1"; content := Some "x" |});
        ("b@g@u1", {| dataId := "b"; group := "g"; md5 := None; content := None |})]
       (fresh ∅)).

(** The client after [subscribe(demo, listener 7)]. *)
Definition subscribed : World :=
  (DiamondEnv.subscribe stubO demo 7 (fresh ∅)).2.

(** A disk on which every operation fails, under the transport of
    [stubE]. *)
Definition brokenE (discovery config : http_result) : Env :=
  {| httpclient := httpclient (stubE discovery config);
     fs_fault := fun _ => Some (new_Error "EACCES");
     random := fun _ => 0%nat;
     Date_now := 1700000000000 |}.


(** A manager with a pool for ["u1"] and a [null] entry for ["u2"]. *)
Definition pooled2 : World :=
  with_cache (<["u2" := None]> (_serverListCache pooled)) pooled.

(** A JSON reader for the scenarios: the body ["p"] is a page of one
    item out of 201, the body ["b"] a batch of one found and one missing
    entry; anything else does not parse. *)
Definition stubJ : Json :=
  {| item := string;
     answer := string;
     parse_page := fun s =>
       match s with
       | Some "p" => Return {| totalCount := 201; pageItems := ["x"] |}
       | _ => Throw (new_Error "SyntaxError")
       end;
     parse_batch := fun s =>
       match s with
       | Some "b" =>
           Return [ {| bi_status := 1; bi_dataId := "d"; bi_group := "g";
                       bi_content := Some "v1" |};
                    {| bi_status := 2; bi_dataId := "e"; bi_group := "g";
                       bi_content := None |} ]
       | _ => Throw (new_Error "SyntaxError")
       end;
     parse_answer := fun s =>
       match s with
       | Some a => Return a
       | None => Throw (new_Error "SyntaxError")
       end |}.

(** * Properties *)

(** ** Footprints of generators *)

Section FrameRules.
Context {X : Type} (f : World -> X).

Lemma frame_ret {A} (a : A) : frame f (ret a).
Proof. by intros w. Qed.

Lemma frame_throw {A} (e : error) : frame f (@throw A e).
Proof. by intros w. Qed.

Lemma frame_gets {A} (g : World -> A) : frame f (gets g).
Proof. by intros w. Qed.

Lemma frame_modify (g : World -> World) :
  (forall w, f (g w) = f w) -> frame f (modify g).
Proof. intros H w. apply H. Qed.

Lemma frame_bind {A B} (m : M A) (k : A -> M B) :
  frame f m -> (forall a, frame f (k a)) -> frame f (bind m k).
Proof.
  intros Hm Hk w. unfold bind. specialize (Hm w).
  destruct (m w) as [[a|e] w1]; simpl in *; [|done].
  by rewrite Hk.
Qed.

Lemma frame_try_catch {A} (m : M A) (h : error -> M A) :
  frame f m -> (forall e, frame f (h e)) -> frame f (try_catch m h).
Proof.
  intros Hm Hh w. unfold try_catch. specialize (Hm w).
  destruct (m w) as [[a|e] w1]; simpl in *; [done|].
  by rewrite Hh.
Qed.
End FrameRules.

Ltac frame_step :=
  lazymatch goal with
  | |- frame _ (bind _ _) => apply frame_bind; [|intros ?]
  | |- frame _ (try_catch _ _) => apply frame_try_catch; [|intros ?]
  | |- frame _ (ret _) => apply frame_ret
  | |- frame _ (throw _) => apply frame_throw
  | |- frame _ (gets _) => apply frame_gets
  | |- frame _ (if ?b then _ else _) => destruct b
  | |- frame _ (match ?x with _ => _ end) => destruct x
  end.

Ltac frame_auto := repeat first [ solve [eauto] | frame_step ].

(** What the request layer leaves alone: any observation that ignores
    the manager's fields, the current server, the two error logs, the
    wire, and the one file of the server-list snapshot. *)
Section RequestFrame.
Context (P : Platform) (E : Env) (O : Options).
Context {X : Type} (f : World -> X).

Hypothesis f_snapshot_errors : forall l w, f (with_snapshot_errors l w) = f w.
Hypothesis f_cache : forall c w, f (with_cache c w) = f w.
Hypothesis f_mgr_errors : forall l w, f (with_mgr_errors l w) = f w.
Hypothesis f_currentServer : forall s w, f (with_currentServer s w) = f w.
Hypothesis f_wire : forall l w, f (with_wire l w) = f w.
Hypothesis f_write :
  forall v w, f (with_disk (<[server_list_file O := v]> (disk w)) w) = f w.
Hypothesis f_delete :
  forall w, f (with_disk (base.delete (server_list_file O) (disk w)) w) = f w.

Lemma frame_http who r : frame f (http E who r).
Proof. intros w. unfold http. destruct (httpclient E r); simpl; apply f_wire. Qed.

Lemma frame_readFile p : frame f (fs_readFile E p).
Proof. intros w. unfold fs_readFile. by repeat case_match. Qed.

Lemma frame_mkdirp d : frame f (mkdirp E d).
Proof. intros w. unfold mkdirp. by case_match. Qed.

Lemma frame_snapshot_emit e : frame f (Snapshot.emit_error e).
Proof. apply frame_modify. intros w. apply f_snapshot_errors. Qed.

Lemma frame_list_write v : frame f (fs_writeFile E (server_list_file O) v).
Proof. intros w. unfold fs_writeFile. case_match; [done|]. apply f_write. Qed.

Lemma frame_list_rimraf : frame f (rimraf E (server_list_file O)).
Proof. intros w. unfold rimraf. case_match; [done|]. apply f_delete. Qed.

Lemma frame_snapshot_get key : frame f (Snapshot.get E O key).
Proof.
  pose proof frame_readFile. pose proof frame_snapshot_emit.
  unfold Snapshot.get, fs_exists. frame_auto.
Qed.

Lemma frame_list_save v :
  frame f (Snapshot.save E O (ServerListManager._formatKey (unit O)) v).
Proof.
  pose proof frame_mkdirp. pose proof frame_snapshot_emit.
  pose proof frame_list_write.
  unfold Snapshot.save. frame_auto.
Qed.

Lemma frame_list_delete :
  frame f (Snapshot.delete E O (ServerListManager._formatKey (unit O))).
Proof.
  pose proof frame_list_rimraf. pose proof frame_snapshot_emit.
  unfold Snapshot.delete. frame_auto.
Qed.

Lemma frame_mgr_emit e : frame f (ServerListManager.emit_error e).
Proof. apply frame_modify. intros w. apply f_mgr_errors. Qed.

Lemma frame_cache_set u v : frame f (ServerListManager.cache_set u v).
Proof. apply frame_modify. intros w. apply f_cache. Qed.

Lemma frame_fetchServerList :
  frame f (ServerListManager._fetchServerList P E O (unit O)).
Proof.
  pose proof frame_http. pose proof frame_snapshot_get.
  pose proof frame_list_save. pose proof frame_list_delete.
  pose proof frame_mgr_emit. pose proof frame_cache_set.
  unfold ServerListManager._fetchServerList, ServerListManager.populate,
    ServerListManager.fetch_remote, ServerListManager.fetch_snapshot,
    ServerListManager._request.
  frame_auto.
Qed.

Lemma frame_getOne : frame f (ServerListManager.getOne P E O (unit O)).
Proof.
  pose proof frame_fetchServerList. pose proof frame_cache_set.
  unfold ServerListManager.getOne. frame_auto.
Qed.

Lemma frame_updateCurrentServer : frame f (DiamondEnv._updateCurrentServer P E O).
Proof.
  pose proof frame_getOne.
  unfold DiamondEnv._updateCurrentServer. frame_auto.
  apply frame_modify. intros w. apply f_currentServer.
Qed.

Lemma frame_request path options : frame f (DiamondEnv._request P E O path options).
Proof.
  pose proof frame_updateCurrentServer. pose proof frame_http.
  unfold DiamondEnv._request, DiamondEnv.select_server, DiamondEnv.on_failure.
  frame_auto.
Qed.
End RequestFrame.

(** What [getConfig] leaves alone: any observation that also ignores the
    disk and the error events waiting in the [setImmediate] queue. *)
Section ConfigFrame.
Context (P : Platform) (E : Env) (O : Options).
Context {X : Type} (f : World -> X).

Hypothesis f_disk : forall d w, f (with_disk d w) = f w.
Hypothesis f_snapshot_errors : forall l w, f (with_snapshot_errors l w) = f w.
Hypothesis f_cache : forall c w, f (with_cache c w) = f w.
Hypothesis f_mgr_errors : forall l w, f (with_mgr_errors l w) = f w.
Hypothesis f_currentServer : forall s w, f (with_currentServer s w) = f w.
Hypothesis f_wire : forall l w, f (with_wire l w) = f w.
Hypothesis f_error_task :
  forall e w, f (with_immediates (immediates w ++ [TEmitError e]) w) = f w.

Lemma frame_save key v : frame f (Snapshot.save E O key v).
Proof.
  assert (forall p v', frame f (fs_writeFile E p v')).
  { intros p v' w. unfold fs_writeFile. case_match; [done|]. apply f_disk. }
  pose proof (frame_mkdirp E f). pose proof (frame_snapshot_emit f f_snapshot_errors).
  unfold Snapshot.save. frame_auto.
Qed.

Lemma frame_error err : frame f (DiamondEnv._error err).
Proof. apply frame_modify. intros w. apply f_error_task. Qed.

Lemma frame_getConfig d g : frame f (DiamondEnv.getConfig P E O d g).
Proof.
  assert (forall path options, frame f (DiamondEnv._request P E O path options)).
  { intros. apply frame_request; auto. }
  assert (forall key, frame f (Snapshot.get E O key)).
  { intros. apply frame_snapshot_get; auto. }
  pose proof frame_save. pose proof frame_error.
  unfold DiamondEnv.getConfig. frame_auto.
Qed.
End ConfigFrame.

(** ** The event loop *)

Lemma run_task_listeners t w : listeners (run_task t w) = listeners w.
Proof. by destruct t. Qed.

Lemma run_task_delivered t w :
  delivered (run_task t w) = delivered w ++ task_deliveries (listeners w) t.
Proof.
  destruct t as [key c|e|key l c]; simpl.
  - unfold emit, listeners_of. simpl. by destruct (listeners w !! key).
  - unfold emit_error_event. simpl. by rewrite app_nil_r.
  - done.
Qed.

Lemma run_queue_delivered q w :
  let w' := fold_left (fun w t => run_task t w) q w in
  listeners w' = listeners w /\
  delivered w' = delivered w ++ flat_map (task_deliveries (listeners w)) q.
Proof.
  revert w. induction q as [|t q IH]; intros w; simpl.
  - by rewrite app_nil_r.
  - destruct (IH (run_task t w)) as [HL HD]. simpl in *.
    rewrite HL, HD, run_task_listeners, run_task_delivered.
    by rewrite <- app_assoc.
Qed.

Lemma run_queue_immediates q w :
  immediates (fold_left (fun w t => run_task t w) q w) = immediates w.
Proof.
  revert w. induction q as [|t q IH]; intros w; simpl; [done|].
  rewrite IH. by destruct t.
Qed.

Lemma run_event_loop_delivered w :
  delivered (run_event_loop w) = delivered w ++ pending_deliveries w.
Proof.
  unfold run_event_loop, pending_deliveries.
  pose proof (run_queue_delivered (ticks w) (with_ticks [] w)) as [HL1 HD1].
  set (w1 := fold_left _ (ticks w) _) in *.
  pose proof (run_queue_delivered (immediates w1) (with_immediates [] w1)) as [HL2 HD2].
  simpl in *. rewrite HD2, HD1, HL1.
  assert (immediates w1 = immediates w) as ->.
  { subst w1. by rewrite run_queue_immediates. }
  by rewrite flat_map_app, app_assoc.
Qed.

(** ** [Map] *)

Lemma Map_get_set {V} k (v : V) m : Map_get k (Map_set k v m) = Some v.
Proof.
  induction m as [|[k' v'] m IH]; simpl.
  - by rewrite String.eqb_refl.
  - destruct (String.eqb k k') eqn:Hk; simpl; by rewrite ?String.eqb_refl, ?Hk.
Qed.

Lemma Map_get_delete {V} k (m : list (string * V)) : Map_get k (Map_delete k m) = None.
Proof.
  unfold Map_delete. induction m as [|[k' v'] m IH]; [done|].
  rewrite filter_cons. simpl.
  destruct (String.eqb k k') eqn:Hk; simpl; [done|].
  by rewrite Hk.
Qed.

(** ** [_syncConfigs] *)

Section Sync.
Context (P : Platform) (O : Options).

Lemma sync_result_missing i r w :
  Map_get (DiamondEnv._formatKey O i) (_subscriptions w) = None ->
  DiamondEnv.sync_result P O i r w = (Return (), w).
Proof. intros H. unfold DiamondEnv.sync_result, bind, gets. by rewrite H. Qed.

Lemma sync_result_same i c item w :
  Map_get (DiamondEnv._formatKey O i) (_subscriptions w) = Some item ->
  md5 item = getMD5String P c ->
  DiamondEnv.sync_result P O i (Return c) w = (Return (), w).
Proof.
  intros H Hmd5. unfold DiamondEnv.sync_result, bind, gets. rewrite H.
  by rewrite bool_decide_eq_false_2 by (by intros ?).
Qed.

Lemma sync_result_changed i c item w :
  let key := DiamondEnv._formatKey O i in
  Map_get key (_subscriptions w) = Some item ->
  md5 item <> getMD5String P c ->
  DiamondEnv.sync_result P O i (Return c) w =
    (Return (),
     with_immediates (immediates w ++ [TEmit key c])
       (with_subscriptions
          (Map_set key {| dataId := dataId item; group := group item;
                          md5 := getMD5String P c; content := c |}
             (_subscriptions w)) w)).
Proof.
  intros key H Hmd5. unfold DiamondEnv.sync_result, bind, gets. fold key. rewrite H.
  by rewrite bool_decide_eq_true_2.
Qed.

Lemma syncConfigs_single E i r w w1 :
  DiamondEnv.getConfig P E O (info_dataId i) (info_group i) w = (r, w1) ->
  (DiamondEnv._syncConfigs P E O [i] w).2 = (DiamondEnv.sync_result P O i r w1).2.
Proof.
  intros H. unfold DiamondEnv._syncConfigs, bind. simpl. rewrite H. simpl.
  unfold bind. by destruct (DiamondEnv.sync_result P O i r w1) as [[[]|e] w2].
Qed.
End Sync.

Lemma pending_deliveries_error e w :
  pending_deliveries (with_immediates (immediates w ++ [TEmitError e]) w)
  = pending_deliveries w.
Proof.
  unfold pending_deliveries. simpl.
  by rewrite app_assoc, flat_map_app, app_nil_r.
Qed.

Lemma pending_deliveries_emit key c s w :
  pending_deliveries
    (with_immediates (immediates w ++ [TEmit key c]) (with_subscriptions s w))
  = pending_deliveries w ++ map (fun l => ByEmit key l c) (listeners_of key w).
Proof.
  unfold pending_deliveries, listeners_of. simpl.
  rewrite app_assoc, flat_map_app. simpl. rewrite app_nil_r.
  by destruct (listeners w !! key).
Qed.

(** The observations of the subscription engine that a fetch leaves
    alone. *)
Lemma getConfig_engine P E O d g w :
  let w' := (DiamondEnv.getConfig P E O d g w).2 in
  _subscriptions w' = _subscriptions w /\
  listeners w' = listeners w /\
  delivered w' = delivered w /\
  pending_deliveries w' = pending_deliveries w.
Proof.
  repeat split.
  - by apply (frame_getConfig P E O _subscriptions).
  - by apply (frame_getConfig P E O listeners).
  - by apply (frame_getConfig P E O delivered).
  - apply (frame_getConfig P E O pending_deliveries); try done.
    apply pending_deliveries_error.
Qed.

(** C1. [_syncConfigs] debounces on the MD5 of the content. In the loop
    over the results, a content whose MD5 equals the stored [md5] of its
    subscription changes nothing; a content whose MD5 differs is stored
    with its MD5 in the row and one [emit] of it is deferred. So for a
    poll of one subscription: with an equal MD5 the world is left as the
    fetch left it, the row unchanged and no listener call queued; with a
    different MD5 the row takes the new [md5] and [content] and every
    listener of the key is queued to be called once with the content,
    nothing being delivered before the event loop turns. Hence a second
    poll that fetches the same content queues nothing more: two
    successive polls of a new content call each listener exactly once. *)
Theorem syncConfigs_md5_debounce P E O i w :
  let key := DiamondEnv._formatKey O i in
  let fetch E w := DiamondEnv.getConfig P E O (info_dataId i) (info_group i) w in
  let poll E w := (DiamondEnv._syncConfigs P E O [i] w).2 in
  let updated item c :=
    {| dataId := dataId item; group := group item;
       md5 := getMD5String P c; content := c |} in
  (forall c item,
     Map_get key (_subscriptions w) = Some item ->
     (md5 item = getMD5String P c ->
        DiamondEnv.sync_result P O i (Return c) w = (Return (), w)) /\
     (md5 item <> getMD5String P c ->
        DiamondEnv.sync_result P O i (Return c) w =
          (Return (),
           with_immediates (immediates w ++ [TEmit key c])
             (with_subscriptions (Map_set key (updated item c) (_subscriptions w)) w)))) /\
  (forall c item,
     (fetch E w).1 = Return c ->
     Map_get key (_subscriptions w) = Some item ->
     (md5 item = getMD5String P c ->
        poll E w = (fetch E w).2 /\
        _subscriptions (poll E w) = _subscriptions w /\
        pending_deliveries (poll E w) = pending_deliveries w /\
        delivered (poll E w) = delivered w) /\
     (md5 item <> getMD5String P c ->
        Map_get key (_subscriptions (poll E w)) = Some (updated item c) /\
        pending_deliveries (poll E w) =
          pending_deliveries w ++ map (fun l => ByEmit key l c) (listeners_of key w) /\
        delivered (poll E w) = delivered w /\
        forall E',
          (fetch E' (poll E w)).1 = Return c ->
          pending_deliveries (poll E' (poll E w)) =
            pending_deliveries w ++ map (fun l => ByEmit key l c) (listeners_of key w) /\
          delivered (poll E' (poll E w)) = delivered w)).
Proof.
  intros key fetch poll updated. split.
  { intros c item Hitem. split; intros Hmd5.
    - by apply (sync_result_same P O i c item).
    - by apply (sync_result_changed P O i c item). }
  intros c item Hget Hitem.
  destruct (fetch E w) as [r w1] eqn:Hfetch. simpl in Hget. subst r.
  pose proof (getConfig_engine P E O (info_dataId i) (info_group i) w) as HF.
  fold (fetch E w) in HF. rewrite Hfetch in HF. simpl in HF.
  destruct HF as (Hs & Hl & Hd & Hp).
  assert (Hitem1 : Map_get key (_subscriptions w1) = Some item) by by rewrite Hs.
  unfold poll. rewrite (syncConfigs_single P O E i _ w w1 Hfetch).
  split; intros Hmd5.
  - rewrite (sync_result_same P O i c item w1 Hitem1 Hmd5). simpl. by rewrite Hs, Hp, Hd.
  - rewrite (sync_result_changed P O i c item w1 Hitem1 Hmd5). fold key. simpl.
    fold (updated item c). set (w2 := with_immediates _ _).
    assert (Hp2 : pending_deliveries w2 =
              pending_deliveries w ++ map (fun l => ByEmit key l c) (listeners_of key w)).
    { subst w2. rewrite pending_deliveries_emit, Hp. unfold listeners_of. by rewrite Hl. }
    split; [apply Map_get_set|]. split; [done|]. split; [done|].
    intros E' Hget'.
    destruct (fetch E' w2) as [r w3] eqn:Hfetch'. simpl in Hget'. subst r.
    pose proof (getConfig_engine P E' O (info_dataId i) (info_group i) w2) as HF.
    fold (fetch E' w2) in HF. rewrite Hfetch' in HF. simpl in HF.
    destruct HF as (Hs' & Hl' & Hd' & Hp').
    rewrite (syncConfigs_single P O E' i _ w2 w3 Hfetch').
    rewrite (sync_result_same P O i c (updated item c) w3).
    + simpl. by rewrite Hp', Hp2, Hd'.
    + rewrite Hs'. apply Map_get_set.
    + done.
Qed.

(** Scenarios B and C's debounce: a new subscription polls the content
    ["v1"] twice and its listener is called once. *)
Lemma syncConfigs_md5_debounce_witness :
  let E := stubE two_hosts (HttpRes 200 (Some "v1")) in
  let poll w := (DiamondEnv._syncConfigs stubP E stubO [demo] w).2 in
  pending_deliveries (poll (poll subscribed)) = [ByEmit "d@g@u1" 7 (Some "v1")] /\
  delivered (poll (poll subscribed)) = [].
Proof.
  intros E poll.
  pose (item := {| dataId := "d"; group := "g"; md5 := None; content := None |}).
  destruct (syncConfigs_md5_debounce stubP E stubO demo subscribed) as [_ Hpoll].
  destruct (Hpoll (Some "v1") item) as [_ Hnew]; [vm_compute; reflexivity | reflexivity |].
  destruct Hnew as (_ & _ & _ & Htwice); [discriminate|].
  apply (Htwice E). vm_compute; reflexivity.
Defined.

(** ** [getOne] *)

Section RoundRobin.
Context (P : Platform) (E : Env) (O : Options).

(** On a cached, non-empty pool [getOne] fetches nothing: it returns the
    host under [index] and moves [index] one place on, wrapping at the
    end. *)
Lemma getOne_cached u hs i w :
  _serverListCache w !! u = Some (Some {| hosts := hs; index := i |}) ->
  (i < length hs)%nat ->
  ServerListManager.getOne P E O u w =
    (Return (hs !! i),
     with_cache (<[u := Some {| hosts := hs; index := (i + 1) mod length hs |}]>
                   (_serverListCache w)) w).
Proof.
  intros Hc Hi. unfold ServerListManager.getOne, bind, gets. rewrite Hc. simpl.
  destruct (Nat.eqb_spec (length hs) 0) as [H0|_]; [lia|].
  unfold ServerListManager.cache_set, modify. simpl.
  destruct (Nat.leb_spec (length hs) (i + 1)) as [Hle|Hlt].
  - assert (i + 1 = length hs)%nat as -> by lia. by rewrite Nat.Div0.mod_same.
  - by rewrite Nat.mod_small.
Qed.

Lemma getOne_cycle u hs k : forall i w,
  _serverListCache w !! u = Some (Some {| hosts := hs; index := i |}) ->
  (i < length hs)%nat ->
  exists w',
    call_n k (ServerListManager.getOne P E O u) w =
      (Return (map (fun j => hs !! ((i + j) mod length hs)%nat) (seq 0 k)), w') /\
    _serverListCache w' !! u =
      Some (Some {| hosts := hs; index := (i + k) mod length hs |}).
Proof.
  induction k as [|k IH]; intros i w Hc Hi.
  - exists w. simpl. split; [done|].
    by rewrite Nat.add_0_r, Nat.mod_small.
  - simpl. unfold bind at 1. rewrite (getOne_cached u hs i w Hc Hi).
    set (w1 := with_cache _ w).
    destruct (IH ((i + 1) mod length hs)%nat w1) as (w' & Hrun & Hc').
    { subst w1. simpl. by rewrite lookup_insert_eq. }
    { apply Nat.mod_upper_bound. lia. }
    exists w'. unfold bind. rewrite Hrun. split.
    + unfold ret. f_equal. f_equal. f_equal.
      * by rewrite Nat.add_0_r, Nat.mod_small.
      * rewrite <- seq_shift, map_map. apply map_ext. intros j.
        f_equal. rewrite Nat.Div0.add_mod_idemp_l. f_equal. lia.
    + rewrite Hc'. do 3 f_equal. rewrite Nat.Div0.add_mod_idemp_l. f_equal. lia.
Qed.
End RoundRobin.

Lemma rotate_lookups {A} (hs : list A) i :
  (i < length hs)%nat ->
  map (fun j => hs !! ((i + j) mod length hs)%nat) (seq 0 (length hs))
  = map Some (rotate i hs).
Proof.
  intros Hi. apply list_eq. intros j.
  rewrite !list_lookup_fmap.
  destruct (decide (j < length hs)%nat) as [Hj|Hj].
  - rewrite lookup_seq_lt by done. simpl.
    rewrite lookup_rotate_r by done.
    assert (rotate_nat_add i j (length hs) = ((i + j) mod length hs)%nat) as ->.
    { unfold rotate_nat_add. rewrite Z2Nat.inj_mod by lia.
      rewrite Z2Nat.inj_add by lia. by rewrite !Nat2Z.id. }
    destruct (lookup_lt_is_Some_2 hs ((i + j) mod length hs)%nat) as [a Ha].
    { apply Nat.mod_upper_bound. lia. }
    by rewrite Ha.
  - rewrite lookup_seq_ge by lia. simpl.
    rewrite lookup_ge_None_2; [done|]. rewrite length_rotate. lia.
Qed.

(** C4. Round-robin fairness. For a unit whose cached pool holds [n >= 1]
    hosts and an index [i < n]: the [k]-th of successive calls of [getOne]
    returns the host at position [(i + k) mod n] and leaves the index at
    [(i + k + 1) mod n]; so [n] calls return the list rotated by [i], that
    is every host exactly once in cyclic order, and the index is back at
    [i]. *)
Theorem getOne_round_robin P E O u hs i w :
  _serverListCache w !! u = Some (Some {| hosts := hs; index := i |}) ->
  (1 <= length hs)%nat ->
  (i < length hs)%nat ->
  let n := length hs in
  (forall k, exists w',
      call_n k (ServerListManager.getOne P E O u) w =
        (Return (map (fun j => hs !! ((i + j) mod n)%nat) (seq 0 k)), w') /\
      _serverListCache w' !! u = Some (Some {| hosts := hs; index := (i + k) mod n |})) /\
  (exists w',
      call_n n (ServerListManager.getOne P E O u) w = (Return (map Some (rotate i hs)), w') /\
      _serverListCache w' !! u = Some (Some {| hosts := hs; index := i |})) /\
  rotate i hs ≡ₚ hs.
Proof.
  intros Hc Hn Hi n. split; [|split].
  - intros k. by apply getOne_cycle.
  - destruct (getOne_cycle P E O u hs n i w Hc Hi) as (w' & Hrun & Hc').
    exists w'. split.
    + rewrite Hrun. f_equal. f_equal. by apply rotate_lookups.
    + rewrite Hc'. do 3 f_equal. subst n.
      rewrite <- (Nat.mul_1_l (length hs)) at 1.
      rewrite Nat.Div0.mod_add. by apply Nat.mod_small.
  - unfold rotate. rewrite Permutation_app_comm. by rewrite take_drop.
Qed.

(** Scenario A on three hosts: starting at index 1, three calls return
    the second, the third and the first host. *)
Lemma getOne_round_robin_witness :
  let E := stubE two_hosts (HttpRes 200 None) in
  (call_n 3 (ServerListManager.getOne stubP E stubO "u1") pooled).1
  = Return [Some "h2"; Some "h3"; Some "h1"].
Proof.
  intros E.
  destruct (getOne_round_robin stubP E stubO "u1" ["h1"; "h2"; "h3"] 1 pooled)
    as (_ & (w' & Hrun & _) & _); [reflexivity | simpl; lia | simpl; lia |].
  exact (f_equal fst Hrun).
Defined.

(** ** [Snapshot] *)

Section SnapshotFacts.
Context (E : Env) (O : Options).

Lemma get_result key w :
  let file := Snapshot._getSnapshotFile O key in
  Snapshot.get E O key w =
    match disk w !! file with
    | None => (Return None, w)
    | Some s =>
        match fs_fault E (FsReadFile file) with
        | None => (Return (Some s), w)
        | Some e =>
            (Return None,
             with_snapshot_errors
               (snapshot_errors w ++ [set_name "SnapshotReadError" e]) w)
        end
    end.
Proof.
  intros file. unfold Snapshot.get, try_catch, bind, fs_exists, gets. fold file.
  unfold fs_readFile.
  destruct (disk w !! file) as [s|] eqn:Hd; simpl; [|done].
  rewrite Hd. by destruct (fs_fault E (FsReadFile file)).
Qed.

(** [get] never throws. *)
Lemma get_total key w : exists r, (Snapshot.get E O key w).1 = Return r.
Proof. rewrite get_result. repeat case_match; eauto. Qed.

Lemma get_disk key w : disk (Snapshot.get E O key w).2 = disk w.
Proof. rewrite get_result. by repeat case_match. Qed.

(** [save] never throws. *)
Lemma save_total key v w : (Snapshot.save E O key v w).1 = Return ().
Proof.
  unfold Snapshot.save, try_catch, bind, mkdirp, fs_writeFile.
  by repeat case_match; simplify_eq.
Qed.

(** With the disk in order, [save] writes [value || ''] to the file of
    the key. *)
Lemma save_ok key v w :
  let file := Snapshot._getSnapshotFile O key in
  fs_fault E (FsMkdirp (path_dirname file)) = None ->
  fs_fault E (FsWriteFile file) = None ->
  Snapshot.save E O key v w =
    (Return (), with_disk (<[file := Snapshot.or_empty v]> (disk w)) w).
Proof.
  intros file Hm Hw. unfold Snapshot.save, try_catch, bind, mkdirp, fs_writeFile.
  fold file. by rewrite Hm, Hw.
Qed.
End SnapshotFacts.

(** ** [_request] *)

Section RequestFacts.
Context (P : Platform) (E : Env) (O : Options).

(** [_updateCurrentServer] returns only with a usable host selected. *)
Lemma updateCurrentServer_ok w w0 :
  DiamondEnv._updateCurrentServer P E O w = (Return (), w0) ->
  exists h, _currentServer w0 = Some h /\ h <> "".
Proof.
  unfold DiamondEnv._updateCurrentServer, bind, modify.
  destruct (ServerListManager.getOne P E O (unit O) w) as [[server|e] w1]; [|done].
  destruct server as [h|]; simpl; [|done].
  destruct (String.eqb_spec h ""); simpl; [done|].
  intros [= <-]. eauto.
Qed.

Lemma select_server_ok w w0 :
  DiamondEnv.select_server P E O w = (Return (), w0) ->
  exists h, _currentServer w0 = Some h /\ h <> "".
Proof.
  unfold DiamondEnv.select_server, bind, gets.
  destruct (_currentServer w) as [h|] eqn:Hs; simpl.
  - destruct (String.eqb_spec h ""); simpl.
    + apply updateCurrentServer_ok.
    + intros [= <-]. eauto.
  - apply updateCurrentServer_ok.
Qed.

(** With a usable host selected nothing is fetched. *)
Lemma select_server_selected h w :
  _currentServer w = Some h -> h <> "" ->
  DiamondEnv.select_server P E O w = (Return (), w).
Proof.
  intros Hs Hh. unfold DiamondEnv.select_server, bind, gets. rewrite Hs. simpl.
  by destruct (String.eqb_spec h "").
Qed.

(** [_request] once the host is selected, by the answer of the
    transport. *)
Lemma request_result path options w w0 :
  DiamondEnv.select_server P E O w = (Return (), w0) ->
  let r := DiamondEnv.outbound P E O (_currentServer w0) path options in
  DiamondEnv._request P E O path options w =
    match httpclient E r with
    | HttpRes status body =>
        if status =? 200 then (Return body, sent r w0)
        else if status =? 404 then (Return None, sent r w0)
        else if status =? 409
        then DiamondEnv.on_failure P E O r options
               (new_Error "DiamondServerConflictError") (sent r w0)
        else DiamondEnv.on_failure P E O r options
               (set_body body (new_Error "DiamondServerResponseError")) (sent r w0)
    | HttpThrow e => DiamondEnv.on_failure P E O r options e (sent r w0)
    end.
Proof.
  intros Hsel r. unfold DiamondEnv._request, bind at 1. rewrite Hsel.
  unfold bind at 1, gets. fold r. unfold try_catch, bind, http. fold (sent r w0).
  destruct (httpclient E r) as [status body|e]; [|done].
  unfold Constants.HTTP_OK, Constants.HTTP_NOT_FOUND, Constants.HTTP_CONFLICT.
  destruct (status =? 200); [done|].
  destruct (status =? 404); [done|].
  by destruct (status =? 409).
Qed.

Lemma request_unavailable path options w e w0 :
  DiamondEnv.select_server P E O w = (Throw e, w0) ->
  DiamondEnv._request P E O path options w = (Throw e, w0).
Proof. intros Hsel. unfold DiamondEnv._request, bind. by rewrite Hsel. Qed.

(** The [catch] block never returns a value. *)
Lemma on_failure_throws r options err w :
  exists e, (DiamondEnv.on_failure P E O r options err w).1 = Throw e.
Proof.
  unfold DiamondEnv.on_failure, bind.
  destruct (DiamondEnv._updateCurrentServer P E O w) as [[[]|e] w1]; simpl; eauto.
Qed.
End RequestFacts.

(** ** [getConfig] *)

Section ConfigFacts.
Context (P : Platform) (E : Env) (O : Options).

Lemma getConfig_success d g w body :
  let req := DiamondEnv._request P E O "/config.co" (DiamondEnv.config_options O d g) w in
  req.1 = Return body ->
  DiamondEnv.getConfig P E O d g w =
    (Return body,
     (Snapshot.save E O (DiamondEnv._getSnapshotKey O d g) body req.2).2).
Proof.
  intros req Hreq. unfold DiamondEnv.getConfig, bind at 1, try_catch, bind at 1.
  fold req. destruct req as [r w1]. simpl in Hreq. subst r. simpl.
  unfold bind. pose proof (save_total E O (DiamondEnv._getSnapshotKey O d g) body w1) as Hs.
  destruct (Snapshot.save E O _ body w1) as [[[]|e] w2]; [done|]. by simpl in Hs.
Qed.

Lemma getConfig_failure d g w err :
  let key := DiamondEnv._getSnapshotKey O d g in
  let req := DiamondEnv._request P E O "/config.co" (DiamondEnv.config_options O d g) w in
  let read := Snapshot.get E O key req.2 in
  req.1 = Throw err ->
  DiamondEnv.getConfig P E O d g w =
    match read.1 with
    | Return cache =>
        if truthy (of_nullable cache)
        then (Return cache,
              with_immediates (immediates read.2 ++ [TEmitError err]) read.2)
        else (Throw err, read.2)
    | Throw e => (Throw e, read.2)
    end.
Proof.
  intros key req read Hreq. unfold DiamondEnv.getConfig, bind at 1, try_catch, bind at 1.
  fold req key. destruct req as [r w1]. simpl in *. subst r.
  unfold bind at 1. fold read. destruct read as [[cache|e] w2]; simpl; [|done].
  by destruct (truthy (of_nullable cache)).
Qed.

Lemma getConfig_returned d g w body :
  let req := DiamondEnv._request P E O "/config.co" (DiamondEnv.config_options O d g) w in
  req.1 = Return body ->
  (DiamondEnv.getConfig P E O d g w).1 = Return body /\
  immediates (DiamondEnv.getConfig P E O d g w).2 = immediates req.2.
Proof.
  intros req Hreq. rewrite (getConfig_success d g w body Hreq). simpl.
  split; [done|]. by apply (frame_save E O immediates).
Qed.

Lemma getConfig_saved d g w body :
  let file := Snapshot._getSnapshotFile O (DiamondEnv._getSnapshotKey O d g) in
  let req := DiamondEnv._request P E O "/config.co" (DiamondEnv.config_options O d g) w in
  req.1 = Return body ->
  fs_fault E (FsMkdirp (path_dirname file)) = None ->
  fs_fault E (FsWriteFile file) = None ->
  (DiamondEnv.getConfig P E O d g w).2 =
    with_disk (<[file := Snapshot.or_empty body]> (disk req.2)) req.2.
Proof.
  intros file req Hreq Hm Hw. rewrite (getConfig_success d g w body Hreq). simpl.
  by rewrite (save_ok E O _ body _ Hm Hw).
Qed.

End ConfigFacts.

(** C2. The read path of [getConfig]. When [_request] returns a body, the
    body is saved under the snapshot key ([null] as the empty string) and
    returned, and no event is queued. When [_request] throws and the
    snapshot file holds a non-empty value that can be read, the original
    error is queued as an [error] event and the snapshot value is
    returned. When [_request] throws and the snapshot gives no value
    (no file, an empty file, or a failed read), the error of [_request]
    is thrown. So [getConfig] throws only if both the request and the
    snapshot lookup fail, and what it throws is the error of the
    request. *)
Theorem getConfig_read_path P E O d g w :
  let key := DiamondEnv._getSnapshotKey O d g in
  let file := Snapshot._getSnapshotFile O key in
  let req := DiamondEnv._request P E O "/config.co" (DiamondEnv.config_options O d g) w in
  let w1 := req.2 in
  let out := DiamondEnv.getConfig P E O d g w in
  let no_value :=
    disk w1 !! file = None \/ disk w1 !! file = Some "" \/
    fs_fault E (FsReadFile file) <> None in
  (forall body, req.1 = Return body ->
     out.1 = Return body /\
     immediates out.2 = immediates w1 /\
     (fs_fault E (FsMkdirp (path_dirname file)) = None ->
      fs_fault E (FsWriteFile file) = None ->
      out.2 = with_disk (<[file := Snapshot.or_empty body]> (disk w1)) w1)) /\
  (forall err, req.1 = Throw err ->
     (forall c, disk w1 !! file = Some c -> c <> "" ->
        fs_fault E (FsReadFile file) = None ->
        out = (Return (Some c),
               with_immediates (immediates w1 ++ [TEmitError err]) w1)) /\
     (no_value -> out.1 = Throw err /\ immediates out.2 = immediates w1)) /\
  (forall e, out.1 = Throw e -> req.1 = Throw e /\ no_value).
Proof.
  intros key file req w1 out no_value.
  assert (Hfail : forall err, req.1 = Throw err ->
            (forall c, disk w1 !! file = Some c -> c <> "" ->
               fs_fault E (FsReadFile file) = None ->
               out = (Return (Some c),
                      with_immediates (immediates w1 ++ [TEmitError err]) w1)) /\
            (no_value -> out.1 = Throw err /\ immediates out.2 = immediates w1) /\
            (forall e, out.1 = Throw e -> e = err /\ no_value)).
  { intros err Hreq. unfold out.
    rewrite (getConfig_failure P E O d g w err Hreq).
    fold key req w1. rewrite get_result. fold file. unfold no_value.
    destruct (disk w1 !! file) as [c|] eqn:Hd.
    - destruct (fs_fault E (FsReadFile file)) as [e0|] eqn:Hf; simpl.
      + split; [done|]. split; [done|]. intros e [= <-]. split; [done|]. by right; right.
      + destruct (String.eqb_spec c "") as [->|Hc]; simpl.
        * split; [by intros c' [= <-] |]. split; [done|].
          intros e [= <-]. split; [done|]. by right; left.
        * split; [by intros c' [= <-] _ _|]. split; [|done].
          intros [?|[[= ?]|?]]; done.
    - simpl. split; [done|]. split; [done|]. intros e [= <-]. split; [done|]. by left. }
  split; [|split].
  - intros body Hreq. unfold out.
    rewrite (getConfig_success P E O d g w body Hreq). fold key req w1. simpl.
    split; [done|]. split.
    + by apply (frame_save E O immediates).
    + intros Hm Hw. by rewrite (save_ok E O key body w1 Hm Hw).
  - intros err Hreq. destruct (Hfail err Hreq) as (H1 & H2 & _). by split.
  - intros e Hout. destruct req.1 as [body|err] eqn:Hreq.
    + unfold out in Hout.
      by rewrite (getConfig_success P E O d g w body Hreq) in Hout.
    + destruct (Hfail err eq_refl) as (_ & _ & H3).
      destruct (H3 e Hout) as [-> ?]. by split.
Qed.

(** Scenario D, and the plain read: with the servers down and ["v_old"]
    in the snapshot, [getConfig] returns ["v_old"] and queues the
    transport's error; with the servers up, the body is returned and
    saved. *)
Lemma getConfig_read_path_witness :
  let down := stubE two_hosts (HttpThrow (new_Error "ConnectionTimeoutError")) in
  let up := stubE two_hosts (HttpRes 200 (Some "v1")) in
  let w := fresh {[ demo_file := "v_old" ]} in
  let out E := DiamondEnv.getConfig stubP E stubO "d" "g" w in
  ((out down).1 = Return (Some "v_old") /\
   map (fun t => match t with TEmitError e => err_name e | _ => "" end)
     (immediates (out down).2) = ["ConnectionTimeoutError"]) /\
  ((out up).1 = Return (Some "v1") /\ disk (out up).2 !! demo_file = Some "v1").
Proof.
  intros down up w out. split.
  - destruct (getConfig_read_path stubP down stubO "d" "g" w) as (_ & Hfail & _).
    set (req := DiamondEnv._request stubP down stubO "/config.co"
                  (DiamondEnv.config_options stubO "d" "g") w) in *.
    pose (err := match req.1 with Throw e => e | Return _ => new_Error "" end).
    destruct (Hfail err) as [Hsnap _]; [vm_compute; reflexivity|].
    unfold out. rewrite (Hsnap "v_old"); [ | vm_compute; reflexivity | discriminate | reflexivity ].
    split; [reflexivity | vm_compute; reflexivity].
  - destruct (getConfig_read_path stubP up stubO "d" "g" w) as (Hok & _ & _).
    destruct (Hok (Some "v1")) as (Hret & _ & Hdisk); [vm_compute; reflexivity|].
    split; [exact Hret|].
    unfold out. rewrite Hdisk; [vm_compute; reflexivity | reflexivity | reflexivity].
Defined.

(** ** Paths of the snapshot files *)

Lemma append_cancel (a b c : string) : a +:+ b = a +:+ c -> b = c.
Proof. induction a as [|x a IH]; simpl; [done|]. intros [= H]. by apply IH. Qed.


Lemma path_join_snapshot dir k :
  k <> "" ->
  exists pre, forall k', k' <> "" -> path_join [dir; "snapshot"; k'] = pre +:+ k'.
Proof.
  intros _. destruct (decide (dir = "")) as [->|Hd].
  - exists "snapshot/". intros k' Hk'. unfold path_join.
    rewrite !filter_cons, filter_nil. simpl.
    destruct (decide (k' <> "")) as [_|H]; [|done].
    simpl. by destruct k'.
  - exists (dir +:+ "/snapshot/"). intros k' Hk'. unfold path_join.
    rewrite !filter_cons, filter_nil. simpl.
    destruct (decide (dir <> "")) as [_|H]; [|done].
    destruct (decide (k' <> "")) as [_|H]; [|done].
    simpl. destruct k' as [|a k']; [done|].
    clear. induction dir as [|x dir IH]; [done|].
    change (String x (dir +:+ "/" +:+ "snapshot" +:+ "/" +:+ String a k')
            = String x ((dir +:+ "/snapshot/") +:+ String a k')).
    by rewrite IH.
Qed.


(** ** HTTP 404 *)

(** C3, as stated, fails: on a 404 [getConfig] returns [null] but does
    write to the snapshot. Here the key held ["v_old"] before the call and
    holds the empty string after it. *)
Lemma getConfig_404_overwrites_snapshot :
  let E := stubE two_hosts (HttpRes 404 None) in
  let w := fresh {[ demo_file := "v_old" ]} in
  let out := DiamondEnv.getConfig stubP E stubO "d" "g" w in
  Snapshot._getSnapshotFile stubO (DiamondEnv._getSnapshotKey stubO "d" "g") = demo_file /\
  out.1 = Return None /\
  disk w !! demo_file = Some "v_old" /\
  disk out.2 !! demo_file = Some "" /\
  disk out.2 !! demo_file <> disk w !! demo_file.
Proof.
  intros E w out.
  assert (H1 : disk w !! demo_file = Some "v_old") by (vm_compute; reflexivity).
  assert (H2 : disk out.2 !! demo_file = Some "") by (vm_compute; reflexivity).
  split; [reflexivity|]. split; [vm_compute; reflexivity|].
  split; [exact H1|]. split; [exact H2|].
  rewrite H1, H2. discriminate.
Qed.

(** C3, amended. When the signed request of [getConfig] is answered with
    status 404, [getConfig] returns [null] without throwing and queues no
    error event, and it saves the empty string under the snapshot key:
    with the disk in order, the file of the key holds the empty string
    afterwards, whatever it held before. *)
Theorem getConfig_404 P E O d g w w0 body :
  let key := DiamondEnv._getSnapshotKey O d g in
  let file := Snapshot._getSnapshotFile O key in
  let r := DiamondEnv.outbound P E O (_currentServer w0) "/config.co"
             (DiamondEnv.config_options O d g) in
  let out := DiamondEnv.getConfig P E O d g w in
  DiamondEnv.select_server P E O w = (Return (), w0) ->
  httpclient E r = HttpRes 404 body ->
  out.1 = Return None /\
  immediates out.2 = immediates w0 /\
  out.2 = (Snapshot.save E O key None (sent r w0)).2 /\
  (fs_fault E (FsMkdirp (path_dirname file)) = None ->
   fs_fault E (FsWriteFile file) = None ->
   out.2 = with_disk (<[file := ""]> (disk w0)) (sent r w0) /\
   disk out.2 !! file = Some "").
Proof.
  intros key file r out Hsel Hres.
  pose proof (request_result P E O "/config.co" (DiamondEnv.config_options O d g) w w0 Hsel)
    as Hreq.
  simpl in Hreq. fold r in Hreq. rewrite Hres in Hreq. simpl in Hreq.
  assert (Hreq1 : (DiamondEnv._request P E O "/config.co"
                     (DiamondEnv.config_options O d g) w).1 = Return None)
    by by rewrite Hreq.
  destruct (getConfig_returned P E O d g w None Hreq1) as [Hret Himm].
  rewrite Hreq in Himm. simpl in Himm.
  split; [done|]. split; [done|]. split.
  - unfold out. rewrite (getConfig_success P E O d g w None Hreq1). by rewrite Hreq.
  - intros Hm Hw. unfold out.
    rewrite (getConfig_saved P E O d g w None Hreq1 Hm Hw). rewrite Hreq. simpl.
    split; [done|]. by rewrite lookup_insert_eq.
Qed.

(** Scenario E on the modelled code: a 404 for a key never stored leaves
    an empty file behind. *)
Lemma getConfig_404_witness :
  let E := stubE two_hosts (HttpRes 404 None) in
  let out := DiamondEnv.getConfig stubP E stubO "d" "g" (fresh ∅) in
  out.1 = Return None /\ immediates out.2 = [] /\ disk out.2 !! demo_file = Some "".
Proof.
  intros E out.
  pose (w0 := (DiamondEnv.select_server stubP E stubO (fresh ∅)).2).
  destruct (getConfig_404 stubP E stubO "d" "g" (fresh ∅) w0 None)
    as (Hret & Himm & _ & Hdisk); [vm_compute; reflexivity | reflexivity |].
  destruct Hdisk as [_ Hfile]; [reflexivity | reflexivity |].
  split; [exact Hret|]. split; [exact Himm | exact Hfile].
Defined.

(** ** The empty snapshot *)

Section EmptySnapshot.
Context (P : Platform) (E : Env) (O : Options).


End EmptySnapshot.



(** ** The wire *)

Section ExtendsRules.
Context (Q : caller * http_request -> Prop).

Lemma extends_frame {A} (m : M A) : frame wire m -> extends Q m.
Proof. intros H w. exists []. by rewrite H, app_nil_r. Qed.

Lemma extends_ret {A} (a : A) : extends Q (ret a).
Proof. by apply extends_frame. Qed.

Lemma extends_throw {A} (e : error) : extends Q (@throw A e).
Proof. by apply extends_frame. Qed.

Lemma extends_gets {A} (g : World -> A) : extends Q (gets g).
Proof. by apply extends_frame. Qed.

Lemma extends_modify (g : World -> World) :
  (forall w, wire (g w) = wire w) -> extends Q (modify g).
Proof. intros H. by apply extends_frame, frame_modify. Qed.

Lemma extends_bind {A B} (m : M A) (k : A -> M B) :
  extends Q m -> (forall a, extends Q (k a)) -> extends Q (bind m k).
Proof.
  intros Hm Hk w. unfold bind. destruct (Hm w) as (l1 & H1 & HQ1).
  destruct (m w) as [[a|e] w1]; simpl in *; [|by eauto].
  destruct (Hk a w1) as (l2 & H2 & HQ2). exists (l1 ++ l2).
  rewrite H2, H1, app_assoc. split; [done|]. by apply Forall_app.
Qed.

Lemma extends_try_catch {A} (m : M A) (h : error -> M A) :
  extends Q m -> (forall e, extends Q (h e)) -> extends Q (try_catch m h).
Proof.
  intros Hm Hh w. unfold try_catch. destruct (Hm w) as (l1 & H1 & HQ1).
  destruct (m w) as [[a|e] w1]; simpl in *; [by eauto|].
  destruct (Hh e w1) as (l2 & H2 & HQ2). exists (l1 ++ l2).
  rewrite H2, H1, app_assoc. split; [done|]. by apply Forall_app.
Qed.

Lemma extends_http E who r : Q (who, r) -> extends Q (http E who r).
Proof.
  intros HQ w. exists [(who, r)]. unfold http.
  destruct (httpclient E r); simpl; by repeat constructor.
Qed.
End ExtendsRules.

Ltac extends_step :=
  lazymatch goal with
  | |- extends _ (bind _ _) => apply extends_bind; [|intros ?]
  | |- extends _ (try_catch _ _) => apply extends_try_catch; [|intros ?]
  | |- extends _ (ret _) => apply extends_ret
  | |- extends _ (throw _) => apply extends_throw
  | |- extends _ (gets _) => apply extends_gets
  | |- extends _ (if ?b then _ else _) => destruct b
  | |- extends _ (match ?x with _ => _ end) => destruct x
  end.

Ltac extends_auto := repeat first [ solve [eauto] | extends_step ].

Section Wire.
Context (P : Platform) (E : Env) (O : Options).

Lemma snapshot_get_wire key : frame wire (Snapshot.get E O key).
Proof. intros w. rewrite get_result. by repeat case_match. Qed.

Lemma snapshot_save_wire key v : frame wire (Snapshot.save E O key v).
Proof. by apply frame_save. Qed.

Lemma snapshot_delete_wire key : frame wire (Snapshot.delete E O key).
Proof.
  intros w. unfold Snapshot.delete, try_catch, rimraf, Snapshot.emit_error, modify.
  by repeat case_match; simplify_eq.
Qed.

(** The manager only makes calls of its own. *)
Lemma getOne_wire Q u :
  (forall r, Q (ByServerListManager, r)) ->
  extends Q (ServerListManager.getOne P E O u).
Proof.
  intros HQ.
  assert (forall r, extends Q (http E ByServerListManager r))
    by (intros; by apply extends_http).
  assert (forall key, extends Q (Snapshot.get E O key))
    by (intros; apply extends_frame, snapshot_get_wire).
  assert (forall key v, extends Q (Snapshot.save E O key v))
    by (intros; apply extends_frame, snapshot_save_wire).
  assert (forall key, extends Q (Snapshot.delete E O key))
    by (intros; apply extends_frame, snapshot_delete_wire).
  assert (forall e, extends Q (ServerListManager.emit_error e))
    by (intros; by apply extends_modify).
  assert (forall k v, extends Q (ServerListManager.cache_set k v))
    by (intros; by apply extends_modify).
  unfold ServerListManager.getOne, ServerListManager._fetchServerList,
    ServerListManager.populate, ServerListManager.fetch_remote,
    ServerListManager.fetch_snapshot, ServerListManager._request.
  extends_auto.
Qed.

Lemma updateCurrentServer_wire Q :
  (forall r, Q (ByServerListManager, r)) ->
  extends Q (DiamondEnv._updateCurrentServer P E O).
Proof.
  intros HQ. pose proof (getOne_wire Q (unit O) HQ).
  unfold DiamondEnv._updateCurrentServer. extends_auto.
  by apply extends_modify.
Qed.

(** Every call [_request] makes for itself is an [outbound] request. *)
Lemma request_wire Q path options :
  (forall r, Q (ByServerListManager, r)) ->
  (forall server, Q (ByDiamondEnv, DiamondEnv.outbound P E O server path options)) ->
  extends Q (DiamondEnv._request P E O path options).
Proof.
  intros HQ1 HQ2. pose proof (updateCurrentServer_wire Q HQ1).
  assert (forall server, extends Q (http E ByDiamondEnv
            (DiamondEnv.outbound P E O server path options)))
    by (intros; by apply extends_http).
  unfold DiamondEnv._request, DiamondEnv.select_server, DiamondEnv.on_failure.
  extends_auto.
Qed.

(** Once a host is selected, the request goes out to it. *)
Lemma request_sends path options w w0 :
  DiamondEnv.select_server P E O w = (Return (), w0) ->
  exists l, wire (DiamondEnv._request P E O path options w).2 =
    wire w0 ++ (ByDiamondEnv, DiamondEnv.outbound P E O (_currentServer w0) path options) :: l.
Proof.
  intros Hsel. set (r := DiamondEnv.outbound _ _ _ _ _ _).
  assert (Hfail : forall err, exists l,
            wire (DiamondEnv.on_failure P E O r options err (sent r w0)).2
            = wire w0 ++ (ByDiamondEnv, r) :: l).
  { intros err. unfold DiamondEnv.on_failure.
    destruct (extends_bind (fun _ => True) (DiamondEnv._updateCurrentServer P E O)
                (fun _ => @throw (option string) (DiamondEnv.tag r options err)))
      with (w := sent r w0) as (l & Hl & _).
    - by apply updateCurrentServer_wire.
    - intros _. apply extends_throw.
    - exists l. rewrite Hl. simpl. by rewrite <- app_assoc. }
  rewrite (request_result P E O path options w w0 Hsel). fold r.
  destruct (httpclient E r) as [status body|e]; [|apply Hfail].
  destruct (status =? 200); [by exists []|].
  destruct (status =? 404); [by exists []|].
  destruct (status =? 409); apply Hfail.
Qed.
End Wire.

(** ** The signature *)

Lemma obj_get_set {V} k k' (v : V) o :
  obj_get k (obj_set k' v o) = if String.eqb k k' then Some v else obj_get k o.
Proof.
  induction o as [|[k0 v0] o IH]; simpl; [done|].
  destruct (String.eqb k' k0) eqn:H0; simpl.
  - apply String.eqb_eq in H0 as ->. by destruct (String.eqb k k0).
  - rewrite IH. destruct (String.eqb k k0) eqn:H1; [|done].
    apply String.eqb_eq in H1 as ->.
    rewrite String.eqb_sym in H0. by rewrite H0.
Qed.

Lemma string_app_assoc (a b c : string) : (a +:+ b) +:+ c = a +:+ b +:+ c.
Proof.
  induction a as [|x a IH]; [done|].
  change (String x ((a +:+ b) +:+ c) = String x (a +:+ b +:+ c)). by rewrite IH.
Qed.

(** [signStr] computes the sign body of the specification. *)
Lemma signStr_signBody data : DiamondEnv.signStr data = signBody data.
Proof.
  unfold DiamondEnv.signStr, signBody, js_concat.
  destruct (truthy (field "group" data)), (truthy (field "tenant" data)); simpl; try done.
  by rewrite string_app_assoc.
Qed.

Lemma outbound_signed P E O server path options :
  signed P O (DiamondEnv.data options) (pretty (Date_now E))
    (DiamondEnv.outbound P E O server path options).
Proof.
  unfold signed, DiamondEnv.outbound, DiamondEnv.common_headers, Object_assign.
  simpl. rewrite !obj_get_set. simpl. split; [done|].
  unfold DiamondEnv.signature, js_concat. simpl.
  by rewrite signStr_signBody, string_app_assoc.
Qed.

(** C5. Every request [_request] puts on the wire for itself carries, as
    [timeStamp], the clock reading [ts] and, as [Spas-Signature], the
    base64 HMAC-SHA1 under the secret key of [signBody + "+" + ts], where
    [signBody] is [tenant + "+" + group] when both are present in the
    request data, [group] when only the group is, and [tenant] otherwise.
    Once a host is selected such a request is indeed sent. *)
Theorem request_signature P E O path options w :
  let ts := pretty (Date_now E) in
  let data := DiamondEnv.data options in
  let tenant := field "tenant" data in
  let group := field "group" data in
  let w' := (DiamondEnv._request P E O path options w).2 in
  (exists l, wire w' = wire w ++ l /\
     forall r, (ByDiamondEnv, r) ∈ l ->
       obj_get "timeStamp" (req_headers r) = Some ts /\
       obj_get "Spas-Signature" (req_headers r) =
         Some (hmac_sha1_base64 P (secretKey O)
                 (ToString (DiamondEnv.signStr data) +:+ "+" +:+ ts))) /\
  (truthy tenant = true -> truthy group = true ->
     DiamondEnv.signStr data = JStr (ToString tenant +:+ "+" +:+ ToString group)) /\
  (truthy tenant = false -> truthy group = true -> DiamondEnv.signStr data = group) /\
  (truthy group = false -> DiamondEnv.signStr data = tenant) /\
  (forall w0, DiamondEnv.select_server P E O w = (Return (), w0) ->
     exists l, wire w' =
       wire w0 ++ (ByDiamondEnv, DiamondEnv.outbound P E O (_currentServer w0) path options) :: l).
Proof.
  intros ts data tenant group w'. split; [|split; [|split; [|split]]].
  - destruct (request_wire P E O
                (fun x => x.1 = ByDiamondEnv -> signed P O data ts x.2) path options)
      with (w := w) as (l & Hl & HQ).
    + by intros r.
    + intros server _. apply outbound_signed.
    + exists l. split; [done|]. intros r Hr.
      rewrite Forall_forall in HQ. rewrite signStr_signBody. by apply (HQ _ Hr).
  - intros Ht Hg. rewrite signStr_signBody. unfold signBody. fold data tenant group.
    by rewrite Ht, Hg.
  - intros Ht Hg. rewrite signStr_signBody. unfold signBody. fold data tenant group.
    by rewrite Ht, Hg.
  - intros Hg. rewrite signStr_signBody. unfold signBody. fold data tenant group.
    by rewrite Hg, andb_false_r.
  - intros w0 Hsel. by apply request_sends.
Qed.

(** The request of [getConfig("d", "g")] under tenant ["ns"]: the stub
    HMAC shows the signed text, tenant, group and time stamp joined by
    plus signs. *)
Lemma request_signature_witness :
  let E := stubE two_hosts (HttpRes 200 (Some "v1")) in
  let options := DiamondEnv.config_options stubO "d" "g" in
  let w' := (DiamondEnv._request stubP E stubO "/config.co" options (fresh ∅)).2 in
  exists r, (ByDiamondEnv, r) ∈ wire w' /\
    req_url r = "https://h1:443/diamond-server/config.co" /\
    obj_get "Spas-Signature" (req_headers r) = Some "sk#ns+g+1700000000000".
Proof.
  intros E options w'.
  destruct (request_signature stubP E stubO "/config.co" options (fresh ∅))
    as (Hall & Hboth & _ & _ & Hsent).
  pose (w0 := (DiamondEnv.select_server stubP E stubO (fresh ∅)).2).
  destruct (Hsent w0) as [l Hl]; [vm_compute; reflexivity|].
  destruct Hall as (l' & Hl' & Hsigned).
  set (r := DiamondEnv.outbound stubP E stubO (_currentServer w0) "/config.co" options) in *.
  assert (Hin : (ByDiamondEnv, r) ∈ wire w').
  { fold w' in Hl. rewrite Hl. apply elem_of_app. right. apply list_elem_of_here. }
  exists r. split; [exact Hin|]. split; [vm_compute; reflexivity|].
  fold w' in Hl'. simpl in Hl'. rewrite Hl' in Hin.
  destruct (Hsigned r Hin) as [_ Hsig]. rewrite Hsig.
  rewrite Hboth; [vm_compute; reflexivity | reflexivity | reflexivity].
Defined.

(** ** The probe request *)

Section WireGrows.
Context (P : Platform) (E : Env) (O : Options).

Lemma getConfig_wire d g : extends any_call (DiamondEnv.getConfig P E O d g).
Proof.
  assert (forall path options, extends any_call (DiamondEnv._request P E O path options))
    by (intros; by apply request_wire).
  assert (forall key, extends any_call (Snapshot.get E O key))
    by (intros; apply extends_frame, snapshot_get_wire).
  assert (forall key v, extends any_call (Snapshot.save E O key v))
    by (intros; apply extends_frame, snapshot_save_wire).
  assert (forall e, extends any_call (DiamondEnv._error e))
    by (intros; by apply extends_modify).
  unfold DiamondEnv.getConfig. extends_auto.
Qed.

Lemma gather_wire {A} (tasks : list (M A)) :
  Forall (extends any_call) tasks -> extends any_call (DiamondEnv.gather tasks).
Proof.
  induction 1 as [|t tasks Ht _ IH]; [apply extends_ret|].
  intros w. simpl. destruct (Ht w) as (l1 & H1 & _).
  destruct (t w) as [r w1]. simpl in H1.
  destruct (IH w1) as (l2 & H2 & _).
  destruct (DiamondEnv.gather tasks w1) as [[rs|e] w2]; simpl in *;
    exists (l1 ++ l2); (split; [by rewrite H2, H1, app_assoc | by apply Forall_true]).
Qed.

Lemma sync_results_wire infos results :
  frame wire (DiamondEnv.sync_results P O infos results).
Proof.
  revert results. induction infos as [|i infos IH]; intros [|r results]; simpl;
    try apply frame_ret.
  apply frame_bind; [|by intros]. unfold DiamondEnv.sync_result.
  frame_auto; by apply frame_modify.
Qed.

Lemma syncConfigs_wire infos : extends any_call (DiamondEnv._syncConfigs P E O infos).
Proof.
  unfold DiamondEnv._syncConfigs. apply extends_bind.
  - apply gather_wire. apply Forall_forall. intros t Ht.
    apply list_elem_of_fmap in Ht as (i & -> & _). apply getConfig_wire.
  - intros results. apply extends_frame, sync_results_wire.
Qed.

Lemma sync_updates_wire content : extends any_call (DiamondEnv.sync_updates P E O content).
Proof.
  unfold DiamondEnv.sync_updates.
  destruct (DiamondEnv._parseUpdateDataIdResponse P content) as [updateList|];
    [|apply extends_throw].
  destruct (negb _); [apply syncConfigs_wire | apply extends_ret].
Qed.

Lemma checkServerConfigInfo_nonempty w :
  _subscriptions w <> [] ->
  DiamondEnv._checkServerConfigInfo P E O w =
    bind (DiamondEnv._request P E O "/config.co"
            (DiamondEnv.probe_options O (_subscriptions w)))
         (DiamondEnv.sync_updates P E O) w.
Proof.
  intros Hs. unfold DiamondEnv._checkServerConfigInfo, bind at 1, gets.
  by destruct (_subscriptions w).
Qed.
End WireGrows.

Lemma string_app_nil_r (a : string) : a +:+ "" = a.
Proof.
  induction a as [|x a IH]; [done|].
  change (String x (a +:+ "") = String x a). by rewrite IH.
Qed.

Lemma join_app l1 l2 : join (l1 ++ l2) = join l1 +:+ join l2.
Proof.
  unfold join. induction l1 as [|v l1 IH]; simpl; [done|].
  by rewrite IH, string_app_assoc.
Qed.

Lemma probe_push_row O acc s :
  join (DiamondEnv.probe_push O acc s) = join acc +:+ probe_row (configured_tenant O) s.
Proof.
  unfold DiamondEnv.probe_push, DiamondEnv.namespace_value, configured_tenant, probe_row.
  destruct (namespace O) as [t|]; simpl.
  - destruct (String.eqb_spec t "") as [->|Ht]; simpl;
      rewrite !join_app; simpl; destruct (md5 s); simpl;
      by rewrite ?string_app_nil_r, ?string_app_assoc.
  - rewrite !join_app; simpl; destruct (md5 s); simpl;
      by rewrite ?string_app_nil_r, ?string_app_assoc.
Qed.

Lemma probeUpdate_body O subs acc :
  join (fold_left (DiamondEnv.probe_push O) subs acc)
  = join acc +:+ probe_body (configured_tenant O) subs.
Proof.
  revert acc. induction subs as [|s subs IH]; intros acc; simpl.
  - by rewrite string_app_nil_r.
  - by rewrite IH, probe_push_row, string_app_assoc.
Qed.

(** C6. For a non-empty subscription set the probe body, built by the
    loop over [_subscriptions.values()] and [join('')], is the
    concatenation over the subscriptions, in iteration order, of dataId,
    WORD_SEP, group, WORD_SEP and then md5, WORD_SEP, tenant, LINE_SEP when
    a tenant is configured, md5, LINE_SEP otherwise. It is the
    [Probe-Modify-Request] field of the POST that [_checkServerConfigInfo]
    sends to [/config.co] once a host is selected. *)
Theorem probe_request_body P E O w :
  let subs := _subscriptions w in
  let body := probe_body (configured_tenant O) (Map_values subs) in
  let options := DiamondEnv.probe_options O subs in
  subs <> [] ->
  join (DiamondEnv.probeUpdate O subs) = body /\
  (forall w0, DiamondEnv.select_server P E O w = (Return (), w0) ->
     let r := DiamondEnv.outbound P E O (_currentServer w0) "/config.co" options in
     req_method r = "POST" /\
     req_data r = Some [("Probe-Modify-Request", JStr body)] /\
     exists l, wire (DiamondEnv._checkServerConfigInfo P E O w).2
               = wire w0 ++ (ByDiamondEnv, r) :: l).
Proof.
  intros subs body options Hsubs.
  assert (Hbody : join (DiamondEnv.probeUpdate O subs) = body).
  { unfold DiamondEnv.probeUpdate. by rewrite probeUpdate_body. }
  split; [done|]. intros w0 Hsel r.
  split; [reflexivity|]. split.
  { unfold r, DiamondEnv.outbound, options, DiamondEnv.probe_options. simpl.
    by rewrite Hbody. }
  destruct (request_sends P E O "/config.co" options w w0 Hsel) as [l1 Hl1].
  rewrite (checkServerConfigInfo_nonempty P E O w Hsubs). fold subs options.
  unfold bind.
  destruct (DiamondEnv._request P E O "/config.co" options w) as [[content|e] w1];
    simpl in *; [|by eauto].
  destruct (sync_updates_wire P E O content w1) as (l2 & Hl2 & _).
  exists (l1 ++ l2). by rewrite Hl2, Hl1, <- app_assoc.
Qed.

(** Two subscriptions under tenant ["ns"], the second never synchronised:
    the body the probe carries. *)
Lemma probe_request_body_witness :
  let E := stubE two_hosts (HttpRes 200 (Some "")) in
  let sep := Constants.WORD_SEPARATOR in
  let eol := Constants.LINE_SEPARATOR in
  let body := "a" +:+ sep +:+ "g" +:+ sep +:+ "m1" +:+ sep +:+ "ns" +:+ eol +:+
              "b" +:+ sep +:+ "g" +:+ sep +:+ sep +:+ "ns" +:+ eol in
  exists r, (ByDiamondEnv, r) ∈ wire (DiamondEnv._checkServerConfigInfo stubP E stubO
                                       two_subscriptions).2 /\
    req_url r = "https://h1:443/diamond-server/config.co" /\
    req_data r = Some [("Probe-Modify-Request", JStr body)].
Proof.
  intros E sep eol body.
  destruct (probe_request_body stubP E stubO two_subscriptions) as [_ Hsent];
    [discriminate|].
  destruct (Hsent two_subscriptions) as (_ & Hdata & l & Hl); [reflexivity|].
  eexists. split; [|split; [|exact Hdata]].
  - rewrite Hl. apply elem_of_app. right. apply list_elem_of_here.
  - vm_compute. reflexivity.
Defined.

(** ** [unSubscribe] *)

(** What the subscription engine never touches while it syncs: the
    registered listeners and the calls already made. *)
Section EngineFrame.
Context (P : Platform) (E : Env) (O : Options).
Context {X : Type} (f : World -> X).

Hypothesis f_disk : forall d w, f (with_disk d w) = f w.
Hypothesis f_snapshot_errors : forall l w, f (with_snapshot_errors l w) = f w.
Hypothesis f_cache : forall c w, f (with_cache c w) = f w.
Hypothesis f_mgr_errors : forall l w, f (with_mgr_errors l w) = f w.
Hypothesis f_currentServer : forall s w, f (with_currentServer s w) = f w.
Hypothesis f_wire : forall l w, f (with_wire l w) = f w.
Hypothesis f_error_task :
  forall e w, f (with_immediates (immediates w ++ [TEmitError e]) w) = f w.
Hypothesis f_emit_task :
  forall k c s w,
    f (with_immediates (immediates w ++ [TEmit k c]) (with_subscriptions s w)) = f w.

Lemma frame_sync_results infos results :
  frame f (DiamondEnv.sync_results P O infos results).
Proof.
  revert results. induction infos as [|i infos IH]; intros [|r results]; simpl;
    try apply frame_ret.
  apply frame_bind; [|by intros]. unfold DiamondEnv.sync_result, DiamondEnv._error.
  apply frame_bind; [apply frame_gets|]. intros [item|]; [|apply frame_ret].
  destruct r as [c|e].
  - destruct (bool_decide _); [|apply frame_ret].
    intros w. apply (f_emit_task _ _ _ w).
  - apply frame_modify. intros w. apply f_error_task.
Qed.

Lemma frame_gather {A} (tasks : list (M A)) :
  Forall (frame f) tasks -> frame f (DiamondEnv.gather tasks).
Proof.
  induction 1 as [|t tasks Ht _ IH]; [apply frame_ret|].
  intros w. simpl. specialize (Ht w). destruct (t w) as [r w1]. simpl in Ht.
  specialize (IH w1). destruct (DiamondEnv.gather tasks w1) as [[rs|e] w2];
    simpl in *; by rewrite IH.
Qed.

Lemma frame_syncConfigs infos : frame f (DiamondEnv._syncConfigs P E O infos).
Proof.
  unfold DiamondEnv._syncConfigs. apply frame_bind.
  - apply frame_gather, Forall_forall. intros t Ht.
    apply list_elem_of_fmap in Ht as (i & -> & _).
    apply frame_getConfig; auto.
  - intros results. apply frame_sync_results.
Qed.
End EngineFrame.

Lemma unSubscribe_listeners O i l w :
  let key := DiamondEnv._formatKey O i in
  let w1 := (DiamondEnv.unSubscribe O i l w).2 in
  delivered w1 = delivered w /\
  pending_calls w1 = pending_calls w /\
  (listeners_of key w1 = [] -> Map_get key (_subscriptions w1) = None).
Proof.
  intros key w1. unfold w1, DiamondEnv.unSubscribe. fold key.
  set (m := match l with Some l0 => removeListener key l0 | None => removeAllListeners key end).
  assert (Hm : exists w', m w = (Return (), w') /\ delivered w' = delivered w /\
                          pending_calls w' = pending_calls w).
  { unfold m, removeListener, removeAllListeners, modify.
    destruct l as [l0|]; [|by eauto].
    eexists. split; [done|]. by repeat case_match. }
  destruct Hm as (w' & Heq & Hd & Hc). unfold bind, gets. rewrite Heq.
  destruct (Nat.eqb_spec (length (listeners_of key w')) 0) as [H0|Hn]; simpl.
  - split; [done|]. split; [done|]. intros _. apply Map_get_delete.
  - split; [done|]. split; [done|]. intros Hl. by rewrite Hl in Hn.
Qed.

(** What the next turn of the event loop delivers for a key without
    listeners: only direct calls that are already waiting. *)
Lemma no_listener_deliveries key w d :
  listeners_of key w = [] ->
  d ∈ pending_deliveries w -> delivery_key d = key -> d ∈ pending_calls w.
Proof.
  intros Hl Hin Hk. unfold pending_deliveries in Hin. unfold pending_calls.
  apply list_elem_of_In, in_flat_map in Hin as (t & Ht & Hd).
  apply list_elem_of_In, in_flat_map. exists t. split; [done|].
  destruct t as [k c|e|k l c]; simpl in *; [|done|done].
  exfalso. apply in_map_iff in Hd as (l & <- & Hin). simpl in Hk. subst k.
  unfold listeners_of in Hl. destruct (listeners w !! key) as [ls|]; simpl in Hin;
    [by subst ls|done].
Qed.

Lemma pending_calls_delivered w d :
  d ∈ pending_calls w -> d ∈ pending_deliveries w.
Proof.
  unfold pending_calls, pending_deliveries. intros Hin.
  apply list_elem_of_In, in_flat_map in Hin as (t & Ht & Hd).
  apply list_elem_of_In, in_flat_map. exists t. split; [done|].
  by destruct t.
Qed.

Lemma pending_calls_not_emitted key w d :
  d ∈ pending_calls w -> ~ emitted_for key d.
Proof.
  unfold pending_calls. intros Hin Hem.
  apply list_elem_of_In, in_flat_map in Hin as (t & _ & Hd).
  destruct t as [k c|e|k l c]; simpl in *; try done.
  destruct Hd as [<-|[]]. done.
Qed.

Lemma pending_calls_error e w :
  pending_calls (with_immediates (immediates w ++ [TEmitError e]) w) = pending_calls w.
Proof.
  unfold pending_calls. simpl. by rewrite app_assoc, flat_map_app, app_nil_r.
Qed.

Lemma pending_calls_emit k c s w :
  pending_calls (with_immediates (immediates w ++ [TEmit k c]) (with_subscriptions s w))
  = pending_calls w.
Proof.
  unfold pending_calls. simpl. by rewrite app_assoc, flat_map_app, app_nil_r.
Qed.

(** C9, as stated, fails: a listener is still called with the content
    of the key after [unSubscribe] has removed the last listener. Here
    listener 9 subscribes to a row that holds an MD5, so [subscribe]
    defers its initial-value call with [process.nextTick]; all listeners
    of the key are then removed. The row is gone and no listener is
    left, and the next turn of the event loop calls listener 9 with the
    content ["x"]. *)
Lemma unSubscribe_deferred_call_delivered :
  let i := {| info_dataId := "a"; info_group := "g" |} in
  let w := (DiamondEnv.subscribe stubO i 9 two_subscriptions).2 in
  let w1 := (DiamondEnv.unSubscribe stubO i None w).2 in
  listeners_of "a@g@u1" w1 = [] /\
  Map_get "a@g@u1" (_subscriptions w1) = None /\
  delivered w1 = [] /\
  delivered (run_event_loop w1) = [ByCall "a@g@u1" 9 (Some "x")].
Proof.
  intros i w w1. repeat split; vm_compute; reflexivity.
Qed.

(** C9, amended. Once [unSubscribe] has removed the last listener of a
    key, the row of the key is gone from [_subscriptions]; a sync result
    for the key that arrives afterwards is discarded without any change;
    and whatever syncs finish or run afterwards (results of fetches that
    were in flight, or a whole later [_syncConfigs]), the next turn of
    the event loop, which also runs the emissions queued before the
    [unSubscribe], emits nothing for the key to any listener. The calls
    a listener can still get for the key are the initial-value calls
    that [subscribe] had already deferred when [unSubscribe] was called:
    they are not cancelled. *)
Theorem unSubscribe_last_listener P E O i l w :
  let key := DiamondEnv._formatKey O i in
  let w1 := (DiamondEnv.unSubscribe O i l w).2 in
  let quiet w2 :=
    forall d, d ∈ delivered (run_event_loop w2) ->
      (emitted_for key d -> d ∈ delivered w) /\
      (delivery_key d = key -> d ∈ delivered w \/ deferred_call key w d) in
  let kept w2 :=
    forall k l0 c, ByCall k l0 c ∈ pending_calls w ->
      exists c', ByCall k l0 c' ∈ delivered (run_event_loop w2) in
  listeners_of key w1 = [] ->
  Map_get key (_subscriptions w1) = None /\
  (forall r, DiamondEnv.sync_result P O i r w1 = (Return (), w1)) /\
  (forall infos results,
     quiet (DiamondEnv.sync_results P O infos results w1).2 /\
     kept (DiamondEnv.sync_results P O infos results w1).2) /\
  (forall infos,
     quiet (DiamondEnv._syncConfigs P E O infos w1).2 /\
     kept (DiamondEnv._syncConfigs P E O infos w1).2).
Proof.
  intros key w1 quiet kept Hl.
  destruct (unSubscribe_listeners O i l w) as (Hd & Hc & Hgone).
  fold key w1 in Hd, Hc, Hgone.
  assert (Hquiet : forall w2,
            listeners w2 = listeners w1 -> delivered w2 = delivered w1 ->
            pending_calls w2 = pending_calls w1 -> quiet w2 /\ kept w2).
  { intros w2 HL HD HC. split; [|intros k l0 c Hin; exists c;
      rewrite run_event_loop_delivered; apply elem_of_app; right;
      apply pending_calls_delivered; by rewrite HC, Hc].
    intros d Hin.
    assert (Hl2 : listeners_of key w2 = []) by (unfold listeners_of in *; by rewrite HL).
    rewrite run_event_loop_delivered in Hin.
    apply elem_of_app in Hin as [Hin|Hin]; [rewrite HD, Hd in Hin; by auto|].
    assert (Hkey : delivery_key d = key -> d ∈ pending_calls w).
    { intros Hk. rewrite <- Hc, <- HC. by apply (no_listener_deliveries key). }
    split.
    - intros Hem.
      assert (Hk : delivery_key d = key) by (by destruct d).
      by destruct (pending_calls_not_emitted key w d (Hkey Hk)).
    - intros Hk. right. specialize (Hkey Hk).
      destruct d as [k l0 c|k l0 c]; simpl in *.
      + by destruct (pending_calls_not_emitted k w _ Hkey).
      + subst k. split; [done|]. by exists c. }
  split; [by apply Hgone|]. split; [|split].
  - intros r. apply sync_result_missing. by apply Hgone.
  - intros infos results. apply Hquiet.
    + by apply (frame_sync_results P O listeners).
    + by apply (frame_sync_results P O delivered).
    + apply (frame_sync_results P O pending_calls);
        auto using pending_calls_error, pending_calls_emit.
  - intros infos. apply Hquiet.
    + by apply (frame_syncConfigs P E O listeners).
    + by apply (frame_syncConfigs P E O delivered).
    + apply (frame_syncConfigs P E O pending_calls);
        auto using pending_calls_error, pending_calls_emit.
Qed.

(** The listener of [demo] unsubscribes while the emission of ["v1"] is
    still queued, and the result ["v2"] of a fetch in flight arrives
    afterwards: the row is gone and the event loop delivers nothing for
    the key. *)
Lemma unSubscribe_last_listener_witness :
  let E := stubE two_hosts (HttpRes 200 (Some "v1")) in
  let w := (DiamondEnv._syncConfigs stubP E stubO [demo] subscribed).2 in
  let w1 := (DiamondEnv.unSubscribe stubO demo (Some 7%nat) w).2 in
  let late := (DiamondEnv.sync_results stubP stubO [demo] [Return (Some "v2")] w1).2 in
  immediates w = [TEmit "d@g@u1" (Some "v1")] /\
  listeners_of "d@g@u1" w1 = [] /\
  Map_get "d@g@u1" (_subscriptions w1) = None /\
  late = w1 /\
  forall d, d ∈ delivered (run_event_loop late) -> delivery_key d <> "d@g@u1".
Proof.
  intros E w w1 late.
  assert (Hl : listeners_of "d@g@u1" w1 = []) by (vm_compute; reflexivity).
  destruct (unSubscribe_last_listener stubP E stubO demo (Some 7%nat) w Hl)
    as (Hgone & Hdrop & Hquiet & _).
  split; [vm_compute; reflexivity|]. split; [exact Hl|]. split; [exact Hgone|]. split.
  - unfold late. simpl. unfold bind.
    change (DiamondEnv.unSubscribe stubO demo (Some 7%nat) w).2 with w1 in Hdrop.
    rewrite (Hdrop (Return (Some "v2"))). reflexivity.
  - intros d Hin Hk.
    destruct (proj1 (Hquiet [demo] [Return (Some "v2")]) d Hin) as [_ Hold].
    assert (Hw : delivered w = []) by (vm_compute; reflexivity).
    assert (Hc : pending_calls w = []) by (vm_compute; reflexivity).
    rewrite Hw in Hold.
    destruct (Hold Hk) as [H|H]; [exact (proj1 (elem_of_nil d) H)|].
    destruct d as [k l0 c|k l0 c]; simpl in H; [exact H|].
    destruct H as [_ [c' H]]. rewrite Hc in H. exact (proj1 (elem_of_nil _) H).
Defined.

(** ** [_fetchServerList] *)

Section FetchFacts.
Context (P : Platform) (E : Env) (O : Options).

Lemma delete_result key w :
  let file := Snapshot._getSnapshotFile O key in
  Snapshot.delete E O key w =
    match fs_fault E (FsRimraf file) with
    | None => (Return (), with_disk (base.delete file (disk w)) w)
    | Some e =>
        (Return (),
         with_snapshot_errors
           (snapshot_errors w ++ [set_key key (set_name "SnapshotDeleteError" e)]) w)
    end.
Proof.
  intros file. unfold Snapshot.delete, try_catch, rimraf. fold file.
  by destruct (fs_fault E (FsRimraf file)).
Qed.

(** A failed discovery throws before anything is saved. *)
Lemma fetch_remote_fails u w :
  discovery_fails P E O u ->
  exists err,
    ServerListManager.fetch_remote P E O u w =
      (Throw err,
       with_wire (wire w ++ [(ByServerListManager,
                              ServerListManager.discovery_request O
                                (ServerListManager._getRequestUrl P O u))]) w).
Proof.
  unfold discovery_fails, ServerListManager.fetch_remote, ServerListManager._request,
    bind, http.
  destruct (httpclient E _) as [status body|e]; [|by eauto].
  intros [Hs|Hh].
  - destruct (Z.eqb_spec status 200); [done|]. simpl. eauto.
  - destruct (Z.eqb_spec status 200); simpl; [|by eauto].
    rewrite Hh. simpl. eauto.
Qed.

(** The [catch] block of [_fetchServerList], by the state of the
    snapshot. *)
Lemma fetch_snapshot_result u err w :
  let key := ServerListManager._formatKey u in
  let file := Snapshot._getSnapshotFile O key in
  let w1 := with_mgr_errors (mgr_errors w ++ [err]) w in
  ServerListManager.fetch_snapshot P E O u err w =
    match disk w !! file with
    | None => (Return None, w1)
    | Some data =>
        match fs_fault E (FsReadFile file) with
        | Some e =>
            (Return None,
             with_snapshot_errors
               (snapshot_errors w ++ [set_name "SnapshotReadError" e]) w1)
        | None =>
            if String.eqb data "" then (Return None, w1)
            else
              match JSON_parse P data with
              | Some hs => (Return (Some hs), w1)
              | None =>
                  let w2 := (Snapshot.delete E O key w1).2 in
                  (Return None,
                   with_mgr_errors
                     (mgr_errors w2 ++
                        [set_data (PText data)
                           (set_unit u (new_Error "ServerListSnapShotJSONParseError"))])
                     w2)
              end
        end
    end.
Proof.
  intros key file w1.
  unfold ServerListManager.fetch_snapshot, bind at 1, ServerListManager.emit_error at 1,
    modify at 1. fold key w1. unfold bind at 1. rewrite get_result. fold file.
  change (disk w1) with (disk w).
  destruct (disk w !! file) as [data|]; [|done].
  destruct (fs_fault E (FsReadFile file)) as [e|]; [done|]. simpl.
  destruct (String.eqb data ""); simpl; [done|].
  destruct (JSON_parse P data) as [hs|]; [done|].
  unfold bind. rewrite delete_result. fold file.
  by destruct (fs_fault E (FsRimraf file)).
Qed.

Lemma fetchServerList_failed u w err w1 :
  ServerListManager.fetch_remote P E O u w = (Throw err, w1) ->
  ServerListManager._fetchServerList P E O u w =
    bind (ServerListManager.fetch_snapshot P E O u err)
         (ServerListManager.populate E u) w1.
Proof.
  intros H. unfold ServerListManager._fetchServerList, bind at 1, try_catch, bind at 1.
  by rewrite H.
Qed.

Lemma populate_none u w :
  ServerListManager.populate E u None w =
    (Return None, with_cache (<[u := None]> (_serverListCache w)) w).
Proof. done. Qed.

Lemma populate_hosts u hs w :
  hs <> [] ->
  let pool := {| hosts := hs; index := random E (length hs) |} in
  ServerListManager.populate E u (Some hs) w =
    (Return (Some pool), with_cache (<[u := Some pool]> (_serverListCache w)) w).
Proof. intros Hhs. by destruct hs. Qed.
End FetchFacts.

(** C7. When the discovery fetch for a unit fails, [_fetchServerList]
    falls back to the snapshot under [server_list/<unit>]: a readable,
    non-empty snapshot that parses to a non-empty host list becomes the
    pool of the unit. If the snapshot does not parse, it is deleted, a
    [ServerListSnapShotJSONParseError] is reported, and nothing of it
    enters the cache. Whenever no host list comes from either source, the
    cache entry of the unit is set to [null], so the unit is a key of
    the cache, and [null] is returned. *)
Theorem fetchServerList_fallback P E O u w :
  let key := ServerListManager._formatKey u in
  let file := Snapshot._getSnapshotFile O key in
  let out := ServerListManager._fetchServerList P E O u w in
  discovery_fails P E O u ->
  (u <> "" -> key = "server_list/" +:+ u) /\
  (forall data hs,
     disk w !! file = Some data -> data <> "" ->
     fs_fault E (FsReadFile file) = None ->
     JSON_parse P data = Some hs -> hs <> [] ->
     let pool := {| hosts := hs; index := random E (length hs) |} in
     out.1 = Return (Some pool) /\ _serverListCache out.2 !! u = Some (Some pool)) /\
  (forall data,
     disk w !! file = Some data -> data <> "" ->
     fs_fault E (FsReadFile file) = None ->
     JSON_parse P data = None ->
     out.1 = Return None /\
     _serverListCache out.2 !! u = Some None /\
     last (mgr_errors out.2) =
       Some (set_data (PText data)
               (set_unit u (new_Error "ServerListSnapShotJSONParseError"))) /\
     (fs_fault E (FsRimraf file) = None -> disk out.2 !! file = None)) /\
  (disk w !! file = None \/ disk w !! file = Some "" \/
   fs_fault E (FsReadFile file) <> None \/
   (exists data, disk w !! file = Some data /\
      (JSON_parse P data = None \/ JSON_parse P data = Some [])) ->
   out.1 = Return None /\ _serverListCache out.2 !! u = Some None /\
   u ∈ dom (_serverListCache out.2)).
Proof.
  intros key file out Hfail.
  destruct (fetch_remote_fails P E O u w Hfail) as [err Hremote].
  set (w1 := with_wire _ w) in Hremote.
  assert (Hout : out = bind (ServerListManager.fetch_snapshot P E O u err)
                         (ServerListManager.populate E u) w1)
    by by apply fetchServerList_failed.
  rewrite Hout. unfold bind. rewrite fetch_snapshot_result. fold key file.
  change (disk w1) with (disk w).
  split; [|split; [|split]].
  - intros Hu. unfold key, ServerListManager._formatKey, path_join.
    rewrite !filter_cons, filter_nil. simpl.
    destruct (decide (u <> "")) as [_|H]; [|done]. simpl. by destruct u.
  - intros data hs Hd Hne Hr Hp Hhs. rewrite Hd, Hr.
    destruct (String.eqb_spec data ""); [done|]. rewrite Hp.
    rewrite (populate_hosts E u hs _ Hhs). simpl. by rewrite lookup_insert_eq.
  - intros data Hd Hne Hr Hp. rewrite Hd, Hr.
    destruct (String.eqb_spec data ""); [done|]. rewrite Hp.
    cbv beta iota zeta. rewrite populate_none. simpl.
    rewrite lookup_insert_eq, last_snoc. split; [done|]. split; [done|]. split; [done|].
    intros Hrm. rewrite delete_result. fold file. rewrite Hrm. simpl.
    by rewrite lookup_delete_eq.
  - intros Hno.
    match goal with |- ?A /\ ?B /\ _ => cut (A /\ B) end.
    { intros [H1 H2]. split; [done|]. split; [done|]. apply elem_of_dom. by rewrite H2. }
    assert (Hnone : forall w', ServerListManager.populate E u None w' =
              (Return None, with_cache (<[u := None]> (_serverListCache w')) w')) by done.
    destruct (disk w !! file) as [data|] eqn:Hd;
      [|rewrite Hnone; simpl; by rewrite lookup_insert_eq].
    destruct (fs_fault E (FsReadFile file)) as [e|] eqn:Hr;
      [rewrite Hnone; simpl; by rewrite lookup_insert_eq|].
    destruct (String.eqb_spec data "") as [->|Hne];
      [rewrite Hnone; simpl; by rewrite lookup_insert_eq|].
    destruct Hno as [?|[[= ?]|[?|(data' & [= <-] & [Hp|Hp])]]]; try done.
    + rewrite Hp. cbv beta iota zeta. rewrite Hnone. simpl. by rewrite lookup_insert_eq.
    + rewrite Hp. simpl. by rewrite lookup_insert_eq.
Qed.

(** The discovery endpoint answers 500 and the snapshot of ["u1"] is not
    JSON: the file is deleted, the error reported, the cache entry
    [null]. With a snapshot in order, its hosts become the pool. *)
Lemma fetchServerList_fallback_witness :
  let E := stubE (HttpRes 500 None) (HttpRes 200 None) in
  let out d := ServerListManager._fetchServerList stubP E stubO "u1"
                 (fresh {[ list_file_u1 := d ]}) in
  ((out "oops").1 = Return None /\
   _serverListCache (out "oops").2 !! "u1" = Some None /\
   disk (out "oops").2 !! list_file_u1 = None /\
   map err_name (mgr_errors (out "oops").2)
     = ["DiamondServerResponseError"; "ServerListSnapShotJSONParseError"]) /\
  (out "[h8,h9").1 = Return (Some {| hosts := ["h8"; "h9"]; index := 0 |}).
Proof.
  intros E out. split.
  - destruct (fetchServerList_fallback stubP E stubO "u1" (fresh {[ list_file_u1 := "oops" ]}))
      as (_ & _ & Hbad & _); [by left|].
    destruct (Hbad "oops") as (Hret & Hcache & _ & Hgone);
      [vm_compute; reflexivity | discriminate | reflexivity | reflexivity |].
    split; [exact Hret|]. split; [exact Hcache|].
    split; [exact (Hgone eq_refl) | vm_compute; reflexivity].
  - destruct (fetchServerList_fallback stubP E stubO "u1" (fresh {[ list_file_u1 := "[h8,h9" ]}))
      as (_ & Hgood & _); [by left|].
    destruct (Hgood "[h8,h9" ["h8"; "h9"]) as [Hret _];
      [vm_compute; reflexivity | discriminate | reflexivity | reflexivity | discriminate |].
    exact Hret.
Defined.

(** ** Failed requests *)

Section TotalRules.
Lemma total_ret {A} (a : A) : total (ret a).
Proof. intros w. by exists a. Qed.

Lemma total_gets {A} (g : World -> A) : total (gets g).
Proof. intros w. by eexists. Qed.

Lemma total_modify (g : World -> World) : total (modify g).
Proof. intros w. by exists (). Qed.

Lemma total_bind {A B} (m : M A) (k : A -> M B) :
  total m -> (forall a, total (k a)) -> total (bind m k).
Proof.
  intros Hm Hk w. unfold bind. destruct (Hm w) as [a Ha].
  destruct (m w) as [[a'|e] w1]; simpl in *; [|done]. apply Hk.
Qed.

Lemma total_try_catch {A} (m : M A) (h : error -> M A) :
  (forall e, total (h e)) -> total (try_catch m h).
Proof.
  intros Hh w. unfold try_catch. destruct (m w) as [[a|e] w1]; simpl; [by eauto|].
  apply Hh.
Qed.
End TotalRules.

Ltac total_step :=
  lazymatch goal with
  | |- total (bind _ _) => apply total_bind; [|intros ?]
  | |- total (try_catch _ _) => apply total_try_catch; intros ?
  | |- total (ret _) => apply total_ret
  | |- total (gets _) => apply total_gets
  | |- total (modify _) => apply total_modify
  | |- total (if ?b then _ else _) => destruct b
  | |- total (match ?x with _ => _ end) => destruct x
  end.

Ltac total_auto := repeat first [ solve [eauto] | total_step ].

Section FailureFacts.
Context (P : Platform) (E : Env) (O : Options).

(** The manager reports and returns [null]; it never throws. *)
Lemma getOne_total u : total (ServerListManager.getOne P E O u).
Proof.
  assert (forall key, total (Snapshot.get E O key)) by (intros key w; apply get_total).
  assert (forall key, total (Snapshot.delete E O key)).
  { intros key w. rewrite delete_result. by destruct (fs_fault E _); eexists. }
  unfold ServerListManager.getOne, ServerListManager._fetchServerList,
    ServerListManager.populate, ServerListManager.fetch_snapshot,
    ServerListManager.emit_error, ServerListManager.cache_set.
  total_auto.
Qed.

(** [_updateCurrentServer] stores what [getOne] returns, and throws
    exactly when that is no usable host. *)
Lemma updateCurrentServer_result w :
  exists s,
    (ServerListManager.getOne P E O (unit O) w).1 = Return s /\
    _currentServer (DiamondEnv._updateCurrentServer P E O w).2 = s /\
    ((DiamondEnv._updateCurrentServer P E O w).1 = Return () \/
     (DiamondEnv._updateCurrentServer P E O w).1 =
       Throw (set_unit (unit O) (new_Error "DiamondServerUnavailableError"))).
Proof.
  destruct (getOne_total (unit O) w) as [s Hs]. exists s. split; [done|].
  unfold DiamondEnv._updateCurrentServer, bind, modify.
  destruct (ServerListManager.getOne P E O (unit O) w) as [[s'|e] w1]; simpl in *; [|done].
  injection Hs as ->. destruct (negb (truthy (of_nullable s))); simpl; eauto.
Qed.

Lemma on_failure_result r options err0 w :
  DiamondEnv.on_failure P E O r options err0 w =
    match DiamondEnv._updateCurrentServer P E O w with
    | (Return _, w') => (Throw (DiamondEnv.tag r options err0), w')
    | (Throw e, w') => (Throw e, w')
    end.
Proof. unfold DiamondEnv.on_failure, bind. by repeat case_match. Qed.
End FailureFacts.

(** C8, as stated, fails for transport errors: the error of the
    transport is thrown on under its own name. *)
Lemma request_transport_error_keeps_name :
  let E := stubE two_hosts (HttpThrow (new_Error "ConnectionTimeoutError")) in
  let out := DiamondEnv._request stubP E stubO "/config.co"
               (DiamondEnv.config_options stubO "d" "g") (fresh ∅) in
  exists err, out.1 = Throw err /\
    err_name err = "ConnectionTimeoutError" /\
    err_name err <> "DiamondServerResponseError".
Proof.
  intros E out. eexists. split; [vm_compute; reflexivity|].
  split; [reflexivity | discriminate].
Qed.

(** C8, amended. Let [_request] have sent its request. If the answer has
    a status other than 200, 404 and 409, the error raised is named
    [DiamondServerResponseError] and carries the body; if the transport
    throws, the error raised is the transport's own, its name unchanged.
    In both cases the current host is selected anew from the server list
    manager, and, when the manager gives a host, the raised error is
    thrown tagged with [url], [data] and [headers]; when it gives none,
    [DiamondServerUnavailableError] is thrown in its place. *)
Theorem request_failure P E O path options w w0 :
  let r := DiamondEnv.outbound P E O (_currentServer w0) path options in
  let out := DiamondEnv._request P E O path options w in
  let reselect := DiamondEnv._updateCurrentServer P E O (sent r w0) in
  let rethrown err0 :=
    out.2 = reselect.2 /\
    (exists s, (ServerListManager.getOne P E O (unit O) (sent r w0)).1 = Return s /\
               _currentServer out.2 = s) /\
    match reselect.1 with
    | Return _ =>
        exists err, out.1 = Throw err /\
          err_name err = err_name err0 /\
          err_body err = err_body err0 /\
          err_url err = Some (DiamondEnv.method options +:+ " " +:+ req_url r) /\
          err_data err = Some (PObject (DiamondEnv.data options)) /\
          err_headers err = Some (req_headers r)
    | Throw e =>
        out.1 = Throw e /\ err_name e = "DiamondServerUnavailableError"
    end in
  DiamondEnv.select_server P E O w = (Return (), w0) ->
  (forall status body,
     httpclient E r = HttpRes status body ->
     status <> 200 -> status <> 404 -> status <> 409 ->
     rethrown (set_body body (new_Error "DiamondServerResponseError"))) /\
  (forall e, httpclient E r = HttpThrow e -> rethrown e).
Proof.
  intros r out reselect rethrown Hsel.
  assert (Hre : forall err0,
            out = DiamondEnv.on_failure P E O r options err0 (sent r w0) ->
            rethrown err0).
  { intros err0 Hout. unfold rethrown. rewrite Hout, on_failure_result.
    fold reselect.
    destruct (updateCurrentServer_result P E O (sent r w0)) as (s & Hs & Hcur & Hres).
    fold reselect in Hcur, Hres.
    destruct reselect as [[[]|e] w']; simpl in *.
    - split; [done|]. split; [by eauto|]. by eexists.
    - split; [done|]. split; [by eauto|].
      destruct Hres as [?|[= ->]]; done. }
  pose proof (request_result P E O path options w w0 Hsel) as Hreq.
  simpl in Hreq. fold r out in Hreq.
  split.
  - intros status body Hres H200 H404 H409. apply Hre. rewrite Hreq, Hres.
    destruct (Z.eqb_spec status 200); [done|].
    destruct (Z.eqb_spec status 404); [done|].
    by destruct (Z.eqb_spec status 409).
  - intros e Hres. apply Hre. by rewrite Hreq, Hres.
Qed.

(** A 500 from the first host: the error is a
    [DiamondServerResponseError] tagged with the request, and the client
    has moved on to the second host. *)
Lemma request_failure_witness :
  let E := stubE two_hosts (HttpRes 500 (Some "boom")) in
  let out := DiamondEnv._request stubP E stubO "/config.co"
               (DiamondEnv.config_options stubO "d" "g") (fresh ∅) in
  _currentServer out.2 = Some "h2" /\
  exists err, out.1 = Throw err /\
    err_name err = "DiamondServerResponseError" /\
    err_url err = Some "GET https://h1:443/diamond-server/config.co".
Proof.
  intros E out.
  pose (w0 := (DiamondEnv.select_server stubP E stubO (fresh ∅)).2).
  destruct (request_failure stubP E stubO "/config.co"
              (DiamondEnv.config_options stubO "d" "g") (fresh ∅) w0) as [Hstatus _];
    [vm_compute; reflexivity|].
  destruct (Hstatus 500 (Some "boom")) as (Hw & _ & Herr);
    [vm_compute; reflexivity | discriminate | discriminate | discriminate |].
  split.
  - fold out in Hw. rewrite Hw. vm_compute. reflexivity.
  - set (re := (DiamondEnv._updateCurrentServer stubP E stubO _).1) in Herr.
    assert (Hre : re = Return ()) by (vm_compute; reflexivity).
    rewrite Hre in Herr. destruct Herr as (err & Hout & Hname & _ & Hurl & _).
    exists err. split; [exact Hout|]. split; [exact Hname | exact Hurl].
Defined.

(** ** The parsers on concrete inputs *)

Example parse_hosts_lines :
  ServerListManager.parse_hosts
    (" h1 " +:+ String "010" (String "010" ("h2" +:+ String "013" (String "010" ""))))
  = ["h1"; "h2"].
Proof. reflexivity. Qed.

Example parse_probe_response :
  DiamondEnv._parseUpdateDataIdResponse stubP
    (Some ("d" +:+ Constants.WORD_SEPARATOR +:+ "g" +:+ Constants.WORD_SEPARATOR
           +:+ "ns" +:+ Constants.LINE_SEPARATOR +:+ "lonely" +:+ Constants.LINE_SEPARATOR))
  = Some [{| info_dataId := "d"; info_group := "g" |}].
Proof. reflexivity. Qed.

Example parse_probe_response_404 :
  DiamondEnv._parseUpdateDataIdResponse stubP None = Some [].
Proof. reflexivity. Qed.

Example snapshot_key_of_demo :
  Snapshot._getSnapshotFile stubO (DiamondEnv._getSnapshotKey stubO "d" "g") = demo_file /\
  Snapshot._getSnapshotFile stubO (ServerListManager._formatKey "u1") = list_file_u1 /\
  path_dirname demo_file = "/c/snapshot/config/u1/ns/g".
Proof. repeat split; reflexivity. Qed.

(** * Further properties *)

(** ** The snapshot store *)

(** X1. No operation of the snapshot store throws. A failed write (the
    directory cannot be made or the file cannot be written) leaves the
    disk as it was and is reported as one [SnapshotWriteError] carrying
    the key and the value; a failed read gives [null] and is reported as
    one [SnapshotReadError]; a failed removal leaves the file and is
    reported as one [SnapshotDeleteError] carrying the key. Nothing else
    in the world changes. *)
Theorem snapshot_failures_are_reported E O key v w :
  let file := Snapshot._getSnapshotFile O key in
  let report e := with_snapshot_errors (snapshot_errors w ++ [e]) w in
  let write_fault :=
    match fs_fault E (FsMkdirp (path_dirname file)) with
    | Some e => Some e
    | None => fs_fault E (FsWriteFile file)
    end in
  ((Snapshot.save E O key v w).1 = Return () /\
   (Snapshot.delete E O key w).1 = Return () /\
   exists r, (Snapshot.get E O key w).1 = Return r) /\
  (forall e, write_fault = Some e ->
     Snapshot.save E O key v w =
       (Return (),
        report (set_value (Snapshot.or_empty v)
                  (set_key key (set_name "SnapshotWriteError" e))))) /\
  (forall e s, disk w !! file = Some s -> fs_fault E (FsReadFile file) = Some e ->
     Snapshot.get E O key w = (Return None, report (set_name "SnapshotReadError" e))) /\
  (forall e, fs_fault E (FsRimraf file) = Some e ->
     Snapshot.delete E O key w =
       (Return (), report (set_key key (set_name "SnapshotDeleteError" e)))).
Proof.
  intros file report write_fault. split; [|split; [|split]].
  - split; [apply save_total|]. split; [|apply get_total].
    rewrite delete_result. by destruct (fs_fault E (FsRimraf _)).
  - intros e He. unfold write_fault in He.
    unfold Snapshot.save, try_catch, bind, mkdirp, fs_writeFile. fold file.
    destruct (fs_fault E (FsMkdirp (path_dirname file))) as [e1|]; [by injection He as ->|].
    by rewrite He.
  - intros e s Hd He. rewrite get_result. fold file. by rewrite Hd, He.
  - intros e He. rewrite delete_result. fold file. by rewrite He.
Qed.

(** On a disk where everything fails, saving, reading and removing a key
    all return, each leaving exactly one report. *)
Lemma snapshot_failures_are_reported_witness :
  let E := brokenE two_hosts (HttpRes 200 None) in
  let w := fresh {[ demo_file := "v_old" ]} in
  let key := "config/u1/ns/g/d" in
  let names w' := map err_name (snapshot_errors w') in
  names (Snapshot.save E stubO key (Some "v") w).2 = ["SnapshotWriteError"] /\
  disk (Snapshot.save E stubO key (Some "v") w).2 !! demo_file = Some "v_old" /\
  (Snapshot.get E stubO key w).1 = Return None /\
  names (Snapshot.get E stubO key w).2 = ["SnapshotReadError"] /\
  names (Snapshot.delete E stubO key w).2 = ["SnapshotDeleteError"].
Proof.
  intros E w key names.
  destruct (snapshot_failures_are_reported E stubO key (Some "v") w)
    as (_ & Hsave & Hget & Hdel).
  unfold names.
  rewrite (Hsave (new_Error "EACCES") eq_refl).
  rewrite (Hget (new_Error "EACCES") "v_old"); [|vm_compute; reflexivity|reflexivity].
  rewrite (Hdel (new_Error "EACCES") eq_refl).
  repeat split; vm_compute; reflexivity.
Defined.

(** X2. What is saved reads back: with the disk in order, [get] after
    [save(key, value)] returns the value, a [null] value reading back as
    the empty string, not as [null]; and the save does not change what
    [get] returns for a key stored in another file. *)
Theorem snapshot_save_get E O key v w :
  let file := Snapshot._getSnapshotFile O key in
  let w' := (Snapshot.save E O key v w).2 in
  fs_fault E (FsMkdirp (path_dirname file)) = None ->
  fs_fault E (FsWriteFile file) = None ->
  (fs_fault E (FsReadFile file) = None ->
     Snapshot.get E O key w' = (Return (Some (Snapshot.or_empty v)), w')) /\
  (forall key',
     Snapshot._getSnapshotFile O key' <> file ->
     (Snapshot.get E O key' w').1 = (Snapshot.get E O key' w).1).
Proof.
  intros file w' Hm Hw. unfold w'. rewrite (save_ok E O key v w Hm Hw). fold file.
  split.
  - intros Hr. rewrite get_result. fold file. simpl. by rewrite lookup_insert_eq, Hr.
  - intros key' Hne. rewrite !get_result. simpl.
    rewrite lookup_insert_ne by done. by repeat case_match.
Qed.

Lemma snapshot_save_get_witness :
  let E := stubE two_hosts (HttpRes 200 None) in
  let w' := (Snapshot.save E stubO "config/u1/ns/g/d" None (fresh {[ list_file_u1 := "[h1" ]})).2 in
  (Snapshot.get E stubO "config/u1/ns/g/d" w').1 = Return (Some "") /\
  (Snapshot.get E stubO "server_list/u1" w').1 = Return (Some "[h1").
Proof.
  intros E w'.
  destruct (snapshot_save_get E stubO "config/u1/ns/g/d" None (fresh {[ list_file_u1 := "[h1" ]}))
    as [Hsame Hother]; [reflexivity | reflexivity |].
  split.
  - unfold w'. rewrite (Hsame eq_refl). reflexivity.
  - unfold w'. rewrite (Hother "server_list/u1"); [vm_compute; reflexivity | discriminate].
Defined.

(** X3. With the disk in order, [get] after [delete(key)] returns [null],
    whether or not the key was stored, and no error is reported; what
    [get] returns for a key stored in another file is unchanged. *)
Theorem snapshot_delete_get E O key w :
  let file := Snapshot._getSnapshotFile O key in
  let w' := (Snapshot.delete E O key w).2 in
  fs_fault E (FsRimraf file) = None ->
  Snapshot.get E O key w' = (Return None, w') /\
  snapshot_errors w' = snapshot_errors w /\
  (forall key',
     Snapshot._getSnapshotFile O key' <> file ->
     (Snapshot.get E O key' w').1 = (Snapshot.get E O key' w).1).
Proof.
  intros file w' Hr. unfold w'. rewrite delete_result. fold file. rewrite Hr. simpl.
  split; [|split; [done|]].
  - rewrite get_result. fold file. simpl. by rewrite lookup_delete_eq.
  - intros key' Hne. rewrite !get_result. simpl.
    rewrite lookup_delete_ne by done. by repeat case_match.
Qed.

Lemma snapshot_delete_get_witness :
  let E := stubE two_hosts (HttpRes 200 None) in
  let w := fresh {[ demo_file := "v_old" ]} in
  (Snapshot.get E stubO "config/u1/ns/g/d" w).1 = Return (Some "v_old") /\
  (Snapshot.get E stubO "config/u1/ns/g/d"
     (Snapshot.delete E stubO "config/u1/ns/g/d" w).2).1 = Return None.
Proof.
  intros E w. split; [vm_compute; reflexivity|].
  destruct (snapshot_delete_get E stubO "config/u1/ns/g/d" w) as (Hget & _); [reflexivity|].
  rewrite Hget. reflexivity.
Defined.

Lemma batchSave_cons E O key v arr w :
  Snapshot.batchSave E O ((key, v) :: arr) w =
    Snapshot.batchSave E O arr (Snapshot.save E O key v w).2.
Proof.
  simpl. unfold bind. pose proof (save_total E O key v w) as Hs.
  destruct (Snapshot.save E O key v w) as [[[]|e] w1]; [done|]. by simpl in Hs.
Qed.

(** X4. [batchSave] never throws, whatever fails on the disk. With the
    disk in order it touches only the files of its entries, and when the
    entries go to different files, each value reads back from the file of
    its key ([null] as the empty string). *)
Theorem snapshot_batchSave E O arr w :
  let file key := Snapshot._getSnapshotFile O key in
  let w' := (Snapshot.batchSave E O arr w).2 in
  (Snapshot.batchSave E O arr w).1 = Return () /\
  ((forall op, fs_fault E op = None) ->
     (forall f, f ∉ map (fun kv => file kv.1) arr -> disk w' !! f = disk w !! f) /\
     (NoDup (map (fun kv => file kv.1) arr) ->
      forall key v, (key, v) ∈ arr ->
        disk w' !! file key = Some (Snapshot.or_empty v) /\
        (Snapshot.get E O key w').1 = Return (Some (Snapshot.or_empty v)))).
Proof.
  intros file. revert w. induction arr as [|[k v] arr IH]; intros w; cbv zeta.
  - split; [done|]. intros _. split; [done|]. intros _ key v' Hin.
    by apply elem_of_nil in Hin.
  - rewrite batchSave_cons. cbv zeta in IH.
    set (w1 := (Snapshot.save E O k v w).2).
    destruct (IH w1) as [Hret Hdisk]. split; [done|]. intros Hok.
    destruct (Hdisk Hok) as [Hother Hread].
    assert (Hw1 : disk w1 = <[file k := Snapshot.or_empty v]> (disk w)).
    { unfold w1. by rewrite (save_ok E O k v w (Hok _) (Hok _)). }
    split.
    + intros f Hf. apply not_elem_of_cons in Hf as [Hne Hf].
      rewrite (Hother f Hf), Hw1. by rewrite lookup_insert_ne.
    + intros Hnd key v' Hin. apply NoDup_cons in Hnd as [Hfresh Hnd].
      apply elem_of_cons in Hin as [[= -> ->]|Hin]; [|by apply Hread].
      assert (Hd : disk (Snapshot.batchSave E O arr w1).2 !! file k
                   = Some (Snapshot.or_empty v)).
      { simpl in Hfresh. rewrite (Hother (file k) Hfresh), Hw1.
        by rewrite lookup_insert_eq. }
      split; [done|]. rewrite get_result. fold (file k). rewrite Hd. by rewrite Hok.
Qed.

Lemma snapshot_batchSave_witness :
  let E := stubE two_hosts (HttpRes 200 None) in
  let w' := (Snapshot.batchSave E stubO [("config/a", Some "1"); ("config/b", None)]
               (fresh ∅)).2 in
  (Snapshot.get E stubO "config/a" w').1 = Return (Some "1") /\
  (Snapshot.get E stubO "config/b" w').1 = Return (Some "").
Proof.
  intros E w'.
  destruct (snapshot_batchSave E stubO [("config/a", Some "1"); ("config/b", None)] (fresh ∅))
    as [_ Hok].
  destruct Hok as [_ Hread]; [reflexivity|].
  assert (Hnd : NoDup (map (fun kv : string * option string =>
                  Snapshot._getSnapshotFile stubO kv.1)
                  [("config/a", Some "1"); ("config/b", None)])).
  { apply NoDup_cons. split; [|apply NoDup_singleton].
    intros Hin. apply list_elem_of_singleton in Hin. discriminate Hin. }
  split.
  - apply (Hread Hnd "config/a" (Some "1")). apply list_elem_of_here.
  - apply (Hread Hnd "config/b" None). apply list_elem_of_further, list_elem_of_here.
Defined.

(** ** Strings *)

Lemma rev_app_spec s t : String.rev_app s t = String.rev s +:+ t.
Proof.
  unfold String.rev. revert t. induction s as [|c s IH]; intros t; simpl; [done|].
  rewrite (IH (String c t)), (IH (String c "")). by rewrite string_app_assoc.
Qed.

Lemma rev_cons c s : String.rev (String c s) = String.rev s +:+ String c "".
Proof. unfold String.rev at 1. simpl. apply rev_app_spec. Qed.

Lemma rev_app_distr s t : String.rev (s +:+ t) = String.rev t +:+ String.rev s.
Proof.
  induction s as [|c s IH].
  - change ("" +:+ t) with t. by rewrite string_app_nil_r.
  - change (String c s +:+ t) with (String c (s +:+ t)).
    by rewrite !rev_cons, IH, string_app_assoc.
Qed.

Lemma rev_involutive s : String.rev (String.rev s) = s.
Proof.
  induction s as [|c s IH]; [done|].
  by rewrite rev_cons, rev_app_distr, IH.
Qed.

Lemma contains_app c s t : contains c (s +:+ t) = contains c s || contains c t.
Proof.
  induction s as [|x s IH]; [done|].
  change (String x s +:+ t) with (String x (s +:+ t)). simpl.
  by rewrite IH, orb_assoc.
Qed.

Lemma contains_rev c s : contains c (String.rev s) = contains c s.
Proof.
  induction s as [|x s IH]; [done|].
  rewrite rev_cons, contains_app, IH. simpl. by rewrite orb_false_r, orb_comm.
Qed.

(** [trim_start] removes a run of white space from the front. *)
Lemma trim_start_spec s :
  exists sp, s = sp +:+ trim_start s /\
             starts_with_space (trim_start s) = false /\
             (trim_start s = "" \/ exists c t, trim_start s = String c t /\ is_space c = false).
Proof.
  induction s as [|c s (sp & Hs & Hst & Hcase)]; simpl.
  - exists "". by eauto.
  - destruct (is_space c) eqn:Hc.
    + exists (String c sp). split; [|done].
      change (String c s = String c (sp +:+ trim_start s)). by rewrite <- Hs.
    + exists "". split; [done|]. split; [done|]. right. by eauto.
Qed.

Lemma contains_trim_start c s : contains c (trim_start s) = true -> contains c s = true.
Proof.
  destruct (trim_start_spec s) as (sp & Hs & _). intros H.
  rewrite Hs, contains_app, H. apply orb_true_r.
Qed.

Lemma contains_trim c s : contains c (trim s) = true -> contains c s = true.
Proof.
  unfold trim. rewrite contains_rev. intros H%contains_trim_start.
  rewrite contains_rev in H. by apply contains_trim_start.
Qed.

(** What [trim] returns has no white space at either end. *)
Lemma trim_ends s :
  starts_with_space (trim s) = false /\ ends_with_space (trim s) = false.
Proof.
  unfold trim, ends_with_space. rewrite rev_involutive.
  destruct (trim_start_spec s) as (sp1 & _ & _ & Ha).
  set (a := trim_start s) in *.
  destruct (trim_start_spec (String.rev a)) as (sp2 & Hrev & Hst & Ht).
  set (t := trim_start (String.rev a)) in *.
  split; [|done].
  destruct Ht as [->|(c & t' & Ht & Hc)]; [done|].
  destruct Ha as [Ha|(c0 & a' & Ha & Hc0)].
  - rewrite Ha, Ht in Hrev. destruct sp2; discriminate Hrev.
  - assert (Hra : a = String.rev t +:+ String.rev sp2).
    { by rewrite <- rev_app_distr, <- Hrev, rev_involutive. }
    rewrite Ht, rev_cons in Hra. rewrite Ht, rev_cons.
    destruct (String.rev t') as [|x r].
    + simpl in *. rewrite Ha in Hra. by injection Hra as -> _.
    + change (String x r +:+ String c "") with (String x (r +:+ String c "")) in *.
      simpl in *. rewrite Ha in Hra.
      change (String c0 a' = String x ((r +:+ String c "") +:+ String.rev sp2)) in Hra.
      by injection Hra as -> _.
Qed.

(** The pieces of [split] do not contain the separator. *)
Lemma split_go_contains sep s cur x :
  contains sep cur = false -> x ∈ split_go sep s cur -> contains sep x = false.
Proof.
  revert cur. induction s as [|c s IH]; intros cur Hcur; simpl.
  - intros ->%list_elem_of_singleton. by rewrite contains_rev.
  - destruct (Ascii.eqb c sep) eqn:Hc.
    + intros [->|Hin]%elem_of_cons; [by rewrite contains_rev|]. by apply (IH "").
    + apply IH. simpl. by rewrite Hc.
Qed.

Lemma parse_hosts_clean data h :
  h ∈ ServerListManager.parse_hosts data -> clean_line h.
Proof.
  unfold ServerListManager.parse_hosts.
  intros [Hne Hin]%list_elem_of_filter.
  apply list_elem_of_fmap in Hin as (line & -> & Hline).
  destruct (trim_ends line) as [H1 H2].
  split; [done|]. split; [done|]. split; [done|].
  destruct (contains "010" (trim line)) eqn:Hc; [|done].
  apply contains_trim in Hc.
  by rewrite (split_go_contains "010" data "" line eq_refl Hline) in Hc.
Qed.

(** ** The server list manager *)

Section ManagerFacts.
Context (P : Platform) (E : Env) (O : Options).

Lemma discovery_cases u :
  discovery_fails P E O u \/
  exists body,
    httpclient E (discovery_call P O u).2 = HttpRes 200 body /\
    ServerListManager.parse_hosts (Snapshot.or_empty body) <> [].
Proof.
  unfold discovery_fails, discovery_call. simpl.
  destruct (httpclient E _) as [s b|e]; [|by left].
  destruct (decide (s = 200)) as [->|]; [|left; by left].
  destruct (ServerListManager.parse_hosts (Snapshot.or_empty b)) eqn:H.
  - left. by right.
  - right. exists b. by rewrite H.
Qed.

(** A discovery that answers with hosts: they are saved, then returned. *)
Lemma fetch_remote_succeeds u w body :
  httpclient E (discovery_call P O u).2 = HttpRes 200 body ->
  ServerListManager.parse_hosts (Snapshot.or_empty body) <> [] ->
  let hs := ServerListManager.parse_hosts (Snapshot.or_empty body) in
  ServerListManager.fetch_remote P E O u w =
    (Return hs,
     (Snapshot.save E O (ServerListManager._formatKey u) (Some (JSON_stringify P hs))
        (with_wire (wire w ++ [discovery_call P O u]) w)).2).
Proof.
  intros Hh Hne hs. unfold discovery_call in *. simpl in Hh.
  unfold ServerListManager.fetch_remote, bind at 1, ServerListManager._request,
    bind at 1, http. rewrite Hh. simpl. fold hs.
  destruct hs as [|h hs'] eqn:Hhs; [done|]. simpl. unfold bind.
  pose proof (save_total E O (ServerListManager._formatKey u)
                (Some (JSON_stringify P (h :: hs')))
                (with_wire (wire w ++ [(ByServerListManager,
                   ServerListManager.discovery_request O
                     (ServerListManager._getRequestUrl P O u))]) w)) as Hs.
  destruct (Snapshot.save _ _ _ _ _) as [[[]|e] w1]; simpl in *; done.
Qed.

Lemma save_cache key v w :
  _serverListCache (Snapshot.save E O key v w).2 = _serverListCache w.
Proof.
  unfold Snapshot.save, try_catch, bind, mkdirp, fs_writeFile, Snapshot.emit_error, modify.
  by repeat case_match; simplify_eq.
Qed.

Lemma save_wire key v w : wire (Snapshot.save E O key v w).2 = wire w.
Proof.
  unfold Snapshot.save, try_catch, bind, mkdirp, fs_writeFile, Snapshot.emit_error, modify.
  by repeat case_match; simplify_eq.
Qed.

Lemma fetch_snapshot_footprint u err w :
  exists r,
    (ServerListManager.fetch_snapshot P E O u err w).1 = Return r /\
    wire (ServerListManager.fetch_snapshot P E O u err w).2 = wire w /\
    _serverListCache (ServerListManager.fetch_snapshot P E O u err w).2 =
      _serverListCache w.
Proof.
  rewrite fetch_snapshot_result. cbv zeta.
  repeat case_match; simpl; eexists; (split; [done|]); try done.
  rewrite delete_result. by case_match.
Qed.

(** [_fetchServerList] makes one discovery call, never throws, and
    stores what it returns under the unit: [null], or a pool with a host
    and the index the random source gave for its length. *)
Lemma fetchServerList_shape u w :
  exists r w1,
    ServerListManager._fetchServerList P E O u w =
      (Return r, with_cache (<[u := r]> (_serverListCache w)) w1) /\
    wire w1 = wire w ++ [discovery_call P O u] /\
    match r with
    | None => True
    | Some pool =>
        hosts pool <> [] /\ index pool = random E (length (hosts pool))
    end.
Proof.
  destruct (discovery_cases u) as [Hf|(body & Hh & Hne)].
  - destruct (fetch_remote_fails P E O u w Hf) as [err Hr].
    rewrite (fetchServerList_failed _ _ _ _ _ _ _ Hr). unfold bind.
    destruct (fetch_snapshot_footprint u err
                (with_wire (wire w ++ [(ByServerListManager,
                   ServerListManager.discovery_request O
                     (ServerListManager._getRequestUrl P O u))]) w))
      as (r & Hres & Hw & Hc).
    destruct (ServerListManager.fetch_snapshot _ _ _ _ _ _) as [[hs|e] w1];
      simpl in *; [|done].
    destruct hs as [[|h hs]|].
    + exists None, w1. rewrite <- Hc. by repeat split.
    + eexists (Some _), w1. rewrite <- Hc. split; [done|]. by repeat split.
    + exists None, w1. rewrite <- Hc. by repeat split.
  - unfold ServerListManager._fetchServerList, bind at 1, try_catch, bind at 1.
    rewrite (fetch_remote_succeeds u w body Hh Hne). cbv zeta.
    set (hs := ServerListManager.parse_hosts _) in *.
    set (w1 := (Snapshot.save _ _ _ _ _).2).
    unfold ret. rewrite populate_hosts by done. cbv zeta.
    eexists (Some _), w1. split; [|split].
    + do 2 f_equal. subst w1. by rewrite save_cache.
    + subst w1. by rewrite save_wire.
    + done.
Qed.

(** [getOne] by the entry of the unit. *)
Lemma getOne_cold u w :
  (forall pool, _serverListCache w !! u <> Some (Some pool)) ->
  ServerListManager.getOne P E O u w =
    bind (ServerListManager._fetchServerList P E O u)
      (fun serverData =>
         match serverData with
         | None => ret None
         | Some serverData =>
             if (length (hosts serverData) =? 0)%nat then ret None
             else
               let choosed := hosts serverData !! index serverData in
               let index' := (index serverData + 1)%nat in
               let index' :=
                 if (length (hosts serverData) <=? index')%nat then 0%nat else index' in
               ServerListManager.cache_set u
                 (Some {| hosts := hosts serverData; index := index' |});;
               ret choosed
         end) w.
Proof.
  intros Hc. unfold ServerListManager.getOne, bind at 1, gets.
  destruct (_serverListCache w !! u) as [[pool|]|] eqn:Hl; [|done..].
  by destruct (Hc pool).
Qed.


End ManagerFacts.

(** X5. The unit names [fetchUnitLists] returns are the lines of the
    answer as [parse_hosts] keeps them: none is empty, none begins or
    ends with white space, none holds a line feed. The call puts one
    request on the wire and leaves the cache of pools, the disk and the
    manager's error events as they were. *)
Theorem fetchUnitLists_units E O w units :
  (ServerListManager.fetchUnitLists E O w).1 = Return units ->
  Forall clean_line units /\
  wire (ServerListManager.fetchUnitLists E O w).2 =
    wire w ++ [(ByServerListManager,
                ServerListManager.discovery_request O
                  ("http://" +:+ nameServerAddr O +:+ "/diamond-server/unit-list?nofix=1"))] /\
  _serverListCache (ServerListManager.fetchUnitLists E O w).2 = _serverListCache w /\
  disk (ServerListManager.fetchUnitLists E O w).2 = disk w /\
  mgr_errors (ServerListManager.fetchUnitLists E O w).2 = mgr_errors w.
Proof.
  unfold ServerListManager.fetchUnitLists, bind, ServerListManager._request, bind, http.
  destruct (httpclient E _) as [status body|e]; simpl; [|done].
  destruct (negb (status =? 200)); simpl; [done|].
  intros [= <-]. split; [|done].
  apply Forall_forall. intros h. apply parse_hosts_clean.
Qed.

Lemma fetchUnitLists_units_witness :
  let E := stubE (HttpRes 200 (Some (" u1 " +:+ String "010" (String "010" ("u2" +:+ String "013" ""))))) (HttpRes 200 None) in
  (ServerListManager.fetchUnitLists E stubO pooled).1 = Return ["u1"; "u2"] /\
  Forall clean_line ["u1"; "u2"].
Proof.
  intros E. split; [vm_compute; reflexivity|].
  apply (fetchUnitLists_units E stubO pooled ["u1"; "u2"]). vm_compute; reflexivity.
Defined.



(** X7. A pool in the cache is used without a request. A unit with no
    entry, or with a [null] entry, costs one discovery request on every
    call of [getOne]: a failed discovery is not remembered. *)
Theorem getOne_requests P E O u w :
  wire (ServerListManager.getOne P E O u w).2 =
    wire w ++
    match _serverListCache w !! u with
    | Some (Some _) => []
    | _ => [discovery_call P O u]
    end.
Proof.
  assert (Hcold : (forall pool, _serverListCache w !! u <> Some (Some pool)) ->
    wire (ServerListManager.getOne P E O u w).2 = wire w ++ [discovery_call P O u]).
  { intros Hc. rewrite getOne_cold by done. unfold bind.
    destruct (fetchServerList_shape P E O u w) as (r & w1 & -> & Hw1 & _).
    destruct r as [pool|]; simpl; [|done].
    by destruct (length (hosts pool) =? 0)%nat. }
  destruct (_serverListCache w !! u) as [[pool|]|] eqn:Hl.
  - unfold ServerListManager.getOne, bind, gets. rewrite Hl. simpl.
    rewrite app_nil_r. by destruct (length (hosts pool) =? 0)%nat.
  - apply Hcold. intros pool. congruence.
  - apply Hcold. intros pool. congruence.
Qed.

Section RefreshFacts.
Context (P : Platform) (E : Env) (O : Options).

Lemma refresh_gather units : forall w,
  (forall u, u ∈ units -> is_Some (_serverListCache w !! u)) ->
  exists rs w',
    co_gather (map (ServerListManager._fetchServerList P E O) units) w = (Return rs, w') /\
    Forall (fun r => exists a, r = Return a) rs /\
    dom (_serverListCache w') = dom (_serverListCache w) /\
    wire w' = wire w ++ map (discovery_call P O) units.
Proof.
  induction units as [|u us IH]; intros w Hin.
  - exists [], w. simpl. by rewrite app_nil_r.
  - simpl. destruct (fetchServerList_shape P E O u w) as (r & w1 & -> & Hw1 & _).
    set (w2 := with_cache _ w1).
    destruct (IH w2) as (rs & w' & -> & Hrs & Hdom & Hwire).
    { intros u' Hu'. subst w2. simpl.
      destruct (decide (u' = u)) as [->|Hne]; [by rewrite lookup_insert_eq|].
      rewrite lookup_insert_ne by done. apply Hin. by right. }
    exists (Return r :: rs), w'. split; [done|]. split; [constructor; eauto|].
    split.
    + rewrite Hdom. subst w2. simpl. rewrite dom_insert_L.
      apply subseteq_union_1_L, singleton_subseteq_l, elem_of_dom, Hin. by left.
    + rewrite Hwire. subst w2. simpl. by rewrite Hw1, <- app_assoc.
Qed.

Lemma refresh_reports_nothing (rs : list (outcome (option ServerData))) w :
  Forall (fun r => exists a, r = Return a) rs ->
  fold_right
    (fun r rest =>
       match r with
       | Return _ => rest
       | Throw e =>
           ServerListManager.emit_error (new_Error "DiamondUpdateServersError");; rest
       end)
    (ret ()) rs w = (Return (), w).
Proof. induction 1 as [|r rs [a ->] _ IH]; [done|]. simpl. apply IH. Qed.
End RefreshFacts.

(** X8. One turn of the refresh loop never throws. It runs over the
    keys of the cache, each once; for any list of keys of the cache it
    asks the name server once per key, in the order of the list, and
    keeps the units of the cache as they are: none is added, none is
    dropped. No fetch of the turn is an error result, so the turn itself
    reports nothing: the manager's error events after it are those the
    fetches have emitted. *)
Theorem syncServers_turn P E O w :
  (exists units,
     NoDup units /\
     (forall u, u ∈ units <-> is_Some (_serverListCache w !! u)) /\
     ServerListManager._syncServers_turn P E O w =
       ServerListManager.refresh P E O units w) /\
  (forall units,
     (forall u, u ∈ units -> is_Some (_serverListCache w !! u)) ->
     let r := ServerListManager.refresh P E O units w in
     r.1 = Return () /\
     dom (_serverListCache r.2) = dom (_serverListCache w) /\
     wire r.2 = wire w ++ map (discovery_call P O) units /\
     mgr_errors r.2 =
       mgr_errors (co_gather (map (ServerListManager._fetchServerList P E O) units) w).2).
Proof.
  split.
  - exists (map_to_list (_serverListCache w)).*1. split; [|split].
    + apply NoDup_fst_map_to_list.
    + intros u. split.
      * intros (kv & -> & Hkv)%list_elem_of_fmap. destruct kv as [k v].
        apply elem_of_map_to_list in Hkv. simpl. by rewrite Hkv.
      * intros [v Hv]. apply list_elem_of_fmap. exists (u, v).
        split; [done|]. by apply elem_of_map_to_list.
    + done.
  - intros units Hunits r. subst r.
    destruct (refresh_gather P E O units w Hunits) as (rs & w' & Hg & Hrs & Hdom & Hwire).
    assert (Hrun : ServerListManager.refresh P E O units w = (Return (), w')).
    { unfold ServerListManager.refresh, bind. rewrite Hg.
      by rewrite refresh_reports_nothing. }
    rewrite Hrun, Hg. simpl. by repeat split.
Qed.

(** A turn over a pool and a [null] entry, the name server down: both
    units are asked for, and both stay in the cache. *)
Lemma syncServers_turn_witness :
  let E := stubE (HttpRes 503 None) (HttpRes 200 None) in
  let r := ServerListManager.refresh stubP E stubO ["u2"; "u1"] pooled2 in
  r.1 = Return () /\
  dom (_serverListCache r.2) = dom (_serverListCache pooled2) /\
  map (fun c => req_url c.2) (wire r.2) =
    ["http://acm:8080/diamond-server/diamond-unit-u2?nofix=1";
     "http://acm:8080/diamond-server/diamond-unit-u1?nofix=1"].
Proof.
  intros E r.
  destruct (syncServers_turn stubP E stubO pooled2) as [_ Hturn].
  destruct (Hturn ["u2"; "u1"]) as (Hret & Hdom & Hwire & _).
  - intros u Hu. unfold pooled2, pooled. simpl.
    apply elem_of_cons in Hu as [->|Hu].
    + rewrite lookup_insert_eq. by eexists.
    + apply list_elem_of_singleton in Hu as ->.
      rewrite lookup_insert_ne by done. rewrite lookup_singleton_eq. by eexists.
  - fold r in Hret, Hdom, Hwire. split; [exact Hret|]. split; [exact Hdom|].
    rewrite Hwire. reflexivity.
Defined.





(** ** The verbs that write to the server *)

Section WriteFacts.
Context (P : Platform) (E : Env) (O : Options).



End WriteFacts.


Section OutageFacts.
Context (P : Platform) (E : Env) (O : Options).


(** A verb whose request is answered with 200 or 404. *)
Lemma write_verb_answered path options h w :
  _currentServer w = Some h -> h <> "" ->
  let r := DiamondEnv.outbound P E O (Some h) path options in
  (exists status body,
     httpclient E r = HttpRes status body /\ (status = 200 \/ status = 404)) ->
  bind (DiamondEnv._request P E O path options) (fun _ => ret true) w =
    (Return true, sent r w).
Proof.
  intros Hs Hh r (status & body & Hres & Hstatus). unfold bind.
  rewrite (request_result P E O path options w w
             (select_server_selected P E O h w Hs Hh)).
  cbv zeta. rewrite Hs. fold r. rewrite Hres.
  by destruct Hstatus as [-> | ->].
Qed.
End OutageFacts.



(** X13. For the verbs that write, a server that answers 404 counts like
    one that answers 200: with a server selected and every request
    answered with one of the two statuses, each of [publishSingle],
    [remove], [publishAggr] and [removeAggr] returns [true], sends one
    request and keeps the selected server. *)
Theorem write_verbs_not_found_is_success P E O appName dataId group datumId content h w :
  _currentServer w = Some h -> h <> "" ->
  (forall r, exists status body,
     httpclient E r = HttpRes status body /\ (status = 200 \/ status = 404)) ->
  Forall (fun m : M bool =>
      (m w).1 = Return true /\
      _currentServer (m w).2 = Some h /\
      exists r, wire (m w).2 = wire w ++ [(ByDiamondEnv, r)])
    (write_verbs P E O appName dataId group datumId content).
Proof.
  intros Hs Hh Hans.
  assert (Hverb : forall path options,
    let m := bind (DiamondEnv._request P E O path options) (fun _ => ret true) in
    (m w).1 = Return true /\
    _currentServer (m w).2 = Some h /\
    exists r, wire (m w).2 = wire w ++ [(ByDiamondEnv, r)]).
  { intros path options m. subst m.
    rewrite (write_verb_answered P E O path options h w Hs Hh (Hans _)).
    simpl. by eauto. }
  unfold write_verbs, DiamondEnv.publishSingle, DiamondEnv.remove,
    DiamondEnv.publishAggr, DiamondEnv.removeAggr.
  repeat (apply List.Forall_cons; [exact (Hverb _ _)|]).
  apply List.Forall_nil.
Qed.

Lemma write_verbs_not_found_is_success_witness :
  let E := stubE (HttpRes 404 None) (HttpRes 404 None) in
  Forall (fun m : M bool => (m two_subscriptions).1 = Return true)
    (write_verbs stubP E stubO JUndefined "d" "g" "k" "v").
Proof.
  intros E.
  eapply Forall_impl;
    [apply (write_verbs_not_found_is_success stubP E stubO JUndefined "d" "g" "k" "v"
              "h1" two_subscriptions)|].
  - reflexivity.
  - discriminate.
  - intros r. exists 404, None. split; [|by right].
    unfold E, stubE. simpl. by destruct (String.prefix _ _).
  - intros m [Hm _]. exact Hm.
Defined.

(** X14. A 409 is thrown as [DiamondServerConflictError]. The body of
    the answer is not kept on the error. As for the other failures, the
    current host is selected anew from the server list manager; when the
    manager gives a host the error carries [url], [data] and [headers],
    and when it gives none [DiamondServerUnavailableError] is thrown in
    place of the conflict. *)
Theorem request_conflict P E O path options w w0 body :
  let r := DiamondEnv.outbound P E O (_currentServer w0) path options in
  let out := DiamondEnv._request P E O path options w in
  let reselect := DiamondEnv._updateCurrentServer P E O (sent r w0) in
  DiamondEnv.select_server P E O w = (Return (), w0) ->
  httpclient E r = HttpRes 409 body ->
  out.2 = reselect.2 /\
  match reselect.1 with
  | Return _ =>
      exists err, out.1 = Throw err /\
        err_name err = "DiamondServerConflictError" /\
        err_body err = None /\
        err_url err = Some (DiamondEnv.method options +:+ " " +:+ req_url r) /\
        err_data err = Some (PObject (DiamondEnv.data options)) /\
        err_headers err = Some (req_headers r)
  | Throw e =>
      out.1 = Throw e /\ err_name e = "DiamondServerUnavailableError"
  end.
Proof.
  intros r out reselect Hsel Hres.
  pose proof (request_result P E O path options w w0 Hsel) as Hreq.
  simpl in Hreq. fold r out in Hreq. rewrite Hres in Hreq. simpl in Hreq.
  rewrite Hreq, on_failure_result. fold reselect.
  destruct (updateCurrentServer_result P E O (sent r w0)) as (s & _ & _ & Hcase).
  fold reselect in Hcase.
  destruct reselect as [[[]|e] w']; simpl in *.
  - split; [done|]. by eexists.
  - split; [done|]. destruct Hcase as [?|[= ->]]; done.
Qed.

Lemma request_conflict_witness :
  let E := stubE two_hosts (HttpRes 409 (Some "busy")) in
  let out := DiamondEnv._request stubP E stubO "/basestone.do?method=syncUpdateAll"
               (DiamondEnv.config_options stubO "d" "g") (fresh ∅) in
  _currentServer out.2 = Some "h2" /\
  exists err, out.1 = Throw err /\
    err_name err = "DiamondServerConflictError" /\ err_body err = None.
Proof.
  intros E out.
  pose (w0 := (DiamondEnv.select_server stubP E stubO (fresh ∅)).2).
  destruct (request_conflict stubP E stubO "/basestone.do?method=syncUpdateAll"
              (DiamondEnv.config_options stubO "d" "g") (fresh ∅) w0 (Some "busy"))
    as (Hw & Herr); [vm_compute; reflexivity | vm_compute; reflexivity |].
  split.
  - fold out in Hw. rewrite Hw. vm_compute. reflexivity.
  - set (re := (DiamondEnv._updateCurrentServer stubP E stubO _).1) in Herr.
    assert (Hre : re = Return ()) by (vm_compute; reflexivity).
    rewrite Hre in Herr. destruct Herr as (err & Hout & Hname & Hbody & _).
    exists err. split; [exact Hout|]. split; [exact Hname | exact Hbody].
Defined.



(** ** [split] and the probe answer *)

Lemma split_go_app sep a : forall cur rest,
  contains sep a = false ->
  split_go sep (a +:+ String sep rest) cur =
    (String.rev cur +:+ a) :: split_go sep rest "".
Proof.
  induction a as [|c a IH]; intros cur rest Ha.
  - change ("" +:+ String sep rest) with (String sep rest). simpl.
    by rewrite Ascii.eqb_refl, string_app_nil_r.
  - change (String c a +:+ String sep rest) with (String c (a +:+ String sep rest)).
    simpl in *. apply orb_false_iff in Ha as [Hc Ha]. rewrite Hc.
    rewrite IH by done. by rewrite rev_cons, string_app_assoc.
Qed.

Lemma split_go_plain sep a : forall cur,
  contains sep a = false ->
  split_go sep a cur = [String.rev cur +:+ a].
Proof.
  induction a as [|c a IH]; intros cur Ha.
  - simpl. by rewrite string_app_nil_r.
  - simpl in *. apply orb_false_iff in Ha as [Hc Ha]. rewrite Hc.
    rewrite IH by done. by rewrite rev_cons, string_app_assoc.
Qed.

Lemma split_app sep a rest :
  contains sep a = false ->
  split sep (a +:+ String sep rest) = a :: split sep rest.
Proof. intros Ha. unfold split. by rewrite split_go_app. Qed.

Lemma split_plain sep a : contains sep a = false -> split sep a = [a].
Proof. intros Ha. unfold split. by rewrite split_go_plain. Qed.

(** Splitting what was joined gives the pieces back. *)
Lemma split_concat sep x l :
  Forall (fun s => contains sep s = false) (x :: l) ->
  split sep (String.concat (String sep "") (x :: l)) = x :: l.
Proof.
  revert x. induction l as [|y l IH]; intros x Hall.
  - simpl. apply split_plain. by inversion Hall.
  - inversion Hall as [|? ? Hx Hl]; subst.
    change (String.concat (String sep "") (x :: y :: l))
      with (x +:+ String sep "" +:+ String.concat (String sep "") (y :: l)).
    change (String sep "" +:+ String.concat (String sep "") (y :: l))
      with (String sep (String.concat (String sep "") (y :: l))).
    rewrite split_app by done. by rewrite IH.
Qed.

Lemma contains_concat c sep l :
  contains c sep = false ->
  Forall (fun s => contains c s = false) l ->
  contains c (String.concat sep l) = false.
Proof.
  intros Hsep. induction 1 as [|x l Hx Hl IH]; [done|].
  destruct l as [|y l]; [done|].
  change (String.concat sep (x :: y :: l))
    with (x +:+ sep +:+ String.concat sep (y :: l)).
  by rewrite !contains_app, Hx, Hsep, IH.
Qed.

Section ParseFacts.
Context (P : Platform).

Lemma parse_line_row (i : info) (extra : list string) :
  Forall (fun s => contains Constants.WORD_SEPARATOR_CHAR s = false)
    (info_dataId i :: info_group i :: extra) ->
  DiamondEnv.parse_line
    (String.concat Constants.WORD_SEPARATOR (info_dataId i :: info_group i :: extra)) = [i].
Proof.
  intros Hall. unfold DiamondEnv.parse_line.
  unfold Constants.WORD_SEPARATOR. rewrite split_concat by done.
  set (line := String.concat _ _).
  assert (Hne : line <> "").
  { subst line. destruct i as [d g]. simpl. by destruct d. }
  clearbody line. unfold truthy.
  destruct (String.eqb_spec line ""); [done|]. by destruct i.
Qed.

Lemma update_body_cons i extra rows :
  update_body ((i, extra) :: rows) =
    String.concat Constants.WORD_SEPARATOR (info_dataId i :: info_group i :: extra)
      +:+ String Constants.LINE_SEPARATOR_CHAR (update_body rows).
Proof.
  change (update_body ((i, extra) :: rows))
    with (update_row (i, extra) +:+ update_body rows).
  unfold update_row. by rewrite string_app_assoc.
Qed.

Lemma parse_update_body rows :
  Forall (fun r => Forall plain (info_dataId r.1 :: info_group r.1 :: r.2)) rows ->
  flat_map DiamondEnv.parse_line (split Constants.LINE_SEPARATOR_CHAR (update_body rows)) =
    map fst rows.
Proof.
  induction 1 as [|[i extra] rows Hr Hrows IH]; [done|].
  cbn [fst snd] in Hr. rewrite update_body_cons, split_app.
  - cbn [flat_map map fst]. rewrite IH, parse_line_row; [done|].
    eapply Forall_impl; [exact Hr|]. by intros s [? ?].
  - apply contains_concat; [done|].
    eapply Forall_impl; [exact Hr|]. by intros s [? ?].
Qed.
End ParseFacts.

(** X16. The parser of the probe answer reads back the lines of the
    protocol. For an answer made of lines [dataId WORD group (WORD
    field)* LINE] whose fields hold no separator, and which URI-decodes
    to itself, [_parseUpdateDataIdResponse] returns the [dataId] and
    [group] of every line, in order; the further fields of a line (an
    md5, a tenant) are dropped. *)
Theorem parseUpdateDataIdResponse_rows P rows :
  Forall (fun r => Forall plain (info_dataId r.1 :: info_group r.1 :: r.2)) rows ->
  decodeURIComponent P (update_body rows) = Some (update_body rows) ->
  DiamondEnv._parseUpdateDataIdResponse P (Some (update_body rows)) = Some (map fst rows).
Proof.
  intros Hrows Hdec. unfold DiamondEnv._parseUpdateDataIdResponse. simpl.
  rewrite Hdec. by rewrite parse_update_body.
Qed.

Lemma parseUpdateDataIdResponse_rows_witness :
  DiamondEnv._parseUpdateDataIdResponse stubP
    (Some (update_body [({| info_dataId := "a"; info_group := "g" |}, ["ns"]);
                        ({| info_dataId := "b"; info_group := "" |}, [])])) =
  Some [{| info_dataId := "a"; info_group := "g" |};
        {| info_dataId := "b"; info_group := "" |}].
Proof.
  apply (parseUpdateDataIdResponse_rows stubP
    [({| info_dataId := "a"; info_group := "g" |}, ["ns"]);
     ({| info_dataId := "b"; info_group := "" |}, [])]).
  - repeat constructor.
  - reflexivity.
Defined.

(** ** Keys *)

Lemma app_inj_sep sep a : forall b x y,
  contains sep a = false -> contains sep b = false ->
  a +:+ String sep x = b +:+ String sep y -> a = b /\ x = y.
Proof.
  induction a as [|c a IH]; intros [|c' b] x y Ha Hb.
  - change ("" +:+ String sep x) with (String sep x).
    change ("" +:+ String sep y) with (String sep y). by intros [= ->].
  - change ("" +:+ String sep x) with (String sep x).
    change (String c' b +:+ String sep y) with (String c' (b +:+ String sep y)).
    intros [= <- _]. simpl in Hb. by rewrite Ascii.eqb_refl in Hb.
  - change ("" +:+ String sep y) with (String sep y).
    change (String c a +:+ String sep x) with (String c (a +:+ String sep x)).
    intros [= -> _]. simpl in Ha. by rewrite Ascii.eqb_refl in Ha.
  - change (String c a +:+ String sep x) with (String c (a +:+ String sep x)).
    change (String c' b +:+ String sep y) with (String c' (b +:+ String sep y)).
    intros [= -> H]. simpl in Ha, Hb.
    apply orb_false_iff in Ha as [_ Ha]. apply orb_false_iff in Hb as [_ Hb].
    destruct (IH b x y Ha Hb H) as [-> ->]. done.
Qed.

Lemma app_inv_tail (a b c : string) : a +:+ c = b +:+ c -> a = b.
Proof.
  intros H. apply (f_equal String.rev) in H. rewrite !rev_app_distr in H.
  apply append_cancel in H. apply (f_equal String.rev) in H.
  by rewrite !rev_involutive in H.
Qed.

Lemma concat_snoc sep l x :
  l <> [] -> String.concat sep (l ++ [x]) = String.concat sep l +:+ sep +:+ x.
Proof.
  induction l as [|y l IH]; [done|]. intros _.
  destruct l as [|z l]; [done|].
  change (String.concat sep ((y :: z :: l) ++ [x]))
    with (y +:+ sep +:+ String.concat sep ((z :: l) ++ [x])).
  rewrite IH by done.
  change (String.concat sep (y :: z :: l))
    with (y +:+ sep +:+ String.concat sep (z :: l)).
  by rewrite !string_app_assoc.
Qed.

(** The snapshot key of a configuration with plain names: what comes
    before the group is the same for every configuration. *)
Lemma snapshotKey_plain O :
  exists pre, forall d g, g <> "" -> d <> "" ->
    DiamondEnv._getSnapshotKey O d g = pre +:+ String "/" (g +:+ String "/" d).
Proof.
  set (tenant := if truthy (of_nullable (namespace O))
                 then Snapshot.or_empty (namespace O) else "default_tenant").
  exists (String.concat "/" (filter (fun s => s <> "") ["config"; unit O; tenant])).
  intros d g Hg Hd. unfold DiamondEnv._getSnapshotKey. fold tenant. unfold path_join.
  change ["config"; unit O; tenant; g; d] with (["config"; unit O; tenant] ++ [g; d]).
  rewrite filter_app.
  assert (filter (fun s => s <> "") [g; d] = [g; d]) as ->.
  { rewrite !filter_cons, filter_nil. by repeat case_decide. }
  set (l := filter _ ["config"; unit O; tenant]).
  assert (Hl : l <> []).
  { subst l. rewrite filter_cons. by case_decide. }
  assert (Hjoin : String.concat "/" (l ++ [g; d]) =
                  String.concat "/" l +:+ String "/" (g +:+ String "/" d)).
  { change (l ++ [g; d]) with (l ++ [g] ++ [d]). rewrite app_assoc.
    rewrite concat_snoc by (by destruct l). rewrite concat_snoc by done.
    by rewrite !string_app_assoc. }
  rewrite <- Hjoin. by destruct (l ++ [g; d]) eqn:Hld; [destruct l|].
Qed.

(** X17. Subscriptions are keyed without collision. Two descriptors
    whose [dataId] holds no [@] have the same subscription key only if
    they have the same [dataId] and the same [group]; a [group], and the
    unit, may hold any character. *)
Theorem formatKey_injective O i j :
  contains "@" (info_dataId i) = false ->
  contains "@" (info_dataId j) = false ->
  DiamondEnv._formatKey O i = DiamondEnv._formatKey O j ->
  i = j.
Proof.
  intros Hi Hj. unfold DiamondEnv._formatKey.
  change (info_dataId i +:+ "@" +:+ info_group i +:+ "@" +:+ unit O)
    with (info_dataId i +:+ String "@" (info_group i +:+ String "@" (unit O))).
  change (info_dataId j +:+ "@" +:+ info_group j +:+ "@" +:+ unit O)
    with (info_dataId j +:+ String "@" (info_group j +:+ String "@" (unit O))).
  intros [Hd Hg]%app_inj_sep; [|done..].
  apply app_inv_tail in Hg. destruct i, j. simpl in *. by subst.
Qed.

Lemma formatKey_injective_witness :
  DiamondEnv._formatKey stubO {| info_dataId := "d"; info_group := "g@x" |} <>
  DiamondEnv._formatKey stubO {| info_dataId := "d"; info_group := "g" |}.
Proof.
  intros H.
  pose proof (formatKey_injective stubO
                {| info_dataId := "d"; info_group := "g@x" |}
                {| info_dataId := "d"; info_group := "g" |} eq_refl eq_refl H) as Heq.
  discriminate Heq.
Defined.

(** X18. Snapshot files are not shared. Two configurations whose
    [group] and [dataId] are plain path segments are stored in the same
    snapshot file only if they have the same [dataId] and the same
    [group]: no [getConfig] overwrites the snapshot of another
    configuration. *)
Theorem config_file_injective O d1 g1 d2 g2 :
  plain_segment g1 -> plain_segment d1 -> plain_segment g2 -> plain_segment d2 ->
  config_file O d1 g1 = config_file O d2 g2 ->
  d1 = d2 /\ g1 = g2.
Proof.
  intros (Hg1 & Hs1 & _) (Hd1 & _) (Hg2 & Hs2 & _) (Hd2 & _).
  unfold config_file, Snapshot._getSnapshotFile.
  destruct (snapshotKey_plain O) as [pre Hkey].
  rewrite (Hkey d1 g1), (Hkey d2 g2) by done.
  destruct (path_join_snapshot (cacheDir O) "k") as [dir Hdir]; [done|].
  rewrite !Hdir by (by destruct pre).
  intros H. apply append_cancel, append_cancel in H.
  injection H as H. by apply app_inj_sep in H as [-> ->].
Qed.

Lemma config_file_injective_witness :
  config_file stubO "d" "g" = demo_file /\
  config_file stubO "d" "g" <> config_file stubO "g" "d".
Proof.
  split; [reflexivity|]. intros H.
  destruct (config_file_injective stubO "d" "g" "g" "d") as [Hd _];
    [repeat split; discriminate..| exact H |].
  discriminate Hd.
Defined.

(** ** The table of subscriptions *)

Lemma Map_get_elem {V} k (v : V) m : Map_get k m = Some v -> (k, v) ∈ m.
Proof.
  induction m as [|[k' v'] m IH]; simpl; [done|].
  destruct (String.eqb_spec k k') as [->|_].
  - intros [= ->]. by left.
  - intros H. right. by apply IH.
Qed.

Lemma Map_set_keys {V} k (v : V) m x :
  x ∈ map fst (Map_set k v m) -> x = k \/ x ∈ map fst m.
Proof.
  induction m as [|[k' v'] m IH]; simpl.
  - intros ->%list_elem_of_singleton. by left.
  - destruct (String.eqb_spec k k') as [->|_]; simpl.
    + intros [->|H]%elem_of_cons; [by left|]. right. by right.
    + intros [->|H]%elem_of_cons; [right; by left|].
      destruct (IH H) as [->|?]; [by left|]. right. by right.
Qed.

Lemma Map_set_NoDup {V} k (v : V) m :
  NoDup (map fst m) -> NoDup (map fst (Map_set k v m)).
Proof.
  induction m as [|[k' v'] m IH]; simpl.
  - intros _. apply NoDup_singleton.
  - intros [Hk' Hm]%NoDup_cons. destruct (String.eqb_spec k k') as [->|Hne]; simpl.
    + by apply NoDup_cons.
    + apply NoDup_cons. split; [|by apply IH].
      intros [->|H]%Map_set_keys; done.
Qed.

Lemma Map_set_Forall {V} (Q : string * V -> Prop) k (v : V) m :
  Q (k, v) -> Forall Q m -> Forall Q (Map_set k v m).
Proof.
  intros Hkv. induction 1 as [|[k' v'] m Hx Hm IH]; simpl.
  - by repeat constructor.
  - destruct (String.eqb k k'); by constructor.
Qed.

Lemma Map_delete_NoDup {V} k (m : list (string * V)) :
  NoDup (map fst m) -> NoDup (map fst (Map_delete k m)).
Proof.
  unfold Map_delete. induction m as [|[k' v'] m IH]; [done|].
  simpl. intros [Hk' Hm]%NoDup_cons. rewrite filter_cons. simpl.
  destruct (negb (String.eqb k k')); simpl; [|by apply IH].
  apply NoDup_cons. split; [|by apply IH].
  intros (kv & Hkv & Hin)%list_elem_of_fmap. apply list_elem_of_filter in Hin as [_ Hin].
  apply Hk'. apply list_elem_of_fmap. by exists kv.
Qed.

Lemma Map_delete_Forall {V} (Q : string * V -> Prop) k (m : list (string * V)) :
  Forall Q m -> Forall Q (Map_delete k m).
Proof.
  intros Hm. apply Forall_forall. intros kv [_ Hin]%list_elem_of_filter.
  rewrite Forall_forall in Hm. by apply Hm.
Qed.

Section PreservesRules.
Context (Inv : World -> Prop).

Lemma preserves_ret {A} (a : A) : preserves Inv (ret a).
Proof. by intros w. Qed.

Lemma preserves_throw {A} (e : error) : preserves Inv (@throw A e).
Proof. by intros w. Qed.

Lemma preserves_gets {A} (g : World -> A) : preserves Inv (gets g).
Proof. by intros w. Qed.

Lemma preserves_bind {A B} (m : M A) (k : A -> M B) :
  preserves Inv m -> (forall a, preserves Inv (k a)) -> preserves Inv (bind m k).
Proof.
  intros Hm Hk w Hw. unfold bind. specialize (Hm w Hw).
  destruct (m w) as [[a|e] w1]; simpl in *; [|done]. by apply Hk.
Qed.

Lemma preserves_try_catch {A} (m : M A) (h : error -> M A) :
  preserves Inv m -> (forall e, preserves Inv (h e)) -> preserves Inv (try_catch m h).
Proof.
  intros Hm Hh w Hw. unfold try_catch. specialize (Hm w Hw).
  destruct (m w) as [[a|e] w1]; simpl in *; [done|]. by apply Hh.
Qed.

Lemma preserves_gather {A} (tasks : list (M A)) :
  Forall (preserves Inv) tasks -> preserves Inv (DiamondEnv.gather tasks).
Proof.
  induction 1 as [|t tasks Ht _ IH]; [apply preserves_ret|].
  intros w Hw. simpl. specialize (Ht w Hw). destruct (t w) as [r w1]. simpl in Ht.
  specialize (IH w1 Ht). by destruct (DiamondEnv.gather tasks w1) as [[rs|e] w2].
Qed.
End PreservesRules.

Section EngineFacts.
Context (P : Platform) (E : Env) (O : Options).

(** What leaves the table alone keeps it in order. *)
Lemma preserves_frame {A} (m : M A) :
  frame _subscriptions m -> preserves (engine_ok P O) m.
Proof. intros Hm w Hw. unfold engine_ok. by rewrite Hm. Qed.

Lemma engine_ok_set k row w :
  row_ok P O (k, row) ->
  engine_ok P O w ->
  engine_ok P O (with_subscriptions (Map_set k row (_subscriptions w)) w).
Proof.
  intros Hrow [Hnd Hall]. split; simpl.
  - by apply Map_set_NoDup.
  - by apply Map_set_Forall.
Qed.

Lemma preserves_error err : preserves (engine_ok P O) (DiamondEnv._error err).
Proof. by apply preserves_frame. Qed.

Lemma preserves_getConfig d g : preserves (engine_ok P O) (DiamondEnv.getConfig P E O d g).
Proof. apply preserves_frame. by apply frame_getConfig. Qed.

Lemma preserves_request path options :
  preserves (engine_ok P O) (DiamondEnv._request P E O path options).
Proof. apply preserves_frame. by apply frame_request. Qed.

Lemma preserves_sync_result i r : preserves (engine_ok P O) (DiamondEnv.sync_result P O i r).
Proof.
  intros w Hw. unfold DiamondEnv.sync_result, bind, gets.
  destruct (Map_get _ (_subscriptions w)) as [item|] eqn:Hget; [|done].
  destruct r as [c|e]; [|by apply preserves_error].
  destruct (bool_decide _); [|done]. simpl.
  apply (engine_ok_set _ _ w); [|done].
  destruct Hw as [_ Hall]. apply Map_get_elem in Hget.
  rewrite Forall_forall in Hall. destruct (Hall _ Hget) as [Hkey _].
  split; [done|]. by left.
Qed.

Lemma preserves_sync_results infos : forall results,
  preserves (engine_ok P O) (DiamondEnv.sync_results P O infos results).
Proof.
  induction infos as [|i infos IH]; intros [|r results]; simpl;
    try apply preserves_ret.
  apply preserves_bind; [apply preserves_sync_result|]. intros _. apply IH.
Qed.

Lemma preserves_syncConfigs infos :
  preserves (engine_ok P O) (DiamondEnv._syncConfigs P E O infos).
Proof.
  unfold DiamondEnv._syncConfigs. apply preserves_bind.
  - apply preserves_gather, Forall_forall. intros t Ht.
    apply list_elem_of_fmap in Ht as (i & -> & _). apply preserves_getConfig.
  - apply preserves_sync_results.
Qed.

Lemma preserves_checkServerConfigInfo :
  preserves (engine_ok P O) (DiamondEnv._checkServerConfigInfo P E O).
Proof.
  unfold DiamondEnv._checkServerConfigInfo. apply preserves_bind; [apply preserves_gets|].
  intros subs. destruct (length subs =? 0)%nat; [apply preserves_ret|].
  apply preserves_bind; [apply preserves_request|]. intros content.
  unfold DiamondEnv.sync_updates.
  destruct (DiamondEnv._parseUpdateDataIdResponse P content) as [updateList|];
    [|apply preserves_throw].
  destruct (negb _); [apply preserves_syncConfigs | apply preserves_ret].
Qed.

Lemma preserves_long_pulling fuel isClose :
  preserves (engine_ok P O) (DiamondEnv.long_pulling P E O fuel isClose).
Proof.
  induction fuel as [|fuel IH]; simpl; [apply preserves_ret|].
  apply preserves_bind; [apply preserves_gets|]. intros size.
  destruct (negb isClose && (0 <? size)%nat); [|apply preserves_ret].
  apply preserves_bind; [|by intros _].
  unfold DiamondEnv.long_pulling_turn. apply preserves_try_catch.
  - apply preserves_checkServerConfigInfo.
  - intros e. apply preserves_error.
Qed.

Lemma preserves_subscribe i l : preserves (engine_ok P O) (DiamondEnv.subscribe O i l).
Proof.
  intros w Hw. unfold DiamondEnv.subscribe, bind, on, modify, gets. simpl.
  destruct (Map_get _ (_subscriptions w)) as [item|] eqn:Hget; simpl.
  - by destruct (md5 item).
  - destruct Hw as [Hnd Hall]. split; simpl.
    + by apply Map_set_NoDup.
    + apply Map_set_Forall; [|done]. split; [by destruct i|]. by right.
Qed.

Lemma preserves_unSubscribe i l : preserves (engine_ok P O) (DiamondEnv.unSubscribe O i l).
Proof.
  intros w [Hnd Hall]. unfold DiamondEnv.unSubscribe, bind, gets.
  set (w1 := (match l with
              | Some l0 => removeListener _ l0
              | None => removeAllListeners _
              end w)).
  assert (Hsubs : _subscriptions w1.2 = _subscriptions w).
  { subst w1. destruct l as [l0|]; unfold removeListener, removeAllListeners, modify;
      simpl; [|done]. by repeat case_match. }
  assert (Hret : w1.1 = Return ()).
  { subst w1. by destruct l. }
  destruct w1 as [[[]|e] w1]; simpl in *; [|done].
  destruct (length (listeners_of _ w1) =? 0)%nat; simpl.
  - unfold engine_ok. simpl. rewrite Hsubs.
    split; [by apply Map_delete_NoDup | by apply Map_delete_Forall].
  - unfold engine_ok. by rewrite Hsubs.
Qed.
End EngineFacts.

(** X19. The table of subscriptions stays in order. In a fresh client,
    and from then on through [subscribe], [unSubscribe], [getConfig],
    [_syncConfigs], [_checkServerConfigInfo] and the long-polling loop,
    whether they return or throw: no key has two rows, every row is
    stored under the key of its own [dataId] and [group], and the [md5]
    of a row is the MD5 of the [content] it holds (or both are still
    [null]), so the MD5 sent in a probe is that of the content handed to
    listeners. *)
Theorem engine_invariant P E O :
  (forall d, engine_ok P O (fresh d)) /\
  (forall i l, preserves (engine_ok P O) (DiamondEnv.subscribe O i l)) /\
  (forall i l, preserves (engine_ok P O) (DiamondEnv.unSubscribe O i l)) /\
  (forall d g, preserves (engine_ok P O) (DiamondEnv.getConfig P E O d g)) /\
  (forall infos, preserves (engine_ok P O) (DiamondEnv._syncConfigs P E O infos)) /\
  preserves (engine_ok P O) (DiamondEnv._checkServerConfigInfo P E O) /\
  (forall fuel flags,
     preserves (engine_ok P O) (DiamondEnv._startLongPulling P E O fuel flags)).
Proof.
  split; [|split; [|split; [|split; [|split; [|split]]]]].
  - intros d. split; simpl; constructor.
  - apply preserves_subscribe.
  - apply preserves_unSubscribe.
  - apply preserves_getConfig.
  - apply preserves_syncConfigs.
  - apply preserves_checkServerConfigInfo.
  - intros fuel flags. unfold DiamondEnv._startLongPulling.
    destruct (_isLongPulling flags); [apply preserves_ret|].
    apply preserves_bind; [apply preserves_long_pulling|]. intros ended.
    apply preserves_ret.
Qed.

(** ** [subscribe] and the first value *)

Section SubscribeFacts.
Context (P : Platform) (E : Env) (O : Options).


Lemma subscribe_known i l w row :
  let key := DiamondEnv._formatKey O i in
  let w1 := with_listeners (<[key := listeners_of key w ++ [l]]> (listeners w)) w in
  Map_get key (_subscriptions w) = Some row ->
  DiamondEnv.subscribe O i l w =
    (Return false,
     match md5 row with
     | Some _ => with_ticks (ticks w ++ [TListener key l (content row)]) w1
     | None => w1
     end).
Proof.
  intros key w1 Hget. unfold DiamondEnv.subscribe, bind, on, modify, gets. fold key.
  simpl. rewrite Hget. by destruct (md5 row).
Qed.

End SubscribeFacts.



(** X21. A late subscriber is handed the current value by a deferred
    call, and shares the emits that are still queued. Subscribing to a
    configuration that has a row creates no second row and makes no
    request; when the row holds an MD5, one call of the new listener
    with the content of the row is deferred. The next turn of the event
    loop runs what was queued before, now with the new listener among
    the listeners of the key, and the deferred call. So with nothing
    queued the new listener, and only it, is called once; but in the
    window after a synchronisation has queued its emit, the new listener
    is called by the deferred call and again by the emit, which the
    older listeners receive too. *)
Theorem subscribe_late_value O i l w row :
  let key := DiamondEnv._formatKey O i in
  let w' := (DiamondEnv.subscribe O i l w).2 in
  let first_value :=
    match md5 row with
    | Some _ => [ByCall key l (content row)]
    | None => []
    end in
  Map_get key (_subscriptions w) = Some row ->
  (DiamondEnv.subscribe O i l w).1 = Return false /\
  _subscriptions w' = _subscriptions w /\
  wire w' = wire w /\
  listeners_of key w' = listeners_of key w ++ [l] /\
  delivered (run_event_loop w') =
    delivered w ++ flat_map (task_deliveries (listeners w')) (ticks w) ++
    first_value ++ flat_map (task_deliveries (listeners w')) (immediates w) /\
  (ticks w = [] -> immediates w = [] ->
   delivered (run_event_loop w') = delivered w ++ first_value) /\
  (forall c,
     ticks w = [] -> immediates w = [TEmit key c] ->
     delivered (run_event_loop w') =
       delivered w ++ first_value ++
       map (fun l' => ByEmit key l' c) (listeners_of key w ++ [l])).
Proof.
  intros key w' first_value Hrow.
  assert (Hw' : listeners w' = <[key := listeners_of key w ++ [l]]> (listeners w) /\
                ticks w' = ticks w ++ match md5 row with
                                      | Some _ => [TListener key l (content row)]
                                      | None => []
                                      end /\
                immediates w' = immediates w /\ delivered w' = delivered w /\
                _subscriptions w' = _subscriptions w /\ wire w' = wire w).
  { unfold w'. rewrite (subscribe_known O i l w row Hrow). fold key. simpl.
    destruct (md5 row); simpl; by rewrite ?app_nil_r. }
  destruct Hw' as (HL & HT & HI & HD & HS & HW).
  assert (Hl : listeners_of key w' = listeners_of key w ++ [l]).
  { unfold listeners_of at 1. by rewrite HL, lookup_insert_eq. }
  assert (Hrun : delivered (run_event_loop w') =
    delivered w ++ flat_map (task_deliveries (listeners w')) (ticks w) ++
    first_value ++ flat_map (task_deliveries (listeners w')) (immediates w)).
  { rewrite run_event_loop_delivered. unfold pending_deliveries.
    rewrite HD, HT, HI, !flat_map_app. unfold first_value.
    destruct (md5 row); simpl; by rewrite <- ?app_assoc. }
  split; [by rewrite (subscribe_known O i l w row Hrow)|].
  split; [done|]. split; [done|]. split; [done|]. split; [done|]. split.
  - intros Ht Hi. rewrite Hrun, Ht, Hi. simpl. by rewrite app_nil_r.
  - intros c Ht Hi. rewrite Hrun, Ht, Hi. simpl. rewrite app_nil_r.
    by rewrite HL, lookup_insert_eq.
Qed.

(** Listener 9 subscribes right after the first synchronisation of
    [demo], whose emit of ["v1"] to listener 7 is still queued: listener
    9 is called twice with ["v1"]. *)
Lemma subscribe_late_value_witness :
  let E := stubE two_hosts (HttpRes 200 (Some "v1")) in
  let w := (DiamondEnv._syncConfigs stubP E stubO [demo] subscribed).2 in
  let w' := (DiamondEnv.subscribe stubO demo 9 w).2 in
  immediates w = [TEmit "d@g@u1" (Some "v1")] /\
  delivered (run_event_loop w') =
    [ByCall "d@g@u1" 9 (Some "v1");
     ByEmit "d@g@u1" 7 (Some "v1"); ByEmit "d@g@u1" 9 (Some "v1")].
Proof.
  intros E w w'.
  assert (Hi : immediates w = [TEmit "d@g@u1" (Some "v1")]) by (vm_compute; reflexivity).
  split; [exact Hi|].
  destruct (subscribe_late_value stubO demo 9 w
              {| dataId := "d"; group := "g"; md5 := Some "md5:v1"; content := Some "v1" |})
    as (_ & _ & _ & _ & _ & _ & Hwindow); [vm_compute; reflexivity|].
  fold w' in Hwindow. rewrite (Hwindow (Some "v1")); [|vm_compute; reflexivity|exact Hi].
  vm_compute. reflexivity.
Defined.

(** ** [close] and the long-polling loop *)



Section LongPullingFacts.
Context (P : Platform) (E : Env) (O : Options).

Lemma long_pulling_turn_result w :
  DiamondEnv.long_pulling_turn P E O w =
    match DiamondEnv._checkServerConfigInfo P E O w with
    | (Return _, w') => (Return (), w')
    | (Throw err, w') =>
        (Return (),
         with_immediates
           (immediates w' ++ [TEmitError (set_name "DiamondLongPullingError" err)]) w')
    end.
Proof.
  unfold DiamondEnv.long_pulling_turn, try_catch.
  by destruct (DiamondEnv._checkServerConfigInfo P E O w) as [[[]|err] w'].
Qed.

Lemma long_pulling_ends fuel : forall w w',
  DiamondEnv.long_pulling P E O fuel false w = (Return true, w') ->
  _subscriptions w' = [].
Proof.
  induction fuel as [|fuel IH]; intros w w'; simpl; [done|].
  unfold bind at 1, gets. simpl.
  destruct (Nat.ltb_spec 0 (length (_subscriptions w))) as [Hlt|Hge].
  - unfold bind. rewrite long_pulling_turn_result.
    destruct (DiamondEnv._checkServerConfigInfo P E O w) as [[[]|err] w1]; apply IH.
  - intros [= <-]. destruct (_subscriptions w); [done|simpl in Hge; lia].
Qed.
End LongPullingFacts.

(** X23. A turn of the long-polling loop never throws: a failed check is
    queued as one error event named [DiamondLongPullingError] and the
    loop goes on. While the client is not closed, the loop ends only
    when no subscription is left. A second [_startLongPulling] while the
    loop is marked running does nothing. *)
Theorem long_pulling_loop P E O fuel w :
  (DiamondEnv.long_pulling_turn P E O w).1 = Return () /\
  (forall err,
     (DiamondEnv._checkServerConfigInfo P E O w).1 = Throw err ->
     let w1 := (DiamondEnv._checkServerConfigInfo P E O w).2 in
     (DiamondEnv.long_pulling_turn P E O w).2 =
       with_immediates
         (immediates w1 ++ [TEmitError (set_name "DiamondLongPullingError" err)]) w1) /\
  (forall w',
     DiamondEnv.long_pulling P E O fuel false w = (Return true, w') ->
     _subscriptions w' = []) /\
  (forall flags,
     _isLongPulling flags = true ->
     DiamondEnv._startLongPulling P E O fuel flags w = (Return flags, w)).
Proof.
  split; [|split; [|split]].
  - rewrite long_pulling_turn_result.
    by destruct (DiamondEnv._checkServerConfigInfo P E O w) as [[[]|err] w'].
  - intros err Herr w1. subst w1. rewrite long_pulling_turn_result.
    destruct (DiamondEnv._checkServerConfigInfo P E O w) as [[[]|err'] w']; [done|].
    simpl in *. by injection Herr as ->.
  - apply long_pulling_ends.
  - intros flags Hflags. unfold DiamondEnv._startLongPulling. by rewrite Hflags.
Qed.

Lemma long_pulling_loop_witness :
  let E := stubE (HttpRes 503 None) (HttpRes 200 None) in
  exists err,
    (DiamondEnv._checkServerConfigInfo stubP E stubO subscribed).1 = Throw err /\
    map (fun t => match t with TEmitError e => err_name e | _ => "" end)
      (immediates (DiamondEnv.long_pulling_turn stubP E stubO subscribed).2) =
      ["DiamondLongPullingError"].
Proof.
  intros E.
  pose (err := match (DiamondEnv._checkServerConfigInfo stubP E stubO subscribed).1 with
               | Throw e => e
               | Return _ => new_Error ""
               end).
  exists err.
  assert (Herr : (DiamondEnv._checkServerConfigInfo stubP E stubO subscribed).1 = Throw err)
    by (vm_compute; reflexivity).
  split; [exact Herr|].
  destruct (long_pulling_loop stubP E stubO 1 subscribed) as (_ & Hturn & _).
  rewrite (Hturn err Herr). vm_compute. reflexivity.
Defined.

(** ** [getAllConfigInfo] *)

Lemma page_count_spec (i : nat) total :
  (Z.of_nat i * 200 <? total) = true <-> (i < page_count total)%nat.
Proof.
  unfold page_count.
  pose proof (Z.div_mod (total + 199) 200 ltac:(done)) as Hdm.
  pose proof (Z.mod_pos_bound (total + 199) 200 ltac:(done)) as Hmod.
  rewrite Z.ltb_lt. split; intros H; lia.
Qed.

Section PageFacts.
Context (P : Platform) (E : Env) (O : Options) (J : Json).
Context (h : string) (pg : Z -> Z -> page (item J)).

Hypothesis h_usable : h <> "".
Hypothesis answers :
  forall pageNo pageSize, exists body,
    httpclient E (page_request P E O h pageNo pageSize) = HttpRes 200 body /\
    parse_page J body = Return (pg pageNo pageSize).

Lemma inner_page pageNo pageSize w :
  _currentServer w = Some h ->
  DiamondEnv.getAllConfigInfoByTenantInner P E O J pageNo pageSize w =
    (Return (pg pageNo pageSize), sent (page_request P E O h pageNo pageSize) w).
Proof.
  intros Hs. unfold DiamondEnv.getAllConfigInfoByTenantInner, bind.
  rewrite (request_result P E O _ _ w w (select_server_selected P E O h w Hs h_usable)).
  cbv zeta. rewrite Hs. fold (page_request P E O h pageNo pageSize).
  destruct (answers pageNo pageSize) as (body & -> & Hparse). simpl.
  by rewrite Hparse.
Qed.

Lemma pages_from_result total fuel : forall (i : nat) configs w,
  _currentServer w = Some h ->
  (page_count total <= fuel + i)%nat ->
  DiamondEnv.pages_from P E O J fuel (Z.of_nat i) total configs w =
    (Return (configs ++
             flat_map (fun k => pageItems (pg (Z.of_nat k + 1) 200))
               (seq i (page_count total - i))),
     with_wire
       (wire w ++ map (fun k => (ByDiamondEnv, page_request P E O h (Z.of_nat k + 1) 200))
                    (seq i (page_count total - i))) w).
Proof.
  induction fuel as [|fuel IH]; intros i configs w Hs Hfuel.
  - simpl in *. assert (page_count total - i = 0)%nat as -> by lia.
    simpl. rewrite !app_nil_r. by destruct w.
  - simpl. destruct (Z.of_nat i * 200 <? total) eqn:Hlt.
    + apply page_count_spec in Hlt.
      unfold bind. rewrite inner_page by done.
      replace (Z.of_nat i + 1) with (Z.of_nat (S i)) by lia.
      rewrite IH; [|done|lia].
      assert (page_count total - i = S (page_count total - S i))%nat as -> by lia.
      simpl. rewrite <- !app_assoc. simpl.
      replace (Z.of_nat (S i)) with (Z.of_nat i + 1) by lia. done.
    + assert (page_count total - i = 0)%nat as ->.
      { destruct (Nat.ltb_spec i (page_count total)) as [H|H]; [|lia].
        apply page_count_spec in H. congruence. }
      simpl. rewrite !app_nil_r. by destruct w.
Qed.
End PageFacts.

(** X24. [getAllConfigInfo] reads the count from a first page of size 1
    and then the pages of 200 that hold that many entries. With a server
    selected and every page request answered by a page, it returns the
    items of pages 1 to [n] in order, where [n] is the count divided by
    200 and rounded up, and it sends [n + 1] requests; the counts
    reported by the later pages are not read. A count of zero or less
    asks for no page. *)
Theorem getAllConfigInfo_pages P E O J h pg w :
  let total := totalCount (pg 1 1) in
  let out := DiamondEnv.getAllConfigInfo P E O J w in
  _currentServer w = Some h -> h <> "" ->
  (forall pageNo pageSize, exists body,
     httpclient E (page_request P E O h pageNo pageSize) = HttpRes 200 body /\
     parse_page J body = Return (pg pageNo pageSize)) ->
  out.1 = Return (flat_map (fun k => pageItems (pg (Z.of_nat k + 1) 200))
                    (seq 0 (page_count total))) /\
  wire out.2 =
    wire w ++ (ByDiamondEnv, page_request P E O h 1 1) ::
      map (fun k => (ByDiamondEnv, page_request P E O h (Z.of_nat k + 1) 200))
        (seq 0 (page_count total)).
Proof.
  intros total out Hs Hh Hans. subst out.
  unfold DiamondEnv.getAllConfigInfo, bind.
  rewrite (inner_page P E O J h pg Hh Hans 1 1 w Hs). fold total.
  pose proof (pages_from_result P E O J h pg Hh Hans total (Z.to_nat total) 0 []
                (sent (page_request P E O h 1 1) w)) as Hpages.
  change (Z.of_nat 0) with 0 in Hpages. rewrite Hpages; [|done|].
  - rewrite Nat.sub_0_r. simpl. by rewrite <- app_assoc.
  - unfold page_count. rewrite Nat.add_0_r.
    pose proof (Z.div_mod (total + 199) 200 ltac:(done)) as Hdm.
    pose proof (Z.mod_pos_bound (total + 199) 200 ltac:(done)) as Hmod.
    lia.
Qed.

Lemma getAllConfigInfo_pages_witness :
  let E := stubE two_hosts (HttpRes 200 (Some "p")) in
  let out := DiamondEnv.getAllConfigInfo stubP E stubO stubJ two_subscriptions in
  out.1 = Return ["x"; "x"] /\ length (wire out.2) = 3%nat.
Proof.
  intros E out.
  destruct (getAllConfigInfo_pages stubP E stubO stubJ "h1"
              (fun _ _ => {| totalCount := 201; pageItems := ["x"] |})
              two_subscriptions) as [Hres Hwire].
  - reflexivity.
  - discriminate.
  - intros pageNo pageSize. exists (Some "p"). split; reflexivity.
  - fold out in Hres, Hwire. rewrite Hres, Hwire. split; vm_compute; reflexivity.
Defined.

(** ** [batchGetConfig] and [batchQuery] *)




Section BatchFacts.
Context (P : Platform) (E : Env) (O : Options) (J : Json).



End BatchFacts.



(** X26. A body that does not parse is reported under one name. When
    the request of [batchGetConfig] or of [batchQuery] has returned and
    the body does not parse, the call throws the error of the parser
    renamed [DiamondBatchDeserializeError], with the body as its [data]
    when the body is a string; [batchGetConfig] has then saved nothing. *)
Theorem batch_deserialize_error P E O J dataIds group w e :
  let get := DiamondEnv._request P E O "/config.co?method=batchGetConfig"
               (batch_options O dataIds group) w in
  let query := DiamondEnv._request P E O "/admin.do?method=batchQuery"
                 (batch_options O dataIds group) w in
  let reported content err :=
    err_name err = "DiamondBatchDeserializeError" /\
    match content with
    | Some s => err_data err = Some (PText s)
    | None => err_data err = err_data e
    end in
  (forall content,
     get.1 = Return content -> parse_batch J content = Throw e ->
     exists err,
       DiamondEnv.batchGetConfig P E O J dataIds group w = (Throw err, get.2) /\
       reported content err) /\
  (forall content,
     query.1 = Return content -> parse_answer J content = Throw e ->
     exists err,
       DiamondEnv.batchQuery P E O J dataIds group w = (Throw err, query.2) /\
       reported content err).
Proof.
  intros get query reported.
  assert (Hrep : forall content,
            reported content (DiamondEnv.deserialize_error content e)).
  { intros [s|]; by split. }
  split; intros content Hreq Hparse;
    exists (DiamondEnv.deserialize_error content e); (split; [|apply Hrep]).
  - unfold DiamondEnv.batchGetConfig, bind at 1.
    fold (batch_options O dataIds group). fold get.
    destruct get as [r w1]. simpl in *. subst r. unfold try_catch. by rewrite Hparse.
  - unfold DiamondEnv.batchQuery, bind at 1.
    fold (batch_options O dataIds group). fold query.
    destruct query as [r w1]. simpl in *. subst r. by rewrite Hparse.
Qed.

Lemma batch_deserialize_error_witness :
  let E := stubE two_hosts (HttpRes 200 (Some "<html>")) in
  exists err,
    (DiamondEnv.batchGetConfig stubP E stubO stubJ ["d"] "g" (fresh ∅)).1 = Throw err /\
    err_name err = "DiamondBatchDeserializeError" /\
    err_data err = Some (PText "<html>").
Proof.
  intros E.
  destruct (batch_deserialize_error stubP E stubO stubJ ["d"] "g" (fresh ∅)
              (new_Error "SyntaxError")) as [Hget _].
  destruct (Hget (Some "<html>")) as (err & Hrun & Hname & Hdata);
    [vm_compute; reflexivity | reflexivity |].
  exists err. rewrite Hrun. repeat split; assumption.
Defined.

(** ** A failed synchronisation *)

Section SyncFailureFacts.
Context (P : Platform) (E : Env) (O : Options).

Lemma gather_returns {A} (tasks : list (M A)) w :
  exists rs, (DiamondEnv.gather tasks w).1 = Return rs.
Proof.
  revert w. induction tasks as [|t tasks IH]; intros w; simpl; [by eexists|].
  destruct (t w) as [r w1]. destruct (IH w1) as [rs Hrs].
  destruct (DiamondEnv.gather tasks w1) as [[rs'|e] w2]; simpl in *; [by eexists|done].
Qed.

Lemma sync_results_returns infos : forall results w,
  (DiamondEnv.sync_results P O infos results w).1 = Return ().
Proof.
  induction infos as [|i infos IH]; intros [|r results] w; simpl; try done.
  unfold bind at 1.
  assert (Hone : (DiamondEnv.sync_result P O i r w).1 = Return ()).
  { unfold DiamondEnv.sync_result, bind, gets.
    destruct (Map_get _ _) as [item|]; [|done].
    destruct r as [c|e]; [|done]. by destruct (bool_decide _). }
  destruct (DiamondEnv.sync_result P O i r w) as [[[]|e] w1]; simpl in *; [|done].
  apply IH.
Qed.
End SyncFailureFacts.

(** X27. [_syncConfigs] never throws. A fetch that fails for a
    subscribed configuration is turned into one queued error event named
    [DiamondSyncConfigError] that carries the [dataId] and [group] of
    the row; the row keeps its [md5] and [content], and nothing is
    queued for the listeners. *)
Theorem syncConfigs_failure P E O i w :
  let key := DiamondEnv._formatKey O i in
  let fetch := DiamondEnv.getConfig P E O (info_dataId i) (info_group i) w in
  (forall infos, (DiamondEnv._syncConfigs P E O infos w).1 = Return ()) /\
  (forall item err,
     Map_get key (_subscriptions w) = Some item ->
     fetch.1 = Throw err ->
     (DiamondEnv._syncConfigs P E O [i] w).2 =
       with_immediates
         (immediates fetch.2 ++
            [TEmitError (set_dataId_group (dataId item) (group item)
                           (new_Error "DiamondSyncConfigError"))]) fetch.2 /\
     _subscriptions (DiamondEnv._syncConfigs P E O [i] w).2 = _subscriptions w /\
     pending_deliveries (DiamondEnv._syncConfigs P E O [i] w).2 = pending_deliveries w).
Proof.
  intros key fetch. split.
  - intros infos. unfold DiamondEnv._syncConfigs, bind.
    destruct (gather_returns
                (map (fun i => DiamondEnv.getConfig P E O (info_dataId i) (info_group i)) infos)
                w) as [rs Hrs].
    destruct (DiamondEnv.gather _ w) as [[rs'|e] w1]; simpl in *; [|done].
    apply sync_results_returns.
  - intros item err Hitem Herr.
    pose proof (getConfig_engine P E O (info_dataId i) (info_group i) w) as HF.
    fold fetch in HF. cbv zeta in HF. destruct HF as (Hs & _ & _ & Hp).
    assert (Hrun : (DiamondEnv._syncConfigs P E O [i] w).2 =
              with_immediates
                (immediates fetch.2 ++
                   [TEmitError (set_dataId_group (dataId item) (group item)
                                  (new_Error "DiamondSyncConfigError"))]) fetch.2).
    { destruct fetch as [r w1] eqn:Hfetch. simpl in *. subst r.
      rewrite (syncConfigs_single P O E i _ w w1 Hfetch).
      unfold DiamondEnv.sync_result, bind, gets. fold key. by rewrite Hs, Hitem. }
    rewrite Hrun. split; [done|]. split; [done|].
    by rewrite pending_deliveries_error.
Qed.

Lemma syncConfigs_failure_witness :
  let E := stubE (HttpRes 503 None) (HttpRes 200 None) in
  let w' := (DiamondEnv._syncConfigs stubP E stubO [demo] subscribed).2 in
  _subscriptions w' = _subscriptions subscribed /\
  map (fun t => match t with TEmitError e => err_name e | _ => "" end) (immediates w') =
    ["DiamondSyncConfigError"].
Proof.
  intros E w'.
  pose (err := match (DiamondEnv.getConfig stubP E stubO "d" "g" subscribed).1 with
               | Throw e => e
               | Return _ => new_Error ""
               end).
  destruct (syncConfigs_failure stubP E stubO demo subscribed) as [_ Hfail].
  destruct (Hfail {| dataId := "d"; group := "g"; md5 := None; content := None |} err)
    as (Hrun & Hsubs & _); [reflexivity | vm_compute; reflexivity |].
  split; [exact Hsubs|].
  unfold w'. rewrite Hrun. vm_compute. reflexivity.
Defined.

(** ** A turn of the probe *)

Section ProbeFacts.
Context (P : Platform) (E : Env) (O : Options) (h : string).

Hypothesis h_usable : h <> "".
Hypothesis fetch_answers :
  forall i, exists status body,
    httpclient E (config_request P E O h i) = HttpRes status body /\
    (status = 200 \/ status = 404).

Lemma getConfig_answered i w :
  _currentServer w = Some h ->
  exists c w',
    DiamondEnv.getConfig P E O (info_dataId i) (info_group i) w = (Return c, w') /\
    _currentServer w' = Some h /\
    wire w' = wire w ++ [(ByDiamondEnv, config_request P E O h i)].
Proof.
  intros Hs.
  assert (Hreq : exists c,
            DiamondEnv._request P E O "/config.co"
              (DiamondEnv.config_options O (info_dataId i) (info_group i)) w =
            (Return c, sent (config_request P E O h i) w)).
  { rewrite (request_result P E O _ _ w w (select_server_selected P E O h w Hs h_usable)).
    cbv zeta. rewrite Hs. fold (config_request P E O h i).
    destruct (fetch_answers i) as (status & body & -> & [-> | ->]); simpl; eauto. }
  destruct Hreq as [c Hreq].
  rewrite (getConfig_success P E O (info_dataId i) (info_group i) w c);
    [|by rewrite Hreq].
  rewrite Hreq. simpl. eexists c, _. split; [done|]. split.
  - by rewrite (frame_save E O _currentServer).
  - by rewrite (frame_save E O wire).
Qed.

Lemma gather_answered infos : forall w,
  _currentServer w = Some h ->
  exists rs w',
    DiamondEnv.gather
      (map (fun i => DiamondEnv.getConfig P E O (info_dataId i) (info_group i)) infos) w =
      (Return rs, w') /\
    wire w' = wire w ++ map (fun i => (ByDiamondEnv, config_request P E O h i)) infos.
Proof.
  induction infos as [|i infos IH]; intros w Hs; simpl.
  - exists [], w. by rewrite app_nil_r.
  - destruct (getConfig_answered i w Hs) as (c & w1 & -> & Hs1 & Hw1).
    destruct (IH w1 Hs1) as (rs & w' & -> & Hw').
    eexists _, w'. split; [done|]. by rewrite Hw', Hw1, <- app_assoc.
Qed.

Lemma syncConfigs_answered infos w :
  _currentServer w = Some h ->
  (DiamondEnv._syncConfigs P E O infos w).1 = Return () /\
  wire (DiamondEnv._syncConfigs P E O infos w).2 =
    wire w ++ map (fun i => (ByDiamondEnv, config_request P E O h i)) infos.
Proof.
  intros Hs. unfold DiamondEnv._syncConfigs, bind.
  destruct (gather_answered infos w Hs) as (rs & w' & -> & Hw').
  split; [apply sync_results_returns|].
  by rewrite (frame_sync_results P O wire).
Qed.
End ProbeFacts.

(** X28. A turn of the probe fetches exactly what the answer names.
    With a server selected and subscriptions to probe, when the probe
    is answered with the lines of some configurations and every fetch
    is answered with status 200 or 404, [_checkServerConfigInfo]
    returns, and the requests it has sent are the probe followed by one
    fetch for the [dataId] and [group] of each line, in the order of the
    lines, whether or not the client has subscribed to them. An answer
    without lines costs the probe alone. *)
Theorem probe_answer_fetches P E O h w rows :
  let probe := probe_request P E O h (_subscriptions w) in
  let out := DiamondEnv._checkServerConfigInfo P E O w in
  _subscriptions w <> [] ->
  _currentServer w = Some h -> h <> "" ->
  httpclient E probe = HttpRes 200 (Some (update_body rows)) ->
  Forall (fun r => Forall plain (info_dataId r.1 :: info_group r.1 :: r.2)) rows ->
  decodeURIComponent P (update_body rows) = Some (update_body rows) ->
  (forall i, exists status body,
     httpclient E (config_request P E O h i) = HttpRes status body /\
     (status = 200 \/ status = 404)) ->
  out.1 = Return () /\
  wire out.2 =
    wire w ++ (ByDiamondEnv, probe) ::
      map (fun r => (ByDiamondEnv, config_request P E O h r.1)) rows.
Proof.
  intros probe out Hsubs Hs Hh Hprobe Hrows Hdec Hfetch. subst out.
  rewrite (checkServerConfigInfo_nonempty P E O w Hsubs). unfold bind.
  rewrite (request_result P E O _ _ w w (select_server_selected P E O h w Hs Hh)).
  cbv zeta. rewrite Hs. fold (probe_request P E O h (_subscriptions w)). fold probe.
  rewrite Hprobe. simpl.
  unfold DiamondEnv.sync_updates, DiamondEnv._parseUpdateDataIdResponse. simpl.
  rewrite Hdec, parse_update_body by done.
  destruct rows as [|r rows].
  - by split.
  - change (map fst (r :: rows)) with (r.1 :: map fst rows).
    cbn [length Nat.eqb negb].
    destruct (syncConfigs_answered P E O h Hh Hfetch (r.1 :: map fst rows) (sent probe w))
      as [Hret Hwire]; [done|].
    split; [done|]. rewrite Hwire. simpl. rewrite <- app_assoc. simpl.
    by rewrite map_map.
Qed.

Lemma probe_answer_fetches_witness :
  let answer := update_body [({| info_dataId := "d"; info_group := "g" |}, ["ns"])] in
  let E := {| httpclient := fun r =>
                if String.eqb (req_method r) "POST" then HttpRes 200 (Some answer)
                else HttpRes 200 (Some "v2");
              fs_fault := fun _ => None;
              random := fun _ => 0%nat;
              Date_now := 1700000000000 |} in
  let out := DiamondEnv._checkServerConfigInfo stubP E stubO two_subscriptions in
  out.1 = Return () /\
  map (fun c => (req_method c.2, req_url c.2)) (wire out.2) =
    [("POST", "https://h1:443/diamond-server/config.co");
     ("GET", "https://h1:443/diamond-server/config.co")].
Proof.
  intros answer E out.
  destruct (probe_answer_fetches stubP E stubO "h1" two_subscriptions
              [({| info_dataId := "d"; info_group := "g" |}, ["ns"])])
    as [Hret Hwire].
  - discriminate.
  - reflexivity.
  - discriminate.
  - reflexivity.
  - repeat constructor.
  - reflexivity.
  - intros i. exists 200, (Some "v2"). split; [reflexivity | by left].
  - fold out in Hret, Hwire. split; [exact Hret|]. rewrite Hwire. vm_compute. reflexivity.
Defined.

(** ** The endpoint *)

Lemma split_first sep s :
  exists a, contains sep a = false /\ (s = a \/ exists r, s = a +:+ String sep r).
Proof.
  induction s as [|c s (a & Ha & Hs)].
  - exists "". split; [done|]. by left.
  - destruct (Ascii.eqb_spec c sep) as [->|Hc].
    + exists "". split; [done|]. right. by exists s.
    + exists (String c a). split.
      * simpl. rewrite Ha, orb_false_r. by apply Ascii.eqb_neq.
      * destruct Hs as [->|[r ->]]; [by left|]. right. by exists r.
Qed.

(** X29. The endpoint is completed to [host:port] from its own parts.
    For an endpoint that is set, the constructor of the manager keeps
    what precedes the first colon as the host and what lies between the
    first and the second colon as the port, with 8080 for a port that is
    missing or empty; anything from a second colon on is dropped. Every
    endpoint is of one of these two forms, so the result is determined;
    it holds exactly one colon, and completing it again changes
    nothing. *)
Theorem endpoint_with_port_shape :
  (forall host,
     host <> "" -> contains ":" host = false ->
     endpoint_with_port host = host +:+ ":8080") /\
  (forall host port rest,
     contains ":" host = false -> contains ":" port = false ->
     rest = "" \/ (exists r, rest = String ":" r) ->
     endpoint_with_port (host +:+ ":" +:+ port +:+ rest) =
       host +:+ ":" +:+ (if String.eqb port "" then "8080" else port)) /\
  (forall endpoint,
     exists host, contains ":" host = false /\
       (endpoint = host \/
        exists port rest,
          contains ":" port = false /\
          (rest = "" \/ exists r, rest = String ":" r) /\
          endpoint = host +:+ ":" +:+ port +:+ rest)) /\
  (forall endpoint,
     endpoint_with_port (endpoint_with_port endpoint) = endpoint_with_port endpoint).
Proof.
  assert (Hplain : forall host,
            host <> "" -> contains ":" host = false ->
            endpoint_with_port host = host +:+ ":8080").
  { intros host Hne Hhost. unfold endpoint_with_port. simpl.
    destruct (String.eqb_spec host "") as [|_]; [done|]. simpl.
    by rewrite split_plain. }
  assert (Hparts : forall host port rest,
            contains ":" host = false -> contains ":" port = false ->
            rest = "" \/ (exists r, rest = String ":" r) ->
            endpoint_with_port (host +:+ ":" +:+ port +:+ rest) =
              host +:+ ":" +:+ (if String.eqb port "" then "8080" else port)).
  { intros host port rest Hhost Hport Hrest. unfold endpoint_with_port. simpl.
    change (host +:+ ":" +:+ port +:+ rest) with (host +:+ String ":" (port +:+ rest)).
    assert (Hfull : String.eqb (host +:+ String ":" (port +:+ rest)) "" = false)
      by (by destruct host).
    rewrite Hfull. simpl. rewrite split_app by done.
    destruct Hrest as [->|[r ->]].
    - rewrite string_app_nil_r, split_plain by done. simpl.
      by destruct (String.eqb port "").
    - rewrite split_app by done. simpl. by destruct (String.eqb port ""). }
  assert (Hforms : forall endpoint,
            exists host, contains ":" host = false /\
              (endpoint = host \/
               exists port rest,
                 contains ":" port = false /\
                 (rest = "" \/ exists r, rest = String ":" r) /\
                 endpoint = host +:+ ":" +:+ port +:+ rest)).
  { intros endpoint. destruct (split_first ":" endpoint) as (host & Hhost & Hs).
    exists host. split; [done|]. destruct Hs as [->|[tail ->]]; [by left|]. right.
    destruct (split_first ":" tail) as (port & Hport & Ht).
    destruct Ht as [->|[r ->]].
    - exists port, "". split; [done|]. split; [by left|].
      by rewrite string_app_nil_r.
    - exists port, (String ":" r). split; [done|]. split; [by eauto|]. done. }
  split; [exact Hplain|]. split; [exact Hparts|]. split; [exact Hforms|].
  intros endpoint. destruct (String.eqb_spec endpoint "") as [->|Hne]; [done|].
  destruct (Hforms endpoint) as (host & Hhost & [->|(port & rest & Hport & Hrest & ->)]).
  - rewrite (Hplain host) by done.
    apply (Hparts host "8080" ""); [done|done|by left].
  - rewrite (Hparts host port rest) by done.
    destruct (String.eqb_spec port "") as [->|Hp].
    + apply (Hparts host "8080" ""); [done|done|by left].
    + rewrite <- (string_app_nil_r port) at 1.
      rewrite (Hparts host port "") by (done || by left).
      by destruct (String.eqb_spec port "").
Qed.

Lemma endpoint_with_port_shape_witness :
  endpoint_with_port "acm.aliyun.com" = "acm.aliyun.com:8080" /\
  endpoint_with_port "acm.aliyun.com:80:x" = "acm.aliyun.com:80" /\
  endpoint_with_port (endpoint_with_port "acm.aliyun.com:") = "acm.aliyun.com:8080".
Proof.
  destruct endpoint_with_port_shape as (Hplain & Hparts & _ & Hidem).
  split; [|split].
  - apply (Hplain "acm.aliyun.com"); [discriminate | reflexivity].
  - apply (Hparts "acm.aliyun.com" "80" ":x"); [reflexivity | reflexivity |].
    right. by exists "x".
  - rewrite Hidem. apply (Hparts "acm.aliyun.com" "" ""); [reflexivity | reflexivity |].
    by left.
Defined.
